(** * LawMate: the heuristic risk pipeline, retrieval ranking and the
      submission boundary, embedded from the Python sources.

    Layout:
    - [PyStr]      Python [str] values as lists of code points;
    - [PyUnicode]  the interpreter's Unicode tables, as a type class;
    - [Utils]      lawmate_app/utils.py;
    - [Models]     lawmate_app/models.py;
    - [Justice]    lawmate_app/rag/justice_api.py;
    - [Db], [Ui]   lawmate_app/db.py and lawmate_app/ui/main_window.py;
    - the theorems, one block per property. *)

From Stdlib Require Import String Ascii DecimalString.
From Stdlib Require Import List ZArith NArith QArith Lia Bool.
From Stdlib Require Import Permutation Sorted.
Import ListNotations.

Local Open Scope Z_scope.

(* ===================================================================== *)
(** ** Python strings                                                     *)
(* ===================================================================== *)

Module PyStr.

(** A Python [str] is a sequence of Unicode code points. *)
Definition codepoint := N.
Definition pystr := list codepoint.

(** The development writes string constants as UTF-8 literals, exactly as
    the .py files do; [utf8] decodes them to code points.  [need] counts
    the continuation bytes still expected and [acc] holds the bits read. *)
Fixpoint utf8_go (bs : list N) (acc : N) (need : nat) : pystr :=
  match bs with
  | [] => []
  | b :: rest =>
      match need with
      | O =>
          if (b <? 128)%N then b :: utf8_go rest 0%N O
          else if (b <? 224)%N then utf8_go rest (N.land b 31) 1%nat
          else if (b <? 240)%N then utf8_go rest (N.land b 15) 2%nat
          else utf8_go rest (N.land b 7) 3%nat
      | S O => (acc * 64 + N.land b 63)%N :: utf8_go rest 0%N O
      | S n => utf8_go rest (acc * 64 + N.land b 63)%N n
      end
  end.

Definition utf8 (s : string) : pystr :=
  utf8_go (map (fun a => N_of_ascii a) (list_ascii_of_string s)) 0%N O.

Arguments utf8 s%_string.

(** [==] on strings. *)
Fixpoint str_eqb (a b : pystr) : bool :=
  match a, b with
  | [], [] => true
  | x :: a', y :: b' => (x =? y)%N && str_eqb a' b'
  | _, _ => false
  end.

(** [s.startswith(p)]. *)
Fixpoint startswith (s p : pystr) : bool :=
  match p, s with
  | [], _ => true
  | x :: p', y :: s' => (x =? y)%N && startswith s' p'
  | _ :: _, [] => false
  end.

(** [needle in hay] for strings: substring search. *)
Fixpoint str_in (needle hay : pystr) : bool :=
  startswith hay needle ||
  match hay with
  | [] => false
  | _ :: hay' => str_in needle hay'
  end.

(** [w in s] for a set or list of strings. *)
Definition mem (w : pystr) (s : list pystr) : bool := existsb (str_eqb w) s.

(** [sep.join(parts)]. *)
Fixpoint join (sep : pystr) (parts : list pystr) : pystr :=
  match parts with
  | [] => []
  | [p] => p
  | p :: rest => p ++ sep ++ join sep rest
  end.

(** [str.isspace] per code point; the same table drives [\s] in [re],
    [str.strip()] and [str.split()]. *)
Definition is_space (c : codepoint) : bool :=
  ((9 <=? c) && (c <=? 13) || (28 <=? c) && (c <=? 32) ||
   (c =? 133) || (c =? 160) || (c =? 5760) ||
   (8192 <=? c) && (c <=? 8202) || (c =? 8232) || (c =? 8233) ||
   (c =? 8239) || (c =? 8287) || (c =? 12288))%N.

Fixpoint lstrip (s : pystr) : pystr :=
  match s with
  | [] => []
  | c :: r => if is_space c then lstrip r else s
  end.

Definition rstrip (s : pystr) : pystr := rev (lstrip (rev s)).

Definition strip (s : pystr) : pystr := rstrip (lstrip s).

(** [re.sub(r"\s+", " ", s)]: [in_run] tells whether the previous code
    point already belonged to the whitespace run being replaced. *)
Fixpoint sub_ws (in_run : bool) (s : pystr) : pystr :=
  match s with
  | [] => []
  | c :: r =>
      if is_space c
      then (if in_run then sub_ws true r else 32%N :: sub_ws true r)
      else c :: sub_ws false r
  end.

(** [s.split()]: the maximal runs of non-whitespace. [cur] is the word
    being read, reversed. *)
Fixpoint split_go (cur : pystr) (s : pystr) : list pystr :=
  let emit := match cur with [] => [] | _ => [rev cur] end in
  match s with
  | [] => emit
  | c :: r => if is_space c then emit ++ split_go [] r else split_go (c :: cur) r
  end.

Definition str_split (s : pystr) : list pystr := split_go [] s.

(** [re.findall] of [cls{3,}]: the maximal runs of class members that are
    at least three long (the quantifier is greedy and the scan resumes
    after each match, so a shorter run yields nothing). *)
Fixpoint findall_runs (cls : codepoint -> bool) (cur : pystr) (s : pystr)
  : list pystr :=
  let emit := if (3 <=? length cur)%nat then [rev cur] else [] in
  match s with
  | [] => emit
  | c :: r =>
      if cls c then findall_runs cls (c :: cur) r
      else emit ++ findall_runs cls [] r
  end.

(** [seq[:n]] with Python's meaning of a negative bound. *)
Definition slice_to {A} (l : list A) (n : Z) : list A :=
  if n <? 0 then firstn (Z.to_nat (Z.of_nat (length l) + n)) l
  else firstn (Z.to_nat n) l.

End PyStr.
Export PyStr.


(* ===================================================================== *)
(** ** Values decoded from JSON                                           *)
(* ===================================================================== *)

Module Json.

(** What [requests.Response.json()] can hand back: the Python objects of
    the [json] module.  A [dict] keeps insertion order; lookup takes the
    first binding of a key. *)
#[warnings="-register-all"]
Inductive json : Type :=
| JNone
| JBool (b : bool)
| JInt (z : Z)
| JFloat (q : Q)
| JStr (s : pystr)
| JList (l : list json)
| JDict (kv : list (pystr * json)).

(** [type(x).__name__]. *)
Definition type_name (j : json) : pystr :=
  match j with
  | JNone => utf8 "NoneType"
  | JBool _ => utf8 "bool"
  | JInt _ => utf8 "int"
  | JFloat _ => utf8 "float"
  | JStr _ => utf8 "str"
  | JList _ => utf8 "list"
  | JDict _ => utf8 "dict"
  end.

(** Truth value, as [x or default] tests it. *)
Definition truthy (j : json) : bool :=
  match j with
  | JNone => false
  | JBool b => b
  | JInt z => negb (z =? 0)
  | JFloat q => negb (Qnum q =? 0)
  | JStr s => match s with [] => false | _ => true end
  | JList l => match l with [] => false | _ => true end
  | JDict kv => match kv with [] => false | _ => true end
  end.

(** [d.get(key, default)] on the bindings of a dict. *)
Fixpoint dict_get (kv : list (pystr * json)) (key : pystr) (default : json)
  : json :=
  match kv with
  | [] => default
  | (k, v) :: rest => if str_eqb k key then v else dict_get rest key default
  end.

End Json.
Export Json.

(* ===================================================================== *)
(** ** The interpreter's Unicode tables                                   *)
(* ===================================================================== *)

(** The sources call into CPython for case mapping, the regex classes
    [\d] and [\w], case-insensitive class membership and [repr].  These
    are tables of the interpreter, not code of the application: the
    embedding is parametric in them, and every theorem below holds for
    any instance. *)
Class PyRuntime : Type := {
  (** [str.lower()] *)
  str_lower : pystr -> pystr;
  str_lower_empty : str_lower [] = [];
  (** [\d] in a [str] pattern *)
  re_digit : codepoint -> bool;
  (** [\w] in a [str] pattern *)
  re_word : codepoint -> bool;
  (** membership of a code point in a character class compiled with
      [re.IGNORECASE] *)
  re_ignorecase : (codepoint -> bool) -> codepoint -> bool;
  (** [str(x)] for an [x] that is not itself a [str] *)
  py_repr : json -> pystr
}.

(** [str(x)]. *)
Definition py_str `{PyRuntime} (j : json) : pystr :=
  match j with
  | JStr s => s
  | _ => py_repr j
  end.

(** *** An instance for Czech text: code points up to U+017F. *)

Module Latin.

Local Open Scope N_scope.

Definition in_range (lo hi c : codepoint) : bool := ((lo <=? c) && (c <=? hi)).

(** Lowercase mapping of one code point (Basic Latin, Latin-1 Supplement
    and Latin Extended-A; beyond them the code point is kept). *)
Definition lower_cp (c : codepoint) : pystr :=
  if in_range 65 90 c then [c + 32]
  else if in_range 192 222 c && negb (c =? 215) then [c + 32]
  else if (c =? 304) then [105; 775]
  else if (c =? 376) then [255]
  else if (in_range 256 303 c || in_range 306 311 c || in_range 330 375 c)
          && N.even c then [c + 1]
  else if (in_range 313 328 c || in_range 377 382 c) && N.odd c then [c + 1]
  else [c].

Definition lower (s : pystr) : pystr := flat_map lower_cp s.

Definition digit (c : codepoint) : bool := in_range 48 57 c.

(** [str.isalnum()] or underscore. *)
Definition word (c : codepoint) : bool :=
  in_range 48 57 c || in_range 65 90 c || in_range 97 122 c || (c =? 95) ||
  (c =? 170) || (c =? 178) || (c =? 179) || (c =? 181) ||
  (c =? 185) || (c =? 186) || in_range 188 190 c ||
  (in_range 192 383 c && negb (c =? 215) && negb (c =? 247)).

(** Case folding as [re] applies it: the simple lowercase mapping, with
    dotless i and long s joined to i and s. *)
Definition fold (c : codepoint) : codepoint :=
  if (c =? 304) || (c =? 305) then 105
  else if (c =? 383) then 115
  else match lower_cp c with
       | [x] => x
       | _ => c
       end.

Definition block : list codepoint := map N.of_nat (seq 0 384%nat).

Definition ignorecase (cls : codepoint -> bool) (c : codepoint) : bool :=
  cls c || existsb (fun x => cls x && (fold x =? fold c)) block.

Definition decimal (z : Z) : pystr :=
  utf8 (DecimalString.NilZero.string_of_int (Z.to_int z)).

(** Exact on [None], booleans and integers; floats and containers, which
    no payload below carries in a text field, print as their type name. *)
Definition repr (j : json) : pystr :=
  match j with
  | JNone => utf8 "None"
  | JBool true => utf8 "True"
  | JBool false => utf8 "False"
  | JInt z => decimal z
  | other => utf8 "<" ++ type_name other ++ utf8 ">"
  end.

#[export] Instance runtime : PyRuntime := {|
  str_lower := lower;
  str_lower_empty := eq_refl;
  re_digit := digit;
  re_word := word;
  re_ignorecase := ignorecase;
  py_repr := repr
|}.

End Latin.

(* ===================================================================== *)
(** ** lawmate_app/utils.py                                               *)
(* ===================================================================== *)

Module Utils.

Definition _CZ_STOPWORDS : list pystr := str_split (utf8 "
a aby ať ale ani ano až be bez bude budou byl byla byli byste bych bychom bys by
co do kdo kde když které která které který
je jeho její jen ještě jestli jsem jsme jste jsou
k ke komu kolik kolem ku kvůli kde která které který když
na nad nebo než ni nic
o od okolo pak po pod podle protože proti pro
se si s spolu stejně svůj své svého svým svémi
ta tak taky tam tady ten tento to tu tuto
u už v ve vám vás vy váš vaše
z za ze že
").

Definition normalize_text (text : pystr) : pystr := sub_ws false (strip text).

(** The class [[a-zá-ž0-9]] of the keyword pattern. *)
Definition kw_class (c : codepoint) : bool :=
  ((97 <=? c) && (c <=? 122) || (225 <=? c) && (c <=? 382) ||
   (48 <=? c) && (c <=? 57))%N.

(** The [for w in words] loop of [extract_keywords]: [seen] and [out] are
    the loop's two accumulators, [break] returns [out] at once. *)
Fixpoint kw_loop (words seen out : list pystr) (max_keywords : Z)
  : list pystr :=
  match words with
  | [] => out
  | w :: rest =>
      if mem w seen then kw_loop rest seen out max_keywords
      else
        let seen := w :: seen in
        let out := out ++ [w] in
        if Z.of_nat (length out) >=? max_keywords then out
        else kw_loop rest seen out max_keywords
  end.

Inductive TrafficLight : Type := green | yellow | red.

Definition traffic_light_from_score (score : Z) : TrafficLight :=
  if score >=? 70 then red
  else if score >=? 35 then yellow
  else green.

(** The three official category names. *)
Definition TRESTNI_PRAVO : pystr := utf8 "Trestní právo".
Definition OBCANSKE_PRAVO : pystr := utf8 "Občanské právo".
Definition PRAVNI_RAD : pystr := utf8 "Právní řád ČR (obecně)".

Definition trest_terms : list pystr := map utf8 [
  "policie"; "trestní"; "trestný"; "trestní oznámení"; "obviněn"; "obžaloba"; "výpověď";
  "zadržení"; "předvolání"; "soud"; "státní zástupce"; "kriminálka";
  "napadení"; "ublížení"; "násilí"; "vyhrožuje"; "vydírání";
  "krádež"; "loupež"; "podvod"; "drogy"; "alkohol"; "řízení pod vlivem";
  "vražda"; "zavraždil"; "zabil"; "smrt"; "usmrcení"
]%string.

Definition obc_terms : list pystr := map utf8 [
  "smlouva"; "faktura"; "nezaplatil"; "neplatí"; "dluh"; "půjčka"; "peníze";
  "žaloba"; "výzva k úhradě"; "náhrada škody"; "škoda";
  "reklamace"; "vrácení"; "záruka"; "spotřebitel";
  "pronájem"; "nájem"; "kauce"; "soused"; "plot"; "hluk";
  "rozvod"; "dědictví"; "opatrovnictví"; "péče o dítě";
  "zaměstnavatel"; "výpověď z práce"; "pracovní smlouva"
]%string.

Definition legal_terms : list pystr := map utf8 [
  "jaký je zákon"; "jaký zákon platí"; "paragraf"; "sbírka"; "ústav";
  "jak to říká zákon"; "co říká zákon"; "právní předpis"; "vyhláška";
  "judikatura"; "nejvyšší soud"; "nss"; "ústavní soud"
]%string.

Definition red_terms : list pystr := map utf8 [
  "policie"; "trestní oznámení"; "obviněn"; "obžaloba"; "výpověď"; "zadržení";
  "soud"; "exekuce"; "předvolání"; "insolvence"; "správní řízení";
  "vyhrožuje"; "násilí"; "napadení"; "ublížení"; "zabil"; "vražda"; "usmrcení"; "krádež"; "podvod";
  "dluh"; "žaloba"; "výzva k úhradě"
]%string.

Definition yellow_terms : list pystr := map utf8 [
  "smlouva"; "výpověď"; "reklamace"; "vrácení"; "pokuta"; "náhrada škody";
  "pronájem"; "nájem"; "rozvod"; "dědictví"; "dohoda"; "zaměstnavatel";
  "odstoupení"; "půjčka"
]%string.

(** [for term in terms: if term in t: score += inc]. *)
Definition add_matches (terms : list pystr) (t : pystr) (inc score : Z) : Z :=
  fold_left (fun sc term => if str_in term t then sc + inc else sc) terms score.

(** [scores[k]] on a dict written as its ordered items. *)
Fixpoint dict_item (d : list (pystr * Z)) (k : pystr) : Z :=
  match d with
  | [] => 0
  | (k', v) :: rest => if str_eqb k' k then v else dict_item rest k
  end.

(** [max(iterable, key=...)]: the first element whose key is maximal; a
    later element replaces the current best only when strictly greater. *)
Fixpoint max_from {A} (key : A -> Z) (best : A) (rest : list A) : A :=
  match rest with
  | [] => best
  | x :: r => if key x >? key best then max_from key x r else max_from key best r
  end.

Section WithRuntime.
Context {R : PyRuntime}.

Definition extract_keywords (text : pystr) (max_keywords : Z) : list pystr :=
  let text := str_lower (normalize_text text) in
  let words := findall_runs (re_ignorecase kw_class) [] text in
  let words := filter (fun w => negb (mem w _CZ_STOPWORDS)) words in
  kw_loop words [] [] max_keywords.

Definition infer_category (user_text : pystr) : pystr :=
  let t := str_lower (normalize_text user_text) in
  let score_for (terms : list pystr) : Z := add_matches terms t 2 0 in
  let scores := [
    (TRESTNI_PRAVO, score_for trest_terms);
    (OBCANSKE_PRAVO, score_for obc_terms);
    (PRAVNI_RAD, score_for legal_terms)
  ] in
  let best :=
    match map fst scores with
    | [] => []
    | k :: ks => max_from (fun k => dict_item scores k) k ks
    end in
  if dict_item scores best =? 0 then PRAVNI_RAD else best.

(** [\b]: exactly one of the two neighbours is a word character; the ends
    of the text count as non-word. *)
Definition word_boundary (prev : option codepoint) (s : pystr) : bool :=
  let is_w (o : option codepoint) :=
    match o with Some c => re_word c | None => false end in
  xorb (is_w prev) (is_w (hd_error s)).

(** [(?:[ .]\d{3})+\b] read from [s]: one group, then either more groups
    or the closing boundary. *)
Fixpoint money_groups (s : pystr) : bool :=
  match s with
  | sep :: d1 :: d2 :: d3 :: rest =>
      ((sep =? 32)%N || (sep =? 46)%N) &&
      re_digit d1 && re_digit d2 && re_digit d3 &&
      (money_groups rest || word_boundary (Some d3) rest)
  | _ => false
  end.

(** The tail of [\d{4,}\b] once four digits are read, [last] being the
    digit just consumed. *)
Fixpoint money_run (last : codepoint) (s : pystr) : bool :=
  word_boundary (Some last) s ||
  match s with
  | c :: r => re_digit c && money_run c r
  | [] => false
  end.

(** The money pattern [\b(\d{1,3}(?:[ .]\d{3})+|\d{4,})\b] anchored at the
    position between [prev] and [s]. *)
Definition money_at (prev : option codepoint) (s : pystr) : bool :=
  word_boundary prev s &&
  (match s with
   | d1 :: r1 =>
       re_digit d1 &&
       (money_groups r1 ||
        match r1 with
        | d2 :: r2 =>
            re_digit d2 &&
            (money_groups r2 ||
             match r2 with
             | d3 :: r3 => re_digit d3 && money_groups r3
             | [] => false
             end)
        | [] => false
        end)
   | [] => false
   end
   ||
   match s with
   | d1 :: d2 :: d3 :: d4 :: r =>
       re_digit d1 && re_digit d2 && re_digit d3 && re_digit d4 && money_run d4 r
   | _ => false
   end).

(** Whether [re.findall] of the money pattern finds anything in [s]. *)
Fixpoint money_search (prev : option codepoint) (s : pystr) : bool :=
  money_at prev s ||
  match s with
  | c :: r => money_search (Some c) r
  | [] => false
  end.

Definition heuristic_risk_score (user_text category : pystr) : Z :=
  let t := str_lower user_text in
  let score := 10 in
  let score := add_matches red_terms t 30 score in
  let score := add_matches yellow_terms t 15 score in
  let money := money_search None t in
  let score := if money then score + 15 else score in
  let score :=
    if str_in (utf8 "do zítra") t || str_in (utf8 "dnes") t
       || str_in (utf8 "lhůt") t
    then score + 15 else score in
  let score :=
    if startswith (str_lower category) (utf8 "trest")
    then score + 10 else score in
  Z.min score 100.

End WithRuntime.

End Utils.
Export Utils.

(* ===================================================================== *)
(** ** Exceptions and effects                                             *)
(* ===================================================================== *)

Module Eff.

(** A raised exception: [type(e).__name__] and [str(e)]. *)
Record exn : Type := Exn { exc_type : pystr; exc_msg : pystr }.

(** A calendar day, as its proleptic Gregorian ordinal
    ([date.toordinal()]); [date.min] has ordinal 1. *)
Definition date := Z.

(** Code that may raise and may call the remote index.  The state is the
    log of the days requested so far, oldest request first. *)
Definition eff (A : Type) : Type := list date -> (exn + A) * list date.

Definition ret {A} (a : A) : eff A := fun log => (inr a, log).

Definition raise {A} (e : exn) : eff A := fun log => (inl e, log).

Definition bind {A B} (m : eff A) (k : A -> eff B) : eff B :=
  fun log =>
    match m log with
    | (inl e, log') => (inl e, log')
    | (inr a, log') => k a log'
    end.

(** [try: m / except Exception: ...]: the outcome of [m] as a value. *)
Definition attempt {A} (m : eff A) : eff (exn + A) :=
  fun log => let (r, log') := m log in (inr r, log').

(** [for x in xs: s = body(x, s)], where [s] stands for the variables the
    loop updates. *)
Fixpoint for_each {A S} (xs : list A) (body : A -> S -> eff S) (s : S)
  : eff S :=
  match xs with
  | [] => ret s
  | x :: rest => bind (body x s) (for_each rest body)
  end.

(** [range(n)]. *)
Definition range (n : Z) : list Z := map Z.of_nat (seq 0 (Z.to_nat n)).

End Eff.
Export Eff.

Declare Scope eff_scope.
Delimit Scope eff_scope with eff.
Notation "x <- m ;; k" := (bind m (fun x => k))
  (at level 100, m at next level, right associativity) : eff_scope.

(* ===================================================================== *)
(** ** lawmate_app/rag/justice_api.py                                     *)
(* ===================================================================== *)

Module Justice.

Local Open Scope eff_scope.

Record JusticeDecision : Type := {
  jednaci_cislo : pystr;
  soud : pystr;
  predmet_rizeni : pystr;
  datum_vydani : pystr;
  datum_zverejneni : pystr;
  klicova_slova : list pystr;
  zminena_ustanoveni : list pystr;
  odkaz : pystr;
  (** A Python [float].  It is always the quotient of two integers between
      0 and 12 with one divisor per call, where float division is exact
      enough to keep the order and the bounds of the rational quotient;
      the model keeps the rational. *)
  score : Q
}.

Definition AttributeError (j : json) (attr : string) : exn :=
  Exn (utf8 "AttributeError")
      (utf8 "'" ++ type_name j ++ utf8 "' object has no attribute '"
         ++ utf8 attr ++ utf8 "'").

Definition TypeError_not_iterable (j : json) : exn :=
  Exn (utf8 "TypeError")
      (utf8 "'" ++ type_name j ++ utf8 "' object is not iterable").

Definition OverflowError : exn :=
  Exn (utf8 "OverflowError") (utf8 "date value out of range").

(** [x.get(key, default)]: only a dict has the method. *)
Definition get (x : json) (key : string) (default : json) : eff json :=
  match x with
  | JDict kv => ret (dict_get kv (utf8 key) default)
  | _ => raise (AttributeError x "get")
  end.

(** What [for x in v] visits. *)
Definition iterate (v : json) : eff (list json) :=
  match v with
  | JList l => ret l
  | JStr s => ret (map (fun c => JStr [c]) s)
  | JDict kv => ret (map (fun p => JStr (fst p)) kv)
  | _ => raise (TypeError_not_iterable v)
  end.

(** [v or []]. *)
Definition or_empty (v : json) : json := if truthy v then v else JList [].

(** [candidates.sort(key=lambda x: x.score, reverse=True)].  The sort is
    stable, so its result is determined by the keys and the input order;
    insertion from the right computes it. *)
Fixpoint insert_desc (x : JusticeDecision) (l : list JusticeDecision)
  : list JusticeDecision :=
  match l with
  | [] => [x]
  | y :: r =>
      if Qle_bool (score y) (score x) then x :: y :: r
      else y :: insert_desc x r
  end.

Fixpoint sort_desc (l : list JusticeDecision) : list JusticeDecision :=
  match l with
  | [] => []
  | x :: r => insert_desc x (sort_desc r)
  end.

Section WithRemote.
Context {R : PyRuntime}.

(** The remote index: what [requests.get(url).raise_for_status()] followed
    by [.json()] gives for the page 0 of a day, or the exception it
    raises (connection error, HTTP error status, undecodable body). *)
Variable remote : date -> exn + json.

(** [date.today()]. *)
Variable today : date.

(** [fetch_day(d.year, d.month, d.day, page=0)]: the URL names the day, so
    the request is identified by [d]. *)
Definition fetch_day (d : date) : eff json :=
  fun log =>
    match remote d with
    | inl e => (inl e, log ++ [d])
    | inr data => (inr data, log ++ [d])
    end.

(** [[str(x) for x in v]]. *)
Definition strs (v : json) : eff (list pystr) :=
  xs <- iterate v ;; ret (map py_str xs).

(** The body of [for it in items]. *)
Definition scan_item (keywords : list pystr) (it : json)
    (candidates : list JusticeDecision) : eff (list JusticeDecision) :=
  v <- get it "predmetRizeni" (JStr []) ;;
  let predmet := normalize_text (py_str v) in
  k <- get it "klicovaSlova" (JList []) ;;
  let klic := or_empty k in
  z <- get it "zminenaUstanoveni" (JList []) ;;
  let ust := or_empty z in
  klic_s <- strs klic ;;
  ust_s <- strs ust ;;
  let blob := str_lower (join (utf8 " ") ([predmet] ++ klic_s ++ ust_s)) in
  let overlap := Z.of_nat (length (filter (fun kw => str_in kw blob) keywords)) in
  if overlap =? 0 then ret candidates
  else
    let score := (inject_Z overlap / inject_Z (Z.max (Z.of_nat (length keywords)) 1))%Q in
    jc <- get it "jednaciCislo" (JStr []) ;;
    so <- get it "soud" (JStr []) ;;
    dv <- get it "datumVydani" (JStr []) ;;
    dz <- get it "datumZverejneni" (JStr []) ;;
    od <- get it "odkaz" (JStr []) ;;
    ret (candidates ++ [ {|
      jednaci_cislo := py_str jc;
      soud := py_str so;
      predmet_rizeni := predmet;
      datum_vydani := py_str dv;
      datum_zverejneni := py_str dz;
      klicova_slova := slice_to klic_s 10;
      zminena_ustanoveni := slice_to ust_s 10;
      odkaz := py_str od;
      score := score
    |} ]).

(** The body of [for i in range(lookback_days)]. *)
Definition scan_day (keywords : list pystr) (max_items_per_day : Z) (i : Z)
    (candidates : list JusticeDecision) : eff (list JusticeDecision) :=
  d <- (if today - i <? 1 then raise OverflowError else ret (today - i)) ;;
  r <- attempt (fetch_day d) ;;
  match r with
  | inl _ => ret candidates
  | inr data =>
      items <- get data "items" (JList []) ;;
      match items with
      | JList items =>
          let items := slice_to items max_items_per_day in
          for_each items (scan_item keywords) candidates
      | _ => ret candidates
      end
  end.

Definition search_recent_decisions (question : pystr)
    (lookback_days max_items_per_day : Z) : eff (list JusticeDecision) :=
  let keywords := extract_keywords question 12 in
  if match keywords with [] => true | _ => false end || (lookback_days <=? 0)
  then ret []
  else
    candidates <-
      for_each (range lookback_days) (scan_day keywords max_items_per_day) [] ;;
    ret (slice_to (sort_desc candidates) 5).

End WithRemote.

(** A source entry: the dict with keys [title], [url], [why_relevant]. *)
Record Source : Type := {
  title : pystr;
  url : pystr;
  why_relevant : pystr
}.

Definition decisions_to_sources (decisions : list JusticeDecision)
  : list Source :=
  map (fun d => {|
    title := soud d ++ utf8 " – " ++ jednaci_cislo d ++ utf8 " ("
               ++ datum_vydani d ++ utf8 ")";
    url := odkaz d;
    why_relevant :=
      utf8 "Předmět řízení: " ++ predmet_rizeni d ++ utf8 ". Klíčová slova: "
        ++ join (utf8 ", ") (slice_to (klicova_slova d) 5) ++ utf8 "."
  |}) decisions.

End Justice.
Export Justice.

(* ===================================================================== *)
(** ** lawmate_app/models.py                                              *)
(* ===================================================================== *)

Module Models.

Record SourceItem : Type := {
  src_title : pystr;
  src_url : pystr;
  src_why_relevant : pystr
}.

Record LawmateAnswer : Type := {
  traffic_light : TrafficLight;
  risk_score : Z;
  summary : pystr;
  what_to_do_now : list pystr;
  what_to_prepare : list pystr;
  relevant_laws : list pystr;
  important_deadlines : list pystr;
  when_to_contact_lawyer : list pystr;
  notes : list pystr;
  sources : list SourceItem
}.

(** The literal behind a [TrafficLight]. *)
Definition light_name (l : TrafficLight) : pystr :=
  match l with
  | green => utf8 "green"
  | yellow => utf8 "yellow"
  | red => utf8 "red"
  end.

(** [ans.traffic_light = l] and [ans.risk_score = s]; the other fields of
    the object stay as they are. *)
Definition set_assessment (ans : LawmateAnswer) (l : TrafficLight) (s : Z)
  : LawmateAnswer :=
  {| traffic_light := l;
     risk_score := s;
     summary := summary ans;
     what_to_do_now := what_to_do_now ans;
     what_to_prepare := what_to_prepare ans;
     relevant_laws := relevant_laws ans;
     important_deadlines := important_deadlines ans;
     when_to_contact_lawyer := when_to_contact_lawyer ans;
     notes := notes ans;
     sources := sources ans |}.

End Models.
Export Models.

(* ===================================================================== *)
(** ** lawmate_app/db.py                                                  *)
(* ===================================================================== *)

Module Db.

Record SessionRow : Type := {
  s_id : Z;
  s_title : pystr;
  s_category : pystr;
  s_created_at : pystr;
  s_updated_at : pystr
}.

Record MessageRow : Type := {
  m_id : Z;
  m_session_id : Z;
  m_role : pystr;
  m_content : pystr;
  m_traffic_light : option pystr;
  m_sources_json : option pystr;
  m_created_at : pystr
}.

(** The two tables, rows in insertion order, and the AUTOINCREMENT
    counters (the largest id ever handed out per table). *)
Record Database : Type := {
  sessions : list SessionRow;
  messages : list MessageRow;
  last_session_id : Z;
  last_message_id : Z
}.

Definition IntegrityError (what : string) : exn :=
  Exn (utf8 "IntegrityError") (utf8 what).

Definition create_session (db : Database) (title category now : pystr)
  : Z * Database :=
  let id := last_session_id db + 1 in
  (id, {| sessions := sessions db ++ [ {| s_id := id; s_title := title;
                                          s_category := category;
                                          s_created_at := now;
                                          s_updated_at := now |} ];
          messages := messages db;
          last_session_id := id;
          last_message_id := last_message_id db |}).

Definition delete_session (db : Database) (session_id : Z) : Database :=
  {| sessions := filter (fun s => negb (s_id s =? session_id)) (sessions db);
     messages := filter (fun m => negb (m_session_id m =? session_id)) (messages db);
     last_session_id := last_session_id db;
     last_message_id := last_message_id db |}.

(** [add_message]: the INSERT, then the UPDATE of the session's
    [updated_at], then the commit.  [session_id] is [None] when the caller
    passes [None]; the column is NOT NULL.  Foreign keys are not enforced
    (the schema never turns the pragma on).  [now1] and [now2] are the two
    readings of [utc_now_iso()]. *)
Definition add_message (db : Database) (session_id : option Z)
    (role content : pystr) (traffic_light sources_json : option pystr)
    (now1 now2 : pystr) : exn + (Z * Database) :=
  match session_id with
  | None => inl (IntegrityError "NOT NULL constraint failed: messages.session_id")
  | Some sid =>
      let id := last_message_id db + 1 in
      let row := {| m_id := id; m_session_id := sid; m_role := role;
                    m_content := content; m_traffic_light := traffic_light;
                    m_sources_json := sources_json; m_created_at := now1 |} in
      let touch (s : SessionRow) :=
        if s_id s =? sid
        then {| s_id := s_id s; s_title := s_title s; s_category := s_category s;
                s_created_at := s_created_at s; s_updated_at := now2 |}
        else s in
      inr (id, {| sessions := map touch (sessions db);
                  messages := messages db ++ [row];
                  last_session_id := last_session_id db;
                  last_message_id := id |})
  end.

(** [get_messages]: the session's rows, ascending by id. Rows are kept in
    insertion order and ids grow with every insert. *)
Definition get_messages (db : Database) (session_id : Z) : list MessageRow :=
  filter (fun m => m_session_id m =? session_id) (messages db).

End Db.
Export Db.

(* ===================================================================== *)
(** ** lawmate_app/config.py and lawmate_app/llm/providers.py             *)
(* ===================================================================== *)

Module Providers.

Record AppConfig : Type := {
  llm_provider : pystr;
  openai_api_key : pystr;
  openai_model : pystr;
  ollama_api_key : pystr;
  ollama_base_url : pystr;
  ollama_model : pystr;
  justice_lookback_days : Z;
  justice_max_items_per_day : Z
}.

Definition LLMError (msg : string) : exn := Exn (utf8 "LLMError") (utf8 msg).

Inductive Provider : Type :=
| MockProvider
| OpenAIProvider (api_key model : pystr)
| OllamaProvider (base_url api_key model : pystr).

Definition make_provider (cfg : AppConfig) : exn + Provider :=
  if str_eqb (llm_provider cfg) (utf8 "openai") then
    match openai_api_key cfg with
    | [] => inl (LLMError "OPENAI_API_KEY chybí v .env")
    | _ => inr (OpenAIProvider (openai_api_key cfg) (openai_model cfg))
    end
  else if str_eqb (llm_provider cfg) (utf8 "ollama") then
    inr (OllamaProvider (strip (ollama_base_url cfg))
                        (strip (ollama_api_key cfg)) (ollama_model cfg))
  else inr MockProvider.

(** The answer [MockProvider.generate] validates and returns. *)
Definition mock_answer : LawmateAnswer := {|
  traffic_light := yellow;
  risk_score := 45;
  summary := utf8 "Z toho, co píšeš, to vypadá na běžný právní problém, který jde často vyřešit domluvou nebo správným postupem. U detailů ale záleží na dokumentech a termínech.";
  what_to_do_now := map utf8 [
    "Sepiš si časovou osu (kdy se co stalo).";
    "Schovej důkazy (smlouvy, screenshoty, fotky).";
    "Komunikuj pokud možno písemně."
  ]%string;
  what_to_prepare := map utf8 [
    "Kopie smluv / objednávek / faktur.";
    "Doklad o platbě (výpis, potvrzení).";
    "Kontakty na svědky, pokud existují."
  ]%string;
  relevant_laws := map utf8 [
    "Občanský zákoník (zákon č. 89/2012 Sb.) – obecně závazky a smlouvy"
  ]%string;
  important_deadlines := map utf8 [
    "Nejsem si jistý bez detailů (záleží na typu věci)."
  ]%string;
  when_to_contact_lawyer := map utf8 [
    "Když hrozí soud / exekuce nebo vysoká částka.";
    "Když protistrana ignoruje výzvy nebo vyhrožuje."
  ]%string;
  notes := map utf8 [
    "Neber to jako právní stanovisko – je to orientační pomoc.";
    "U lhůt to raději neodkládej."
  ]%string;
  sources := []
|}.

Section WithBackend.

(** The hosted and the self-hosted backend: the HTTP exchange, the JSON
    decoding and the schema validation of [generate], which either yield a
    validated answer or raise. *)
Variable backend : Provider -> pystr -> pystr -> exn + LawmateAnswer.

Definition generate (p : Provider) (system_prompt user_prompt : pystr)
  : exn + LawmateAnswer :=
  match p with
  | MockProvider => inr mock_answer
  | _ => backend p system_prompt user_prompt
  end.

End WithBackend.

End Providers.
Export Providers.

(* ===================================================================== *)
(** ** lawmate_app/ui/main_window.py                                      *)
(* ===================================================================== *)

Module Ui.

Local Open Scope eff_scope.

(** [order = {"green": 0, "yellow": 1, "red": 2}]. *)
Definition order (l : TrafficLight) : Z :=
  match l with
  | green => 0
  | yellow => 1
  | red => 2
  end.

Definition format_answer (ans : LawmateAnswer) : pystr :=
  let bullet (items : list pystr) : pystr :=
    match items with
    | [] => utf8 "—<br>"
    | _ => concat (map (fun i => utf8 "• " ++ i ++ utf8 "<br>") items)
    end in
  let html := [] in
  let html := html ++ utf8 "<b>Shrnutí:</b><br>" ++ summary ans ++ utf8 "<br><br>" in
  let html := html ++ utf8 "<b>Co udělat teď:</b><br>" ++ bullet (what_to_do_now ans) ++ utf8 "<br>" in
  let html := html ++ utf8 "<b>Co si připravit:</b><br>" ++ bullet (what_to_prepare ans) ++ utf8 "<br>" in
  let html := html ++ utf8 "<b>Důležité zákony / paragrafy:</b><br>" ++ bullet (relevant_laws ans) ++ utf8 "<br>" in
  let html := html ++ utf8 "<b>Lhůty:</b><br>" ++ bullet (important_deadlines ans) ++ utf8 "<br>" in
  let html := html ++ utf8 "<b>Kdy kontaktovat právníka:</b><br>" ++ bullet (when_to_contact_lawyer ans) ++ utf8 "<br>" in
  let html := html ++ utf8 "<b>Poznámky:</b><br>" ++ bullet (notes ans) ++ utf8 "<br>" in
  let html :=
    match sources ans with
    | [] => html
    | srcs =>
        html ++ utf8 "<b>Zdroje (orientačně):</b><br>"
          ++ concat (map (fun s =>
               utf8 "• <a href='" ++ src_url s ++ utf8 "'>" ++ src_title s
                 ++ utf8 "</a> – " ++ src_why_relevant s ++ utf8 "<br>") srcs)
          ++ utf8 "<br>"
    end in
  html ++ utf8 "<i>Upozornění: Lawmate není advokát. Odpověď je orientační a nemusí být úplná.</i>".

Section WithWorld.
Context {R : PyRuntime}.

Variable remote : date -> exn + json.
Variable today : date.
Variable backend : Provider -> pystr -> pystr -> exn + LawmateAnswer.

(** The prompt templates of lawmate_app/llm/prompts.py. *)
Variable SYSTEM_BASE : pystr.
Variable make_user_prompt : pystr -> pystr -> pystr -> pystr.

(** [json.dumps(sources, ensure_ascii=False, indent=2)] and
    [json.dumps([s.model_dump() for s in ans.sources], ensure_ascii=False)]. *)
Variable dumps_indent : list Source -> pystr.
Variable dumps : list SourceItem -> pystr.

(** Lines 78-84 of [Worker.run]: the model's answer against the
    heuristic. *)
Definition reconcile (question category : pystr) (ans : LawmateAnswer)
  : LawmateAnswer :=
  let heur := heuristic_risk_score question category in
  let heur_light := traffic_light_from_score heur in
  if order heur_light >? order (traffic_light ans)
  then set_assessment ans heur_light (Z.max (risk_score ans) heur)
  else ans.

(** An outcome that is not an effect of the retrieval. *)
Definition lift {A} (r : exn + A) : eff A :=
  match r with
  | inl e => raise e
  | inr a => ret a
  end.

(** The [try] block of [Worker.run], up to the arguments of the emit. *)
Definition run_body (cfg : AppConfig) (category question : pystr)
  : eff (LawmateAnswer * pystr * pystr) :=
  decisions <- search_recent_decisions remote today question
                 (justice_lookback_days cfg) (justice_max_items_per_day cfg) ;;
  let sources := decisions_to_sources decisions in
  let sources_block :=
    match sources with
    | [] => utf8 "[]"
    | _ => dumps_indent sources
    end in
  provider <- lift (make_provider cfg) ;;
  let user_prompt := make_user_prompt category question sources_block in
  ans <- lift (generate backend provider SYSTEM_BASE user_prompt) ;;
  let ans := reconcile question category ans in
  let sources_json := dumps (Models.sources ans) in
  ret (ans, light_name (traffic_light ans), sources_json).

(** What the [done] signal carries: [(LawmateAnswer|Exception, light,
    sources_json)]. *)
Definition signal : Type := (exn + LawmateAnswer) * pystr * pystr.

(** [Worker.run]: the emitted signal, and the days it requested. *)
Definition run (cfg : AppConfig) (category question : pystr)
  : signal * list date :=
  match run_body cfg category question [] with
  | (inr (ans, light, sources_json), log) => ((inr ans, light, sources_json), log)
  | (inl e, log) => ((inl e, utf8 "red", utf8 "[]"), log)
  end.

(** The part of [MainWindow] the handlers below read and write. *)
Record MainWindow : Type := {
  current_session_id : option Z;
  db : Database
}.

(** [MainWindow.on_done]; re-rendering the chat and re-enabling the send
    button leave this state alone. *)
Definition on_done (w : MainWindow) (s : signal) (now1 now2 : pystr)
  : exn + MainWindow :=
  let '(result, light, sources_json) := s in
  let saved :=
    match result with
    | inl e =>
        let msg := utf8 "Nastala chyba: <b>" ++ exc_type e ++ utf8 "</b><br>"
                     ++ exc_msg e
                     ++ utf8 "<br><br>Tip: zkontroluj `.env` a provider." in
        add_message (db w) (current_session_id w) (utf8 "assistant") msg
          (Some (utf8 "red")) (Some (utf8 "[]")) now1 now2
    | inr ans =>
        let html := format_answer ans in
        add_message (db w) (current_session_id w) (utf8 "assistant") html
          (Some light) (Some sources_json) now1 now2
    end in
  match saved with
  | inl e => inl e
  | inr (_, db') =>
      inr {| current_session_id := current_session_id w; db := db' |}
  end.

End WithWorld.

End Ui.
Export Ui.

(* ===================================================================== *)
(** ** Vocabulary of the specification                                    *)
(* ===================================================================== *)

Module Spec.

(** How many entries of a term list occur in a text. *)
Definition hits (terms : list pystr) (t : pystr) : nat :=
  length (filter (fun term => str_in term t) terms).

(** No string occurs twice in the list. *)
Fixpoint distinctb (l : list pystr) : bool :=
  match l with
  | [] => true
  | x :: r => negb (mem x r) && distinctb r
  end.

(** "Strictly more severe", under green < yellow < red. *)
Inductive more_severe : TrafficLight -> TrafficLight -> Prop :=
| yellow_over_green : more_severe yellow green
| red_over_green : more_severe red green
| red_over_yellow : more_severe red yellow.

Section WithRuntime.
Context {R : PyRuntime}.

(** The text a scorer searches, and its three yes/no signals. *)
Definition has_money (text : pystr) : bool := money_search None (str_lower text).

Definition is_urgent (text : pystr) : bool :=
  let t := str_lower text in
  str_in (utf8 "do zítra") t || str_in (utf8 "dnes") t || str_in (utf8 "lhůt") t.

Definition is_criminal (category : pystr) : bool :=
  startswith (str_lower category) (utf8 "trest").

(** The score of one domain of [infer_category]: +2 per matched term. *)
Definition domain_score (terms : list pystr) (text : pystr) : Z :=
  2 * Z.of_nat (hits terms (str_lower (normalize_text text))).

(** *** Retrieval: what a day's payload offers, read without the loop. *)

(** A field of an item, with the default [get] would fall back to. *)
Definition field (it : json) (key : string) (default : json) : json :=
  match it with
  | JDict kv => dict_get kv (utf8 key) default
  | _ => default
  end.

Definition iterable (v : json) : bool :=
  match v with
  | JList _ | JStr _ | JDict _ => true
  | _ => false
  end.

(** The strings of a list-valued field. *)
Definition texts (v : json) : list pystr :=
  match or_empty v with
  | JList l => map py_str l
  | JStr s => map (fun c => [c]) s
  | JDict kv => map fst kv
  | _ => []
  end.

(** The lowercase blob of an item: normalized subject matter, keyword
    list and cited-provisions list, joined by single spaces. *)
Definition blob (it : json) : pystr :=
  str_lower (join (utf8 " ")
    ([normalize_text (py_str (field it "predmetRizeni" (JStr [])))]
       ++ texts (field it "klicovaSlova" (JList []))
       ++ texts (field it "zminenaUstanoveni" (JList [])))).

(** How many of the question's keywords occur in the blob. *)
Definition overlap (keywords : list pystr) (it : json) : nat :=
  length (filter (fun kw => str_in kw (blob it)) keywords).

(** overlap / max(len(question_keywords), 1). *)
Definition relevance (keywords : list pystr) (it : json) : Q :=
  (inject_Z (Z.of_nat (overlap keywords it))
     / inject_Z (Z.max (Z.of_nat (length keywords)) 1))%Q.

Definition decision_of (keywords : list pystr) (it : json) : JusticeDecision := {|
  jednaci_cislo := py_str (field it "jednaciCislo" (JStr []));
  soud := py_str (field it "soud" (JStr []));
  predmet_rizeni := normalize_text (py_str (field it "predmetRizeni" (JStr [])));
  datum_vydani := py_str (field it "datumVydani" (JStr []));
  datum_zverejneni := py_str (field it "datumZverejneni" (JStr []));
  klicova_slova := firstn 10 (texts (field it "klicovaSlova" (JList [])));
  zminena_ustanoveni := firstn 10 (texts (field it "zminenaUstanoveni" (JList [])));
  odkaz := py_str (field it "odkaz" (JStr []));
  score := relevance keywords it
|}.

(** An item the loop body can read: an object whose two list fields, when
    present and truthy, can be iterated. *)
Definition well_formed_item (it : json) : Prop :=
  (exists kv, it = JDict kv) /\
  iterable (or_empty (field it "klicovaSlova" (JList []))) = true /\
  iterable (or_empty (field it "zminenaUstanoveni" (JList []))) = true.

(** The items of a day that reach the scoring loop: none when the fetch
    raised or the item collection is not a list, else the collection cut
    to [max_items_per_day]. *)
Definition day_items (max_items_per_day : Z) (r : exn + json) : list json :=
  match r with
  | inr (JDict kv) =>
      match dict_get kv (utf8 "items") (JList []) with
      | JList items => slice_to items max_items_per_day
      | _ => []
      end
  | _ => []
  end.

(** A day the scan gets through: the fetch raised, or it returned an
    object whose items, if a list, are well formed up to the cut. *)
Definition well_formed_day (max_items_per_day : Z) (r : exn + json) : Prop :=
  match r with
  | inl _ => True
  | inr (JDict _) => Forall well_formed_item (day_items max_items_per_day r)
  | inr _ => False
  end.

(** The candidates a day contributes. *)
Definition day_candidates (keywords : list pystr) (max_items_per_day : Z)
    (r : exn + json) : list JusticeDecision :=
  map (decision_of keywords)
      (filter (fun it => negb (overlap keywords it =? 0)%nat)
              (day_items max_items_per_day r)).

End WithRuntime.

(** Descending by score. *)
Definition sorted_desc (l : list JusticeDecision) : Prop :=
  StronglySorted (fun a b => (score b <= score a)%Q) l.

(** The decisions of score [v], in list order. *)
Definition with_score (v : Q) (l : list JusticeDecision) : list JusticeDecision :=
  filter (fun d => Qeq_bool (score d) v) l.

(** [ranked] is the stable descending sort of [l]: same elements, scores
    descending, equal scores in their order of [l]. *)
Definition stable_sort_of (ranked l : list JusticeDecision) : Prop :=
  Permutation ranked l /\ sorted_desc ranked /\
  forall v, with_score v ranked = with_score v l.

End Spec.
Export Spec.

(* ===================================================================== *)
(** ** Sample inputs                                                      *)
(* ===================================================================== *)

Module Samples.

(** 3 November 2026. *)
Definition a_day : date := 739923.

Definition question : pystr := utf8 "Mám dluh u souseda".

Definition item : json := JDict [
  (utf8 "jednaciCislo", JStr (utf8 "12 C 34/2026"));
  (utf8 "soud", JStr (utf8 "Okresní soud v Kolíně"));
  (utf8 "predmetRizeni", JStr (utf8 "o  zaplacení dluhu"));
  (utf8 "klicovaSlova", JList [JStr (utf8 "Dluh"); JStr (utf8 "smlouva o zápůjčce")]);
  (utf8 "zminenaUstanoveni", JList [JStr (utf8 "§ 2390 z. č. 89/2012 Sb.")]);
  (utf8 "datumVydani", JStr (utf8 "2026-10-20"));
  (utf8 "datumZverejneni", JStr (utf8 "2026-11-02"));
  (utf8 "odkaz", JStr (utf8 "https://rozhodnuti.justice.cz/rozhodnuti/1"))
].

(** An item that shares no keyword with [question]. *)
Definition other_item : json := JDict [
  (utf8 "jednaciCislo", JStr (utf8 "5 T 6/2026"));
  (utf8 "soud", JStr (utf8 "Okresní soud v Kolíně"));
  (utf8 "predmetRizeni", JStr (utf8 "krádež"));
  (utf8 "klicovaSlova", JNone);
  (utf8 "odkaz", JStr (utf8 "https://rozhodnuti.justice.cz/rozhodnuti/2"))
].

Definition good_page : json := JDict [
  (utf8 "items", JList [other_item; item]);
  (utf8 "totalPages", JInt 1)
].

Definition ConnectionError : exn :=
  Exn (utf8 "ConnectionError") (utf8 "Max retries exceeded").

(** Every day answers with [good_page]. *)
Definition all_good (d : date) : exn + json := inr good_page.

(** The request for [a_day] fails; the other days answer with [good_page]. *)
Definition one_day_down (d : date) : exn + json :=
  if d =? a_day then inl ConnectionError else inr good_page.

(** [a_day] answers 200 with the JSON text [[]], an array where an object
    is expected; the other days answer with [good_page]. *)
Definition one_day_array (d : date) : exn + json :=
  if d =? a_day then inr (JList []) else inr good_page.

(** [a_day] answers with an object whose item list holds a [null]. *)
Definition one_day_null_item (d : date) : exn + json :=
  if d =? a_day then inr (JDict [(utf8 "items", JList [JNone])])
  else inr good_page.

(** The decision [item] turns into for [question]. *)
Definition item_decision : JusticeDecision := {|
  jednaci_cislo := utf8 "12 C 34/2026";
  soud := utf8 "Okresní soud v Kolíně";
  predmet_rizeni := utf8 "o zaplacení dluhu";
  datum_vydani := utf8 "2026-10-20";
  datum_zverejneni := utf8 "2026-11-02";
  klicova_slova := [utf8 "Dluh"; utf8 "smlouva o zápůjčce"];
  zminena_ustanoveni := [utf8 "§ 2390 z. č. 89/2012 Sb."];
  odkaz := utf8 "https://rozhodnuti.justice.cz/rozhodnuti/1";
  score := (inject_Z 1 / inject_Z 3)%Q
|}.

Definition config (provider : string) (lookback_days : Z) : AppConfig := {|
  llm_provider := utf8 provider;
  openai_api_key := [];
  openai_model := utf8 "gpt-4o-mini";
  ollama_api_key := [];
  ollama_base_url := utf8 "http://localhost:11434";
  ollama_model := utf8 "llama3.1:8b";
  justice_lookback_days := lookback_days;
  justice_max_items_per_day := 200
|}.

(** A backend that is never reached by the samples. *)
Definition no_backend (p : Provider) (system_prompt user_prompt : pystr)
  : exn + LawmateAnswer :=
  inl (LLMError "backend unreachable").

Definition prompt (category question sources_block : pystr) : pystr :=
  category ++ question ++ sources_block.

Definition window : MainWindow := {|
  current_session_id := Some 1;
  db := {| sessions := [ {| s_id := 1; s_title := utf8 "Chat";
                           s_category := utf8 "Občanské právo";
                           s_created_at := utf8 "2026-11-03T10:00:00";
                           s_updated_at := utf8 "2026-11-03T10:00:00" |} ];
           messages := [];
           last_session_id := 1;
           last_message_id := 0 |}
|}.

End Samples.

(* ===================================================================== *)
(** ** lawmate_app/llm/providers.py: URL and reply text                   *)
(* ===================================================================== *)

Module ProviderText.

(** [s.lstrip(ch)] and [s.rstrip(ch)] for a one-character argument. *)
Fixpoint lstrip_char (ch : codepoint) (s : pystr) : pystr :=
  match s with
  | [] => []
  | c :: r => if (c =? ch)%N then lstrip_char ch r else s
  end.

Definition rstrip_char (ch : codepoint) (s : pystr) : pystr :=
  rev (lstrip_char ch (rev s)).

(** [s.endswith(suffix)]. *)
Definition endswith (s suffix : pystr) : bool := startswith (rev s) (rev suffix).

(** The code point of "/". *)
Definition slash : codepoint := 47%N.

Definition _ollama_api_url (base_url endpoint : pystr) : pystr :=
  let base := rstrip_char slash base_url in
  if endswith base (utf8 "/api") then base ++ endpoint
  else base ++ utf8 "/api" ++ endpoint.

(** [s.find(ch)] for a one-character argument: the first index, or -1. *)
Fixpoint find_from (ch : codepoint) (s : pystr) (i : Z) : Z :=
  match s with
  | [] => -1
  | c :: r => if (c =? ch)%N then i else find_from ch r (i + 1)
  end.

Definition find (s : pystr) (ch : codepoint) : Z := find_from ch s 0.

(** [s.rfind(ch)]: the last index, or -1. [last] is the best so far. *)
Fixpoint rfind_from (ch : codepoint) (s : pystr) (i last : Z) : Z :=
  match s with
  | [] => last
  | c :: r => rfind_from ch r (i + 1) (if (c =? ch)%N then i else last)
  end.

Definition rfind (s : pystr) (ch : codepoint) : Z := rfind_from ch s 0 (-1).

(** [s[a:b]]: a negative bound counts from the end, and both bounds are
    cut to the length. *)
Definition slice {A} (s : list A) (a b : Z) : list A :=
  let n := Z.of_nat (length s) in
  let clamp (i : Z) := if i <? 0 then Z.max (i + n) 0 else Z.min i n in
  firstn (Z.to_nat (clamp b - clamp a)) (skipn (Z.to_nat (clamp a)) s).

Definition open_brace : codepoint := 123%N.
Definition close_brace : codepoint := 125%N.

(** Lines 114-118 of [OllamaProvider.generate]: the text handed to
    [json.loads], cut out of the model's reply [content]. *)
Definition ollama_json_text (content : pystr) : exn + pystr :=
  let start := find content open_brace in
  let end_ := rfind content close_brace in
  if (start =? -1) || (end_ =? -1) || (end_ <=? start)
  then inl (LLMError "Ollama nevrátil JSON. Zkus jiný model.")
  else inr (slice content start (end_ + 1)).

End ProviderText.
Export ProviderText.

(* ===================================================================== *)
(** ** lawmate_app/ui/main_window.py: the handlers around a submission    *)
(* ===================================================================== *)

Module Window.

Definition AUTO_CATEGORY : pystr := utf8 "Auto (rozpoznat oblast)".

Definition CATEGORIES : list pystr :=
  [AUTO_CATEGORY; TRESTNI_PRAVO; OBCANSKE_PRAVO; PRAVNI_RAD].

(** [load_session]: the session becomes the current one; the chat view
    is redrawn from its messages. *)
Definition load_session (w : MainWindow) (session_id : Z) : MainWindow :=
  {| current_session_id := Some session_id; db := db w |}.

(** [new_chat]: [selected] is the text of the category box and [title]
    the formatted time of day. *)
Definition new_chat (w : MainWindow) (selected title now : pystr) : MainWindow :=
  let (sid, db') := create_session (db w) title selected now in
  load_session {| current_session_id := current_session_id w; db := db' |} sid.

(** What [on_send] leaves behind: the window, the text of the category
    box, and the arguments [(category, question)] of the [Worker] it
    started, if it started one. *)
Record Sent : Type := {
  sent_window : MainWindow;
  sent_selected : pystr;
  sent_worker : option (pystr * pystr)
}.

Section WithRuntime.
Context {R : PyRuntime}.

(** [on_send]: [input] is the text of the input field and [selected] the
    text of the category box. *)
Definition on_send (w : MainWindow) (input selected now1 now2 : pystr)
  : exn + Sent :=
  let idle := inr {| sent_window := w; sent_selected := selected;
                     sent_worker := None |} in
  match current_session_id w with
  | None => idle
  | Some sid =>
      if sid =? 0 then idle
      else
        let question := normalize_text input in
        match question with
        | [] => idle
        | _ =>
            let category :=
              if str_eqb selected AUTO_CATEGORY then infer_category question
              else selected in
            let selected :=
              if str_eqb selected AUTO_CATEGORY && mem category CATEGORIES
              then category else selected in
            match add_message (db w) (current_session_id w) (utf8 "user")
                    question None None now1 now2 with
            | inl e => inl e
            | inr (_, db') =>
                inr {| sent_window := {| current_session_id := current_session_id w;
                                         db := db' |};
                       sent_selected := selected;
                       sent_worker := Some (category, question) |}
            end
        end
  end.

End WithRuntime.

End Window.
Export Window.

(* ===================================================================== *)
(** ** Vocabulary for the store                                           *)
(* ===================================================================== *)

Module DbSpec.

(** The store right after [_init_schema] on a new file. *)
Definition empty_db : Database :=
  {| sessions := []; messages := []; last_session_id := 0; last_message_id := 0 |}.

(** Ids grow with every insert and never pass the table's counter. *)
Definition ids_ok (ids : list Z) (last : Z) : Prop :=
  StronglySorted Z.lt ids /\ Forall (fun i => 0 < i <= last) ids /\ 0 <= last.

Definition db_ok (d : Database) : Prop :=
  ids_ok (map s_id (sessions d)) (last_session_id d) /\
  ids_ok (map m_id (messages d)) (last_message_id d).

End DbSpec.
Export DbSpec.

(* ===================================================================== *)
(** ** Vocabulary for text                                                *)
(* ===================================================================== *)

Module TextSpec.

(** The text does not end in whitespace. *)
Fixpoint closed (s : pystr) : bool :=
  match s with
  | [] => true
  | [c] => negb (is_space c)
  | _ :: r => closed r
  end.

End TextSpec.
Export TextSpec.

(* ===================================================================== *)
(** ** lawmate_app/llm/ollama_setup.py                                    *)
(* ===================================================================== *)

Module OllamaSetup.

Record OllamaSetupResult : Type := { ok : bool; message : pystr }.

(** What the code reads of a [requests.Response]: [status_code], [text]
    and the outcome of [json()]. *)
Record Response : Type := {
  status_code : Z;
  text : pystr;
  resp_json : exn + json
}.

(** What a run does to the outside, in order: a call of [progress_cb], a
    [requests.get] with its Authorization header and timeout, and
    [subprocess.check_call([cli, "pull", model])]. *)
Inductive event : Type :=
| Progress (line : pystr)
| Get (url : pystr) (authorization : option pystr) (timeout : Z)
| Pull (cli model : pystr).

(** The machine and the network: what [_find_ollama_cli()] returns, what
    the n-th [requests.get] of the run answers or raises, and what
    [check_call] raises, if anything. *)
Record World : Type := {
  find_ollama_cli : option pystr;
  requests_get : nat -> pystr -> option pystr -> exn + Response;
  check_call_pull : pystr -> pystr -> option exn
}.

(** Code that may raise; the state is the trace of events so far. *)
Definition io (A : Type) : Type := list event -> (exn + A) * list event.

Definition io_ret {A} (a : A) : io A := fun tr => (inr a, tr).

Definition io_raise {A} (e : exn) : io A := fun tr => (inl e, tr).

Definition io_bind {A B} (m : io A) (k : A -> io B) : io B :=
  fun tr =>
    match m tr with
    | (inl e, tr') => (inl e, tr')
    | (inr a, tr') => k a tr'
    end.

(** [try: m / except Exception as e: ...]: the outcome of [m] as a value. *)
Definition io_attempt {A} (m : io A) : io (exn + A) :=
  fun tr => let (r, tr') := m tr in (inr r, tr').

(** An outcome that is no event. *)
Definition io_lift {A} (r : exn + A) : io A :=
  match r with
  | inl e => io_raise e
  | inr a => io_ret a
  end.

Definition is_get (e : event) : bool :=
  match e with
  | Get _ _ _ => true
  | _ => false
  end.

Definition is_pull (e : event) : bool :=
  match e with
  | Pull _ _ => true
  | _ => false
  end.

Definition NameError (name : string) : exn :=
  Exn (utf8 "NameError") (utf8 "name '" ++ utf8 name ++ utf8 "' is not defined").

Definition RuntimeError (msg : pystr) : exn := Exn (utf8 "RuntimeError") msg.

(** [[m.get("name", '') for m in items]]. *)
Fixpoint model_names (items : list json) : eff (list json) :=
  match items with
  | [] => ret []
  | m :: rest =>
      bind (get m "name" (JStr []))
           (fun name => bind (model_names rest) (fun names => ret (name :: names)))
  end.

(** [[m.get("name", '') for m in data.get("models", [])]], which touches
    no log. *)
Definition listed_models (data : json) : exn + list json :=
  fst (bind (get data "models" (JList []))
            (fun ms => bind (iterate ms) model_names) []).

(** [model in models] for a [str] against decoded JSON values: only an
    equal [str] compares equal. *)
Definition str_in_list (model : pystr) (models : list json) : bool :=
  existsb (fun j => match j with
                    | JStr s => str_eqb model s
                    | _ => false
                    end) models.

Section WithWorld.
Context {R : PyRuntime}.
Variable world : World.

Definition get_url (url : pystr) (authorization : option pystr) (timeout : Z)
  : io Response :=
  fun tr =>
    (requests_get world (length (filter is_get tr)) url authorization,
     tr ++ [Get url authorization timeout]).

Definition check_call (cli model : pystr) : io unit :=
  fun tr =>
    (match check_call_pull world cli model with
     | Some e => inl e
     | None => inr tt
     end,
     tr ++ [Pull cli model]).

(** [ensure_ollama_ready(cfg, progress_cb)]; [progress_cb] tells whether a
    callback was passed. *)
Definition ensure_ollama_ready (cfg : AppConfig) (progress_cb : bool)
  : io OllamaSetupResult :=
  let base_url := strip (ollama_base_url cfg) in
  let model := strip (ollama_model cfg) in
  let api_key := strip (ollama_api_key cfg) in
  let log (line : pystr) : io unit :=
    fun tr => (inr tt, if progress_cb then tr ++ [Progress line] else tr) in
  let is_cloud := str_in (utf8 "ollama.com") (str_lower base_url) in
  if is_cloud then
    match api_key with
    | [] =>
        io_ret {| ok := false;
                  message := utf8 "Používáš Ollama Cloud (ollama.com), ale chybí OLLAMA_API_KEY v .env.
Vytvoř API key na ollama.com a vlož ho do .env jako OLLAMA_API_KEY=...
Pak restartuj aplikaci." |}
    | _ =>
        io_bind
          (io_attempt
             (io_bind (log (utf8 "Kontroluji připojení k Ollama Cloud…")) (fun _ =>
              let url := _ollama_api_url base_url (utf8 "/tags") in
              let authorization := utf8 "Bearer " ++ api_key in
              io_bind (get_url url (Some authorization) 30) (fun resp =>
              if negb (status_code resp =? 200) then
                io_ret {| ok := false;
                          message := utf8 "Ollama Cloud vrací "
                                       ++ py_str (JInt (status_code resp))
                                       ++ utf8 ": " ++ slice_to (text resp) 300 |}
              else
                io_bind (log (utf8 "✅ Ollama Cloud je dostupná.")) (fun _ =>
                io_ret {| ok := true;
                          message := utf8 "Ollama Cloud připravena (model: "
                                       ++ model ++ utf8 ")." |})))))
          (fun r =>
             match r with
             | inr res => io_ret res
             | inl e =>
                 io_ret {| ok := false;
                           message := utf8 "Nelze se připojit k Ollama Cloud: "
                                        ++ exc_type e ++ utf8 ": " ++ exc_msg e |}
             end)
    end
  else
    (* --- Local Ollama (localhost) --- *)
    match find_ollama_cli world with
    | None | Some [] =>
        io_ret {| ok := false;
                  message := utf8 "Ollama není nainstalovaná nebo ji nemohu najít.
Nainstaluj Ollama pro Windows a zkus to znovu." |}
    | Some cli =>
        (* 1) Check server *)
        io_bind
          (io_attempt
             (io_bind (log (utf8 "Kontroluji Ollama server…")) (fun _ =>
              io_bind (get_url (_ollama_api_url base_url (utf8 "/tags")) None 5)
                (fun resp =>
              if status_code resp =? 200 then log (utf8 "✅ Server běží.")
              else io_raise (RuntimeError (utf8 "Server vrací "
                                             ++ py_str (JInt (status_code resp))))))))
          (fun r =>
        io_bind
          match r with
          | inr _ => io_ret tt
          | inl _ =>
              io_bind (log (utf8 "Server neběží, zkouším spustit…")) (fun _ =>
              (* The module defines [_try_start_ollama_server] and no
                 [_start_ollama_server]: evaluating the name raises, and
                 the rest of the handler never runs. *)
              io_raise (NameError "_start_ollama_server"))
          end
          (fun _ =>
        (* 2) Check model presence *)
        io_bind
          (io_attempt
             (io_bind (get_url (_ollama_api_url base_url (utf8 "/tags")) None 10)
                (fun resp =>
              io_bind (io_lift (resp_json resp)) (fun data =>
              io_bind (io_lift (listed_models data)) (fun models =>
              if negb (str_in_list model models) then
                io_bind (log (utf8 "Model '" ++ model ++ utf8 "' není stažený, stahuji…"))
                  (fun _ =>
                io_bind (check_call cli model) (fun _ =>
                log (utf8 "✅ Model stažen.")))
              else log (utf8 "✅ Model už je k dispozici."))))))
          (fun r =>
             match r with
             | inl e =>
                 io_ret {| ok := false;
                           message := utf8 "Nepodařilo se ověřit/stáhnout model automaticky.
Chyba: " ++ exc_type e ++ utf8 ": " ++ exc_msg e |}
             | inr _ =>
                 io_ret {| ok := true;
                           message := utf8 "Ollama připravena (model: "
                                        ++ model ++ utf8 ")." |}
             end)))
    end.

(** The two closing signals of [OllamaSetupWorker]. *)
Inductive finished : Type :=
| finished_ok (message : pystr)
| finished_error (message : pystr).

(** [OllamaSetupWorker.run]: the closing signal it emits, if it gets that
    far, and the trace; every [Progress] of the trace is an emit of the
    [progress] signal. *)
Definition setup_run (cfg : AppConfig) : option finished * list event :=
  match ensure_ollama_ready cfg true [] with
  | (inr res, tr) =>
      (Some (if ok res then finished_ok (message res)
             else finished_error (message res)), tr)
  | (inl _, tr) => (None, tr)
  end.

End WithWorld.

(** The local server does not answer the first probe with status 200,
    in local mode with the CLI found. *)
Definition probe_fails (world : World) `{PyRuntime} (cfg : AppConfig) : Prop :=
  let base_url := strip (ollama_base_url cfg) in
  str_in (utf8 "ollama.com") (str_lower base_url) = false /\
  (exists cli, find_ollama_cli world = Some cli /\ cli <> []) /\
  (forall probe,
      requests_get world 0 (_ollama_api_url base_url (utf8 "/tags")) None
      = inr probe ->
      status_code probe <> 200).

End OllamaSetup.

(* ===================================================================== *)
(** ** lawmate_app/ui/main_window.py: deleting the open chat              *)
(* ===================================================================== *)

Module Deletion.

Section WithListing.

(** [Database.list_sessions]: every session row, ordered by [updated_at]
    descending; the order among rows with equal time stamps is SQLite's. *)
Variable list_sessions : Database -> list SessionRow.

(** [delete_current_chat]; [confirmed] tells whether the message box was
    answered with Yes. *)
Definition delete_current_chat (w : MainWindow) (confirmed : bool) : MainWindow :=
  match current_session_id w with
  | None => w
  | Some deleted_id =>
      if deleted_id =? 0 then w
      else if negb confirmed then w
      else
        let db' := delete_session (db w) deleted_id in
        let w' := {| current_session_id := None; db := db' |} in
        match list_sessions db' with
        | [] => w'
        | item :: _ =>
            let sid := s_id item in
            if sid =? 0 then w' else load_session w' sid
        end
  end.

End WithListing.

End Deletion.
Export Deletion.

(* ===================================================================== *)
(** ** Sample machines                                                    *)
(* ===================================================================== *)

Module Worlds.

Import OllamaSetup.

(** What /api/tags answers on a machine that has pulled one model. *)
Definition tags : json := JDict [
  (utf8 "models", JList [
     JDict [ (utf8 "name", JStr (utf8 "llama3.1:8b"));
             (utf8 "size", JInt 4920753328) ] ])
].

Definition answer (status : Z) (body : json) : Response :=
  {| status_code := status; text := []; resp_json := inr body |}.

(** The CLI is installed, the server runs and has the model. *)
Definition ready : World := {|
  find_ollama_cli := Some (utf8 "/usr/local/bin/ollama");
  requests_get := fun _ _ _ => inr (answer 200 tags);
  check_call_pull := fun _ _ => None
|}.

(** The CLI is installed and nothing listens on the port. *)
Definition no_server : World := {|
  find_ollama_cli := Some (utf8 "/usr/local/bin/ollama");
  requests_get := fun _ _ _ => inl Samples.ConnectionError;
  check_call_pull := fun _ _ => None
|}.

(** The hosted service: 200 for a request with a bearer token, 401
    without; no CLI on the machine. *)
Definition hosted : World := {|
  find_ollama_cli := None;
  requests_get := fun _ _ authorization =>
    match authorization with
    | Some _ => inr (answer 200 tags)
    | None => inr (answer 401 JNone)
    end;
  check_call_pull := fun _ _ => None
|}.

Definition cloud_config : AppConfig := {|
  llm_provider := utf8 "ollama";
  openai_api_key := [];
  openai_model := utf8 "gpt-4o-mini";
  ollama_api_key := utf8 "secret";
  ollama_base_url := utf8 "https://ollama.com";
  ollama_model := utf8 "gpt-oss:120b";
  justice_lookback_days := 14;
  justice_max_items_per_day := 200
|}.

(** A listing that shows the newest session first. *)
Definition newest_first (d : Database) : list SessionRow := rev (sessions d).

End Worlds.

(* ===================================================================== *)
(** ** Vocabulary for the risk terms                                      *)
(* ===================================================================== *)

Module RiskSpec.

(** The list without its repeated entries; the last occurrence stays. *)
Fixpoint dedup (l : list pystr) : list pystr :=
  match l with
  | [] => []
  | x :: r => if mem x r then dedup r else x :: dedup r
  end.

(** The red and the yellow terms as one set. *)
Definition flagged_terms : list pystr := dedup (red_terms ++ yellow_terms).

(** The number of distinct red/yellow terms present in the text. *)
Definition matched_terms {R : PyRuntime} (text : pystr) : nat :=
  hits flagged_terms (str_lower text).

End RiskSpec.
Export RiskSpec.

(* ===================================================================== *)
(** ** Strings: basic facts                                               *)
(* ===================================================================== *)

Lemma str_eqb_eq a b : str_eqb a b = true <-> a = b.
Proof.
  revert b; induction a as [|x a IH]; intros [|y b]; simpl;
    try (split; [discriminate | congruence]); try tauto.
  rewrite andb_true_iff, N.eqb_eq, IH. split.
  - intros [-> ->]; reflexivity.
  - intros E; inversion E; auto.
Qed.

Lemma mem_In w s : mem w s = true <-> In w s.
Proof.
  unfold mem. rewrite existsb_exists. split.
  - intros [x [Hx E]]. apply str_eqb_eq in E. subst; auto.
  - intros H. exists w. split; auto. apply str_eqb_eq; auto.
Qed.

(* ===================================================================== *)
(** ** Traffic light thresholds                                           *)
(* ===================================================================== *)

(** C6. [traffic_light_from_score] is red exactly from 70 up, yellow
    exactly on 35..69 and green exactly below 35; the six boundary values
    0, 34, 35, 69, 70 and 100 fall on green, green, yellow, yellow, red
    and red. *)
Theorem traffic_light_from_score_thresholds :
  (forall score : Z,
      (traffic_light_from_score score = red <-> 70 <= score) /\
      (traffic_light_from_score score = yellow <-> 35 <= score < 70) /\
      (traffic_light_from_score score = green <-> ~ 70 <= score /\ ~ 35 <= score < 70))
  /\ traffic_light_from_score 0 = green
  /\ traffic_light_from_score 34 = green
  /\ traffic_light_from_score 35 = yellow
  /\ traffic_light_from_score 69 = yellow
  /\ traffic_light_from_score 70 = red
  /\ traffic_light_from_score 100 = red.
Proof.
  split; [| repeat split; reflexivity].
  intros score. unfold traffic_light_from_score.
  destruct (Z.geb_spec score 70) as [H70 | H70];
    [| destruct (Z.geb_spec score 35) as [H35 | H35]];
    repeat split; intros; try discriminate; try lia; auto.
Qed.

(* ===================================================================== *)
(** ** The heuristic risk score                                           *)
(* ===================================================================== *)

Section RiskScore.
Context {R : PyRuntime}.

Lemma add_matches_hits terms t inc score :
  add_matches terms t inc score = score + inc * Z.of_nat (hits terms t).
Proof.
  unfold add_matches, hits. revert score.
  induction terms as [| term terms IH]; intros score; simpl.
  - lia.
  - rewrite IH. destruct (str_in term t); simpl length; lia.
Qed.

(** The running sum of [heuristic_risk_score], in closed form. *)
Lemma heuristic_risk_score_sum text category :
  heuristic_risk_score text category =
  Z.min (10 + 30 * Z.of_nat (hits red_terms (str_lower text))
            + 15 * Z.of_nat (hits yellow_terms (str_lower text))
            + (if has_money text then 15 else 0)
            + (if is_urgent text then 15 else 0)
            + (if is_criminal category then 10 else 0)) 100.
Proof.
  unfold heuristic_risk_score, has_money, is_urgent, is_criminal.
  rewrite !add_matches_hits.
  destruct (money_search None (str_lower text));
    destruct (str_in (utf8 "do zítra") (str_lower text)
              || str_in (utf8 "dnes") (str_lower text)
              || str_in (utf8 "lhůt") (str_lower text));
    destruct (startswith (str_lower category) (utf8 "trest"));
    f_equal; lia.
Qed.

Lemma hits_none terms t :
  (forall term, In term terms -> str_in term t = false) -> hits terms t = 0%nat.
Proof.
  unfold hits. induction terms as [| term terms IH]; intros H; simpl; auto.
  rewrite (H term (or_introl eq_refl)). apply IH.
  intros x Hx. apply H. right; exact Hx.
Qed.

(** When [v] is the only entry of [terms] found in [t], the matched
    entries are the copies of [v] in the list. *)
Lemma hits_only terms t v :
  str_in v t = true ->
  (forall term, In term terms -> term <> v -> str_in term t = false) ->
  hits terms t = length (filter (fun term => str_eqb term v) terms).
Proof.
  intros Hv. unfold hits.
  induction terms as [| term terms IH]; intros H; simpl; auto.
  destruct (str_eqb term v) eqn:E.
  - apply str_eqb_eq in E. subst term. rewrite Hv. simpl. f_equal.
    apply IH. intros x Hx. apply H. right; exact Hx.
  - rewrite (H term (or_introl eq_refl)).
    + apply IH. intros x Hx. apply H. right; exact Hx.
    + intros ->. rewrite (proj2 (str_eqb_eq v v) eq_refl) in E. discriminate.
Qed.

Lemma distinctb_NoDup l : distinctb l = true -> NoDup l.
Proof.
  induction l as [| x r IH]; simpl; intros H; constructor.
  - apply andb_true_iff in H. destruct H as [H _].
    intros Hin. apply mem_In in Hin. rewrite Hin in H. discriminate.
  - apply IH. apply andb_true_iff in H. tauto.
Qed.

(** C7. The entries of each term list are pairwise distinct, so [hits]
    counts distinct terms.  With the money, urgency and category signals
    held equal, a text that matches at least as many red terms and at
    least as many yellow terms scores at least as much; the score never
    exceeds 100; and a text with no red term, no yellow term, no money
    pattern and no urgency phrase, under a category that is not criminal,
    scores exactly 10. *)
Theorem heuristic_risk_score_monotone_capped :
  (NoDup red_terms /\ NoDup yellow_terms)
  /\
  (forall text1 category1 text2 category2,
      (hits red_terms (str_lower text1) <= hits red_terms (str_lower text2))%nat ->
      (hits yellow_terms (str_lower text1) <= hits yellow_terms (str_lower text2))%nat ->
      has_money text1 = has_money text2 ->
      is_urgent text1 = is_urgent text2 ->
      is_criminal category1 = is_criminal category2 ->
      heuristic_risk_score text1 category1 <= heuristic_risk_score text2 category2)
  /\ (forall text category, heuristic_risk_score text category <= 100)
  /\ (forall text category,
         (forall term, In term red_terms -> str_in term (str_lower text) = false) ->
         (forall term, In term yellow_terms -> str_in term (str_lower text) = false) ->
         has_money text = false ->
         is_urgent text = false ->
         is_criminal category = false ->
         heuristic_risk_score text category = 10).
Proof.
  split; [split; apply distinctb_NoDup; reflexivity |].
  split; [| split].
  - intros text1 category1 text2 category2 Hr Hy Hm Hu Hc.
    rewrite !heuristic_risk_score_sum, Hm, Hu, Hc.
    apply Z.min_le_compat_r. lia.
  - intros text category. rewrite heuristic_risk_score_sum. apply Z.le_min_r.
  - intros text category Hr Hy Hm Hu Hc.
    rewrite heuristic_risk_score_sum, Hm, Hu, Hc.
    rewrite (hits_none _ _ Hr), (hits_none _ _ Hy). reflexivity.
Qed.

(** C10. "výpověď" is on the red list and on the yellow list, and a text
    whose lowercase form contains it, matches no other red or yellow term,
    no money pattern and no urgency phrase, under a category that is not
    criminal, scores 10 + 30 + 15 = 55. *)
Theorem heuristic_risk_score_shared_term :
  In (utf8 "výpověď") red_terms /\ In (utf8 "výpověď") yellow_terms /\
  forall text category,
    str_in (utf8 "výpověď") (str_lower text) = true ->
    (forall term, In term red_terms -> term <> utf8 "výpověď" ->
                  str_in term (str_lower text) = false) ->
    (forall term, In term yellow_terms -> term <> utf8 "výpověď" ->
                  str_in term (str_lower text) = false) ->
    has_money text = false ->
    is_urgent text = false ->
    is_criminal category = false ->
    heuristic_risk_score text category = 55.
Proof.
  split; [| split].
  - apply mem_In. reflexivity.
  - apply mem_In. reflexivity.
  - intros text category Hv Hr Hy Hm Hu Hc.
    rewrite heuristic_risk_score_sum, Hm, Hu, Hc.
    rewrite (hits_only _ _ _ Hv Hr), (hits_only _ _ _ Hv Hy).
    reflexivity.
Qed.

End RiskScore.

(** Against C7 as stated, with one count of distinct red/yellow terms:
    "policie soud" holds two of them and scores 70, "smlouva reklamace
    pokuta" holds three and scores 55, with no money pattern and no
    urgency phrase in either and under the same category.  So the score
    is not non-decreasing in that count, even with the other signals
    equal. *)
Lemma heuristic_risk_score_count_not_monotone :
  matched_terms (R := Latin.runtime) (utf8 "policie soud") = 2%nat /\
  matched_terms (R := Latin.runtime) (utf8 "smlouva reklamace pokuta") = 3%nat /\
  has_money (R := Latin.runtime) (utf8 "policie soud") = false /\
  has_money (R := Latin.runtime) (utf8 "smlouva reklamace pokuta") = false /\
  is_urgent (R := Latin.runtime) (utf8 "policie soud") = false /\
  is_urgent (R := Latin.runtime) (utf8 "smlouva reklamace pokuta") = false /\
  heuristic_risk_score (R := Latin.runtime) (utf8 "policie soud") OBCANSKE_PRAVO = 70 /\
  heuristic_risk_score (R := Latin.runtime) (utf8 "smlouva reklamace pokuta")
    OBCANSKE_PRAVO = 55 /\
  ~ (forall text1 text2 category : pystr,
        (matched_terms (R := Latin.runtime) text1 <=
         matched_terms (R := Latin.runtime) text2)%nat ->
        has_money (R := Latin.runtime) text1 = has_money (R := Latin.runtime) text2 ->
        is_urgent (R := Latin.runtime) text1 = is_urgent (R := Latin.runtime) text2 ->
        heuristic_risk_score (R := Latin.runtime) text1 category <=
        heuristic_risk_score (R := Latin.runtime) text2 category).
Proof.
  assert (A : matched_terms (R := Latin.runtime) (utf8 "policie soud") = 2%nat)
    by (vm_compute; reflexivity).
  assert (B : matched_terms (R := Latin.runtime) (utf8 "smlouva reklamace pokuta")
              = 3%nat)
    by (vm_compute; reflexivity).
  assert (Ma : has_money (R := Latin.runtime) (utf8 "policie soud") = false)
    by (vm_compute; reflexivity).
  assert (Mb : has_money (R := Latin.runtime) (utf8 "smlouva reklamace pokuta") = false)
    by (vm_compute; reflexivity).
  assert (Ua : is_urgent (R := Latin.runtime) (utf8 "policie soud") = false)
    by (vm_compute; reflexivity).
  assert (Ub : is_urgent (R := Latin.runtime) (utf8 "smlouva reklamace pokuta") = false)
    by (vm_compute; reflexivity).
  assert (Sa : heuristic_risk_score (R := Latin.runtime) (utf8 "policie soud")
                 OBCANSKE_PRAVO = 70)
    by (vm_compute; reflexivity).
  assert (Sb : heuristic_risk_score (R := Latin.runtime)
                 (utf8 "smlouva reklamace pokuta") OBCANSKE_PRAVO = 55)
    by (vm_compute; reflexivity).
  split; [exact A | split; [exact B | split; [exact Ma | split; [exact Mb |
    split; [exact Ua | split; [exact Ub | split; [exact Sa | split; [exact Sb |]]]]]]]].
  intros H.
  specialize (H (utf8 "policie soud") (utf8 "smlouva reklamace pokuta")
                OBCANSKE_PRAVO).
  rewrite A, B, Ma, Mb, Ua, Ub, Sa, Sb in H.
  assert (C : 70 <= 55) by (apply H; [lia | reflexivity | reflexivity]).
  lia.
Qed.

(* ===================================================================== *)
(** ** The merge of the model's assessment with the heuristic             *)
(* ===================================================================== *)

Lemma more_severe_order a b : more_severe a b <-> order b < order a.
Proof.
  split.
  - intros H; destruct H; simpl; lia.
  - destruct a, b; simpl; intros H; try lia; constructor.
Qed.

Section Merge.
Context {R : PyRuntime}.

(** C1. When the heuristic light
    [traffic_light_from_score (heuristic_risk_score text category)] is
    strictly more severe than the model's, the merged answer carries the
    heuristic light and the larger of the two scores; otherwise the
    model's answer is returned as it is, light and score included. *)
Theorem reconcile_takes_more_severe :
  forall (question category : pystr) (ans : LawmateAnswer),
    let heur := heuristic_risk_score question category in
    let heur_light := traffic_light_from_score heur in
    let merged := reconcile question category ans in
    (more_severe heur_light (traffic_light ans) ->
       traffic_light merged = heur_light /\
       risk_score merged = Z.max (risk_score ans) heur) /\
    (~ more_severe heur_light (traffic_light ans) ->
       merged = ans /\
       traffic_light merged = traffic_light ans /\
       risk_score merged = risk_score ans).
Proof.
  intros question category ans heur heur_light merged.
  subst merged. unfold reconcile. fold heur. fold heur_light.
  rewrite more_severe_order.
  destruct (Z.gtb_spec (order heur_light) (order (traffic_light ans))) as [Hgt | Hle].
  - split; [intros _; split; reflexivity | intros Hn; exfalso; apply Hn; exact Hgt].
  - split; [intros Hs; lia | intros _; repeat split; reflexivity].
Qed.

End Merge.

(* ===================================================================== *)
(** ** Category inference                                                 *)
(* ===================================================================== *)

Section Category.
Context {R : PyRuntime}.

(** [infer_category] as a choice among the three domain scores. *)
Lemma infer_category_choice text :
  let st := domain_score trest_terms text in
  let so := domain_score obc_terms text in
  let sl := domain_score legal_terms text in
  infer_category text =
    let best1 := if so >? st then (OBCANSKE_PRAVO, so) else (TRESTNI_PRAVO, st) in
    let best2 := if sl >? snd best1 then (PRAVNI_RAD, sl) else best1 in
    if snd best2 =? 0 then PRAVNI_RAD else fst best2.
Proof.
  intros st so sl. subst st so sl.
  unfold infer_category, domain_score.
  rewrite !add_matches_hits, !Z.add_0_l.
  set (t := str_lower (normalize_text text)).
  generalize (2 * Z.of_nat (hits trest_terms t)) as a.
  generalize (2 * Z.of_nat (hits obc_terms t)) as b.
  generalize (2 * Z.of_nat (hits legal_terms t)) as c.
  intros c b a.
  assert (TT : str_eqb TRESTNI_PRAVO TRESTNI_PRAVO = true) by reflexivity.
  assert (TO : str_eqb TRESTNI_PRAVO OBCANSKE_PRAVO = false) by reflexivity.
  assert (TP : str_eqb TRESTNI_PRAVO PRAVNI_RAD = false) by reflexivity.
  assert (OO : str_eqb OBCANSKE_PRAVO OBCANSKE_PRAVO = true) by reflexivity.
  assert (OP : str_eqb OBCANSKE_PRAVO PRAVNI_RAD = false) by reflexivity.
  assert (PP : str_eqb PRAVNI_RAD PRAVNI_RAD = true) by reflexivity.
  cbn [map fst max_from dict_item].
  rewrite ?TT, ?TO, ?TP, ?OO, ?OP, ?PP.
  destruct (b >? a); cbn [snd fst];
    destruct (c >? _); cbn [snd fst];
    rewrite ?TT, ?TO, ?TP, ?OO, ?OP, ?PP; reflexivity.
Qed.

(** C8. With each domain scoring +2 per matched term, [infer_category]
    returns the domain whose score is highest, the earlier of Criminal,
    Civil, General winning a tie, and the general category whenever all
    three scores are 0. *)
Theorem infer_category_picks_highest :
  forall text : pystr,
    let st := domain_score trest_terms text in
    let so := domain_score obc_terms text in
    let sl := domain_score legal_terms text in
    (0 < st -> so <= st -> sl <= st -> infer_category text = TRESTNI_PRAVO) /\
    (st < so -> sl <= so -> infer_category text = OBCANSKE_PRAVO) /\
    (st < sl -> so < sl -> infer_category text = PRAVNI_RAD) /\
    (st = 0 -> so = 0 -> sl = 0 -> infer_category text = PRAVNI_RAD).
Proof.
  intros text st so sl.
  pose proof (infer_category_choice text) as E. cbv zeta in E.
  fold st so sl in E. rewrite E. clear E.
  assert (0 <= st) by (unfold st, domain_score; lia).
  assert (0 <= so) by (unfold so, domain_score; lia).
  assert (0 <= sl) by (unfold sl, domain_score; lia).
  clearbody st so sl.
  destruct (Z.gtb_spec so st); cbn [snd fst];
    match goal with
    | |- context [if sl >? ?y then _ else _] =>
        destruct (Z.gtb_spec sl y); cbn [snd fst]
    end;
    match goal with
    | |- context [if ?x =? 0 then _ else _] => destruct (Z.eqb_spec x 0)
    end;
    (split; [| split; [| split]]); intros;
    match goal with
    | |- ?c = ?c => reflexivity
    | _ => exfalso; lia
    end.
Qed.

End Category.

(* ===================================================================== *)
(** ** Keyword extraction                                                 *)
(* ===================================================================== *)

Lemma kw_loop_incl words seen out max_keywords w :
  In w (kw_loop words seen out max_keywords) -> In w out \/ In w words.
Proof.
  revert seen out. induction words as [| x rest IH]; intros seen out H; simpl in H.
  - left; exact H.
  - destruct (mem x seen).
    + destruct (IH _ _ H); [left | right; right]; assumption.
    + destruct (Z.of_nat (length (out ++ [x])) >=? max_keywords).
      * apply in_app_or in H. destruct H as [H | [H | []]];
          [left; exact H | right; left; exact H].
      * destruct (IH _ _ H) as [H' | H'].
        -- apply in_app_or in H'. destruct H' as [H' | [H' | []]];
             [left; exact H' | right; left; exact H'].
        -- right; right; exact H'.
Qed.

Lemma kw_loop_NoDup words seen out max_keywords :
  NoDup out -> (forall w, In w out -> In w seen) ->
  NoDup (kw_loop words seen out max_keywords).
Proof.
  revert seen out. induction words as [| x rest IH]; intros seen out Hnd Hsub; simpl.
  - exact Hnd.
  - destruct (mem x seen) eqn:Hmem.
    + apply IH; assumption.
    + assert (Hfresh : ~ In x out).
      { intros Hin. apply Hsub, mem_In in Hin. congruence. }
      assert (Hnd' : NoDup (out ++ [x])).
      { apply NoDup_app; [exact Hnd | repeat constructor; intros [] |].
        intros a Ha [<- | []]. exact (Hfresh Ha). }
      destruct (Z.of_nat (length (out ++ [x])) >=? max_keywords).
      * exact Hnd'.
      * apply IH; [exact Hnd' |].
        intros w Hw. apply in_app_or in Hw.
        destruct Hw as [Hw | [<- | []]]; [right; apply Hsub; exact Hw | left; reflexivity].
Qed.

(** The cap the loop does enforce: it stops at the first append that
    reaches [max_keywords], and the test comes after the append. *)
Lemma kw_loop_length words seen out max_keywords :
  Z.of_nat (length out) < Z.max max_keywords 1 ->
  Z.of_nat (length (kw_loop words seen out max_keywords)) <= Z.max max_keywords 1.
Proof.
  revert seen out. induction words as [| x rest IH]; intros seen out Hlen; simpl.
  - lia.
  - destruct (mem x seen).
    + apply IH; exact Hlen.
    + assert (E : Z.of_nat (length (out ++ [x])) = Z.of_nat (length out) + 1).
      { rewrite length_app; simpl; lia. }
      destruct (Z.geb_spec (Z.of_nat (length (out ++ [x]))) max_keywords).
      * lia.
      * apply IH. lia.
Qed.

Section Keywords.
Context {R : PyRuntime}.

Lemma extract_keywords_NoDup text max_keywords :
  NoDup (extract_keywords text max_keywords).
Proof.
  unfold extract_keywords. apply kw_loop_NoDup; [constructor | intros w []].
Qed.

Lemma extract_keywords_no_stopword text max_keywords w :
  In w (extract_keywords text max_keywords) -> ~ In w _CZ_STOPWORDS.
Proof.
  unfold extract_keywords. intros H.
  apply kw_loop_incl in H. destruct H as [[] | H].
  apply filter_In in H. destruct H as [_ H].
  intros Hin. apply mem_In in Hin. rewrite Hin in H. discriminate.
Qed.

Lemma extract_keywords_length text max_keywords :
  Z.of_nat (length (extract_keywords text max_keywords)) <= Z.max max_keywords 1.
Proof.
  unfold extract_keywords. apply kw_loop_length. simpl. lia.
Qed.

Lemma extract_keywords_empty max_keywords :
  extract_keywords [] max_keywords = [].
Proof.
  unfold extract_keywords.
  change (normalize_text []) with (@nil codepoint).
  rewrite str_lower_empty. reflexivity.
Qed.

(** With a cap of 0 or less the first keyword is appended before the cap
    is looked at, and the loop returns it. *)
Lemma extract_keywords_nonpositive_cap text max_keywords :
  max_keywords <= 0 ->
  extract_keywords text 12 <> [] ->
  length (extract_keywords text max_keywords) = 1%nat.
Proof.
  unfold extract_keywords. intros Hmax.
  destruct (filter _ _) as [| w rest]; simpl.
  - intros H; contradiction.
  - intros _. destruct (Z.geb_spec 1 max_keywords); [reflexivity | lia].
Qed.

End Keywords.

(** C2. The keyword list of the text "dluh" under the cap 0 is ["dluh"]:
    one keyword, which is more than the cap allows. *)
Theorem extract_keywords_exceeds_zero_cap :
  extract_keywords (R := Latin.runtime) (utf8 "dluh") 0 = [utf8 "dluh"] /\
  ~ Z.of_nat (length (extract_keywords (R := Latin.runtime) (utf8 "dluh") 0)) <= 0.
Proof.
  split; [reflexivity |].
  vm_compute. intros H; apply H; reflexivity.
Qed.

(* ===================================================================== *)
(** ** The stable descending sort                                         *)
(* ===================================================================== *)

Lemma insert_desc_perm x l : Permutation (insert_desc x l) (x :: l).
Proof.
  induction l as [| y r IH]; simpl.
  - apply Permutation_refl.
  - destruct (Qle_bool (score y) (score x)).
    + apply Permutation_refl.
    + apply perm_trans with (y :: x :: r); [apply perm_skip, IH | apply perm_swap].
Qed.

Lemma sort_desc_perm l : Permutation (sort_desc l) l.
Proof.
  induction l as [| x r IH]; simpl.
  - apply perm_nil.
  - apply perm_trans with (x :: sort_desc r);
      [apply insert_desc_perm | apply perm_skip, IH].
Qed.

Lemma insert_desc_sorted x l : sorted_desc l -> sorted_desc (insert_desc x l).
Proof.
  unfold sorted_desc. induction l as [| y r IH]; intros Hs; simpl.
  - constructor; constructor.
  - inversion Hs as [| ? ? Hr Hy]; subst.
    destruct (Qle_bool (score y) (score x)) eqn:E.
    + apply Qle_bool_iff in E. constructor; [exact Hs |].
      constructor; [exact E |].
      eapply Forall_impl; [| exact Hy]. cbv beta. intros a Ha.
      eapply Qle_trans; eassumption.
    + assert (Hlt : (score x <= score y)%Q).
      { destruct (Qlt_le_dec (score x) (score y)) as [H | H].
        - apply Qlt_le_weak; exact H.
        - apply Qle_bool_iff in H. congruence. }
      constructor; [apply IH; exact Hr |].
      apply Forall_forall. intros a Ha.
      apply (Permutation_in _ (insert_desc_perm x r)) in Ha.
      destruct Ha as [<- | Ha]; [exact Hlt |].
      rewrite Forall_forall in Hy. apply Hy; exact Ha.
Qed.

Lemma sort_desc_sorted l : sorted_desc (sort_desc l).
Proof.
  induction l as [| x r IH]; simpl.
  - constructor.
  - apply insert_desc_sorted; exact IH.
Qed.

Lemma insert_desc_stable v x l :
  with_score v (insert_desc x l) = with_score v (x :: l).
Proof.
  unfold with_score. induction l as [| y r IH]; simpl; [reflexivity |].
  destruct (Qle_bool (score y) (score x)) eqn:E; [reflexivity |].
  simpl. rewrite IH. simpl.
  destruct (Qeq_bool (score x) v) eqn:Ex; [| reflexivity].
  destruct (Qeq_bool (score y) v) eqn:Ey; [| reflexivity].
  apply Qeq_bool_iff in Ex, Ey.
  assert (H : (score y <= score x)%Q) by (rewrite Ex, Ey; apply Qle_refl).
  apply Qle_bool_iff in H. congruence.
Qed.

Lemma sort_desc_stable v l : with_score v (sort_desc l) = with_score v l.
Proof.
  induction l as [| x r IH]; simpl; [reflexivity |].
  rewrite insert_desc_stable. unfold with_score in *. simpl. rewrite IH.
  reflexivity.
Qed.

Lemma sort_desc_is_stable_sort l : stable_sort_of (sort_desc l) l.
Proof.
  split; [apply sort_desc_perm | split; [apply sort_desc_sorted |]].
  intros v; apply sort_desc_stable.
Qed.

Lemma with_score_In v d l : In d (with_score v l) -> In d l.
Proof.
  unfold with_score. intros H. apply filter_In in H. tauto.
Qed.

Lemma with_score_self d l : In d l -> In d (with_score (score d) l).
Proof.
  unfold with_score. intros H. apply filter_In. split; [exact H |].
  apply Qeq_bool_iff. apply Qeq_refl.
Qed.

Lemma sorted_desc_head x l d : sorted_desc (x :: l) -> In d (x :: l) ->
  (score d <= score x)%Q.
Proof.
  intros Hs [<- | Hin]; [apply Qle_refl |].
  inversion Hs as [| ? ? _ Hall]; subst.
  rewrite Forall_forall in Hall. apply Hall; exact Hin.
Qed.

(** Scores descending and, per score, the same decisions in the same
    order: such a list is unique. Whatever stable sort the interpreter
    runs, it returns what [sort_desc] returns. *)
Lemma sorted_desc_unique r1 r2 :
  sorted_desc r1 -> sorted_desc r2 ->
  (forall v, with_score v r1 = with_score v r2) ->
  r1 = r2.
Proof.
  revert r2. induction r1 as [| x r1 IH]; intros r2 H1 H2 Hsame.
  - destruct r2 as [| y r2]; [reflexivity |].
    pose proof (with_score_self y (y :: r2) (or_introl eq_refl)) as Hy.
    rewrite <- Hsame in Hy. destruct Hy.
  - destruct r2 as [| y r2].
    + pose proof (with_score_self x (x :: r1) (or_introl eq_refl)) as Hx.
      rewrite Hsame in Hx. destruct Hx.
    + assert (Hxy : (score x <= score y)%Q).
      { apply (sorted_desc_head y r2 x H2).
        apply (with_score_In (score x)). rewrite <- Hsame.
        apply with_score_self. left; reflexivity. }
      assert (Hyx : (score y <= score x)%Q).
      { apply (sorted_desc_head x r1 y H1).
        apply (with_score_In (score y)). rewrite Hsame.
        apply with_score_self. left; reflexivity. }
      assert (Heq : Qeq_bool (score y) (score x) = true)
        by (apply Qeq_bool_iff, Qle_antisym; assumption).
      assert (Hhead : x = y).
      { pose proof (Hsame (score x)) as E. unfold with_score in E. simpl in E.
        rewrite Heq in E.
        rewrite (proj2 (Qeq_bool_iff (score x) (score x)) (Qeq_refl _)) in E.
        injection E as E _. exact E. }
      subst y. f_equal. apply IH.
      * inversion H1; assumption.
      * inversion H2; assumption.
      * intros v. pose proof (Hsame v) as E. unfold with_score in *. simpl in E.
        destruct (Qeq_bool (score x) v); [injection E as E |]; exact E.
Qed.

Lemma stable_sort_unique r1 r2 l :
  stable_sort_of r1 l -> stable_sort_of r2 l -> r1 = r2.
Proof.
  intros [_ [S1 E1]] [_ [S2 E2]].
  apply sorted_desc_unique; try assumption.
  intros v. rewrite E1, E2. reflexivity.
Qed.

(* ===================================================================== *)
(** ** The retrieval loop                                                 *)
(* ===================================================================== *)

Lemma slice_to_nonneg {A} (l : list A) (n : nat) :
  slice_to l (Z.of_nat n) = firstn n l.
Proof.
  unfold slice_to. destruct (Z.ltb_spec (Z.of_nat n) 0); [lia |].
  rewrite Nat2Z.id. reflexivity.
Qed.

Section Retrieval.
Context {R : PyRuntime}.
Variable remote : date -> exn + json.
Variable today : date.

Lemma strs_texts v log :
  iterable (or_empty v) = true ->
  strs (or_empty v) log = (inr (texts v), log).
Proof.
  unfold strs, texts, bind, iterate.
  destruct (or_empty v); simpl; intros H; try discriminate;
    unfold ret; rewrite ?map_map; reflexivity.
Qed.

(** On a well-formed item the loop body raises nothing: it appends the
    item's decision when some keyword occurs in the blob, and leaves the
    candidates alone otherwise. *)
Lemma scan_item_well_formed keywords it candidates log :
  well_formed_item it ->
  scan_item keywords it candidates log =
  (inr (candidates ++
          if (overlap keywords it =? 0)%nat then []
          else [decision_of keywords it]), log).
Proof.
  intros [[kv ->] [Hk Hz]].
  unfold scan_item, get.
  unfold bind at 1. unfold ret at 1.
  unfold bind at 1. unfold ret at 1.
  unfold bind at 1. unfold ret at 1.
  unfold bind at 1. rewrite (strs_texts _ _ Hk).
  unfold bind at 1. rewrite (strs_texts _ _ Hz).
  change (str_lower (join (utf8 " ") _)) with (blob (JDict kv)).
  change (length (filter _ keywords)) with (overlap keywords (JDict kv)).
  destruct (Nat.eqb_spec (overlap keywords (JDict kv)) 0) as [E | E].
  - rewrite E. simpl. rewrite app_nil_r. reflexivity.
  - destruct (Z.eqb_spec (Z.of_nat (overlap keywords (JDict kv))) 0); [lia |].
    unfold bind, ret.
    rewrite (slice_to_nonneg _ 10), (slice_to_nonneg _ 10).
    reflexivity.
Qed.

Lemma scan_items_well_formed keywords items candidates log :
  Forall well_formed_item items ->
  for_each items (scan_item keywords) candidates log =
  (inr (candidates ++
          map (decision_of keywords)
              (filter (fun it => negb (overlap keywords it =? 0)%nat) items)),
   log).
Proof.
  intros H. revert candidates.
  induction H as [| it items Hit _ IH]; intros candidates; simpl.
  - unfold ret. rewrite app_nil_r. reflexivity.
  - unfold bind. rewrite (scan_item_well_formed _ _ _ _ Hit), IH.
    destruct (overlap keywords it =? 0)%nat; simpl;
      rewrite <- app_assoc; reflexivity.
Qed.

(** One day of the scan: the day is requested once, and its candidates
    are appended. *)
Lemma scan_day_well_formed keywords max_items_per_day i candidates log :
  1 <= today - i ->
  well_formed_day max_items_per_day (remote (today - i)) ->
  scan_day remote today keywords max_items_per_day i candidates log =
  (inr (candidates ++
          day_candidates keywords max_items_per_day (remote (today - i))),
   log ++ [today - i]).
Proof.
  intros Hd Hwf. unfold scan_day, day_candidates.
  destruct (Z.ltb_spec (today - i) 1); [lia |].
  unfold bind at 1. unfold ret at 1.
  unfold bind at 1. unfold attempt, fetch_day.
  destruct (remote (today - i)) as [e | data]; simpl.
  - unfold ret. rewrite app_nil_r. reflexivity.
  - destruct data; simpl in Hwf; try contradiction.
    unfold get, bind at 1, ret at 1.
    simpl in *.
    destruct (dict_get kv (utf8 "items") (JList []));
      try (unfold ret; simpl; rewrite app_nil_r; reflexivity).
    apply scan_items_well_formed; exact Hwf.
Qed.

Lemma scan_days_well_formed keywords max_items_per_day days candidates log :
  (forall i, In i days ->
     1 <= today - i /\
     well_formed_day max_items_per_day (remote (today - i))) ->
  for_each days (scan_day remote today keywords max_items_per_day) candidates log =
  (inr (candidates ++
          flat_map (fun i => day_candidates keywords max_items_per_day
                               (remote (today - i))) days),
   log ++ map (fun i => today - i) days).
Proof.
  revert candidates log.
  induction days as [| i days IH]; intros candidates log H; simpl.
  - unfold ret. rewrite !app_nil_r. reflexivity.
  - destruct (H i (or_introl eq_refl)) as [Hd Hwf].
    unfold bind. rewrite (scan_day_well_formed _ _ _ _ _ Hd Hwf).
    rewrite IH by (intros j Hj; apply H; right; exact Hj).
    rewrite <- !app_assoc. reflexivity.
Qed.

Lemma In_range i n : In i (range n) <-> 0 <= i < n.
Proof.
  unfold range. rewrite in_map_iff. split.
  - intros [k [<- Hk]]. apply in_seq in Hk. lia.
  - intros H. exists (Z.to_nat i). split; [lia | apply in_seq; lia].
Qed.

End Retrieval.

Lemma relevance_bounds `{PyRuntime} keywords it :
  overlap keywords it <> 0%nat ->
  (0 < relevance keywords it /\ relevance keywords it <= 1)%Q.
Proof.
  intros Hpos. unfold relevance.
  assert (Hle : (overlap keywords it <= length keywords)%nat)
    by (unfold overlap; apply filter_length_le).
  set (a := Z.of_nat (overlap keywords it)).
  set (b := Z.max (Z.of_nat (length keywords)) 1).
  assert (Ha : 0 < a) by (unfold a; lia).
  assert (Hab : a <= b) by (unfold a, b; lia).
  assert (Hb : (0 < inject_Z b)%Q) by (change 0%Q with (inject_Z 0); rewrite <- Zlt_Qlt; lia).
  split.
  - apply Qlt_shift_div_l; [exact Hb |].
    rewrite Qmult_0_l. change 0%Q with (inject_Z 0). rewrite <- Zlt_Qlt. exact Ha.
  - apply Qle_shift_div_r; [exact Hb |].
    rewrite Qmult_1_l. rewrite <- Zle_Qle. exact Hab.
Qed.

Lemma flat_map_day_candidates `{PyRuntime} keywords max_items_per_day
    (remote : date -> exn + json) (f : Z -> date) days :
  flat_map (fun i => day_candidates keywords max_items_per_day (remote (f i))) days =
  map (decision_of keywords)
      (filter (fun it => negb (overlap keywords it =? 0)%nat)
              (flat_map (fun i => day_items max_items_per_day (remote (f i))) days)).
Proof.
  induction days as [| i days IH]; simpl; [reflexivity |].
  rewrite filter_app, map_app, IH. reflexivity.
Qed.

Section Search.
Context {R : PyRuntime}.
Variable remote : date -> exn + json.
Variable today : date.

(** The whole scan on well-formed days: each day of the window is
    requested once, newest first, and the result is the first five of the
    sorted candidates. *)
Lemma search_recent_decisions_well_formed question lookback_days max_items_per_day log :
  extract_keywords question 12 <> [] ->
  0 < lookback_days <= today ->
  (forall i, 0 <= i < lookback_days ->
             well_formed_day max_items_per_day (remote (today - i))) ->
  search_recent_decisions remote today question lookback_days max_items_per_day log =
  (inr (firstn 5 (sort_desc
          (flat_map (fun i => day_candidates (extract_keywords question 12)
                                max_items_per_day (remote (today - i)))
                    (range lookback_days)))),
   log ++ map (fun i => today - i) (range lookback_days)).
Proof.
  intros Hkw Hlb Hwf. unfold search_recent_decisions.
  destruct (extract_keywords question 12) as [| kw kws] eqn:E; [contradiction |].
  destruct (Z.leb_spec lookback_days 0); [lia |].
  cbn [orb]. unfold bind.
  rewrite scan_days_well_formed.
  - unfold ret. rewrite (slice_to_nonneg _ 5). reflexivity.
  - intros i Hi. apply In_range in Hi. split; [lia | apply Hwf; exact Hi].
Qed.

(** The result alone, early return included: without keywords no item
    overlaps, and an empty window offers no item. *)
Lemma search_recent_decisions_result question lookback_days max_items_per_day log :
  lookback_days <= today ->
  (forall i, 0 <= i < lookback_days ->
             well_formed_day max_items_per_day (remote (today - i))) ->
  fst (search_recent_decisions remote today question lookback_days
         max_items_per_day log) =
  inr (firstn 5 (sort_desc
         (flat_map (fun i => day_candidates (extract_keywords question 12)
                               max_items_per_day (remote (today - i)))
                   (range lookback_days)))).
Proof.
  intros Hlb Hwf.
  destruct (Z.leb_spec lookback_days 0) as [Hle | Hpos].
  - unfold search_recent_decisions.
    destruct (Z.leb_spec lookback_days 0); [| lia].
    rewrite orb_true_r. unfold range.
    replace (Z.to_nat lookback_days) with 0%nat by lia. reflexivity.
  - destruct (extract_keywords question 12) as [| kw kws] eqn:E.
    + unfold search_recent_decisions. rewrite E. cbn [orb fst ret].
      rewrite flat_map_day_candidates.
      assert (F : forall l : list json,
                 filter (fun it => negb (overlap [] it =? 0)%nat) l = [])
        by (induction l; simpl; auto).
      rewrite F. reflexivity.
    + rewrite search_recent_decisions_well_formed; try assumption.
      * rewrite E. reflexivity.
      * rewrite E. discriminate.
      * lia.
Qed.

(** A day answered with anything but an object stops the scan: the
    exception of [data.get] is raised outside the [try], and no later day
    is requested. *)
Lemma search_recent_decisions_non_object question lookback_days max_items_per_day
    log data :
  extract_keywords question 12 <> [] ->
  0 < lookback_days ->
  1 <= today ->
  remote today = inr data ->
  (forall kv, data <> JDict kv) ->
  search_recent_decisions remote today question lookback_days max_items_per_day log
  = (inl (AttributeError data "get"), log ++ [today]).
Proof.
  intros Hkw Hlb Htoday Hdata Hshape. unfold search_recent_decisions.
  destruct (extract_keywords question 12) as [| kw kws]; [contradiction |].
  destruct (Z.leb_spec lookback_days 0); [lia |].
  cbn [orb]. unfold range.
  destruct (Z.to_nat lookback_days) as [| n] eqn:En; [lia |].
  cbn [seq map for_each]. unfold bind at 1. unfold bind at 1.
  unfold scan_day. change (Z.of_nat 0) with 0. rewrite Z.sub_0_r.
  destruct (Z.ltb_spec today 1); [lia |].
  unfold bind at 1. unfold ret at 1.
  unfold bind at 1. unfold attempt, fetch_day. rewrite Hdata.
  unfold bind at 1.
  destruct data; try reflexivity.
  exfalso. eapply Hshape. reflexivity.
Qed.

(** C5. When the question yields no keyword, or [lookback_days] is 0 or
    negative, [search_recent_decisions] returns the empty list and the
    log of requested days is what it was: nothing is fetched. *)
Theorem search_recent_decisions_short_circuit :
  forall (question : pystr) (lookback_days max_items_per_day : Z) (log : list date),
    extract_keywords question 12 = [] \/ lookback_days <= 0 ->
    search_recent_decisions remote today question lookback_days max_items_per_day log
    = (inr [], log).
Proof.
  intros question lookback_days max_items_per_day log H.
  unfold search_recent_decisions.
  destruct H as [-> | H]; [reflexivity |].
  destruct (Z.leb_spec lookback_days 0); [| lia].
  rewrite orb_true_r. reflexivity.
Qed.

(** C4. On a window of well-formed days that does not reach before the
    first calendar day, with [fetched] the items that
    reach the scoring loop over all scanned days: the candidates are the
    decisions of exactly those fetched items whose blob contains at least
    one keyword, so an item with overlap 0 yields none; each candidate's
    score is overlap / max(len(keywords), 1) and lies in (0, 1]; the
    candidates have a stable descending sort, and the result is its
    first five entries. *)
Theorem search_recent_decisions_ranks :
  forall (question : pystr) (lookback_days max_items_per_day : Z) (log : list date),
    let keywords := extract_keywords question 12 in
    let fetched :=
      flat_map (fun i => day_items max_items_per_day (remote (today - i)))
               (range lookback_days) in
    let candidates :=
      map (decision_of keywords)
          (filter (fun it => negb (overlap keywords it =? 0)%nat) fetched) in
    lookback_days <= today ->
    (forall i, 0 <= i < lookback_days ->
               well_formed_day max_items_per_day (remote (today - i))) ->
    (forall d, In d candidates ->
       exists it, In it fetched /\ overlap keywords it <> 0%nat /\
                  d = decision_of keywords it /\
                  score d = (inject_Z (Z.of_nat (overlap keywords it))
                             / inject_Z (Z.max (Z.of_nat (length keywords)) 1))%Q /\
                  (0 < score d /\ score d <= 1)%Q) /\
    (exists ranked, stable_sort_of ranked candidates) /\
    (forall ranked,
       stable_sort_of ranked candidates ->
       fst (search_recent_decisions remote today question lookback_days
              max_items_per_day log) = inr (firstn 5 ranked)).
Proof.
  intros question lookback_days max_items_per_day log keywords fetched candidates
         Hlb Hwf.
  split.
  - intros d Hd. unfold candidates in Hd.
    apply in_map_iff in Hd. destruct Hd as [it [<- Hit]].
    apply filter_In in Hit. destruct Hit as [Hin Hov].
    assert (Hne : overlap keywords it <> 0%nat).
    { destruct (Nat.eqb_spec (overlap keywords it) 0); [discriminate | assumption]. }
    exists it. repeat split; auto; apply (relevance_bounds keywords it Hne).
  - split; [exists (sort_desc candidates); apply sort_desc_is_stable_sort |].
    intros ranked Hranked.
    rewrite (stable_sort_unique _ _ _ Hranked (sort_desc_is_stable_sort candidates)).
    rewrite (search_recent_decisions_result _ _ _ _ Hlb Hwf).
    unfold candidates, fetched, keywords.
    rewrite flat_map_day_candidates. reflexivity.
Qed.

(** One raising day does not empty the result: when the request for one
    day of the window raises, the other days are well formed, and some
    item that reaches the scoring loop shares a keyword with the
    question, the result is not empty. *)
Lemma search_recent_decisions_survives_raising_day
    question lookback_days max_items_per_day log i0 e it :
  extract_keywords question 12 <> [] ->
  0 < lookback_days <= today ->
  remote (today - i0) = inl e ->
  (forall i, 0 <= i < lookback_days -> i <> i0 ->
             well_formed_day max_items_per_day (remote (today - i))) ->
  In it (flat_map (fun i => day_items max_items_per_day (remote (today - i)))
                  (range lookback_days)) ->
  overlap (extract_keywords question 12) it <> 0%nat ->
  exists d ds,
    fst (search_recent_decisions remote today question lookback_days
           max_items_per_day log) = inr (d :: ds).
Proof.
  intros Hkw Hlb He Hwf Hit Hov.
  rewrite search_recent_decisions_well_formed; auto.
  - rewrite flat_map_day_candidates. cbn [fst].
    set (cands := map _ _).
    assert (Hin : In (decision_of (extract_keywords question 12) it) cands).
    { apply in_map, filter_In. split; [exact Hit |].
      destruct (Nat.eqb_spec (overlap (extract_keywords question 12) it) 0);
        [contradiction | reflexivity]. }
    apply (Permutation_in _ (Permutation_sym (sort_desc_perm cands))) in Hin.
    destruct (sort_desc cands) as [| d ds]; [destruct Hin |].
    exists d, (firstn 4 ds). reflexivity.
  - intros i Hi. destruct (Z.eq_dec i i0) as [-> | Hne].
    + rewrite He. exact I.
    + apply Hwf; assumption.
Qed.

End Search.

(** C3. The request for 3 November 2026 is answered 200 with the JSON
    array [[]] and the day before with a page that holds a matching item.
    The two-day scan raises AttributeError at the first day and never
    requests the second.  The same holds when the first day's item list
    holds a [null].  When the first day's request raises instead, the
    day is skipped and the second day's decision is returned. *)
Theorem search_recent_decisions_aborts_on_non_object :
  search_recent_decisions (R := Latin.runtime) Samples.one_day_array
    Samples.a_day Samples.question 2 200 []
  = (inl (AttributeError (JList []) "get"), [Samples.a_day])
  /\
  search_recent_decisions (R := Latin.runtime) Samples.one_day_null_item
    Samples.a_day Samples.question 2 200 []
  = (inl (AttributeError JNone "get"), [Samples.a_day])
  /\
  search_recent_decisions (R := Latin.runtime) Samples.one_day_down
    Samples.a_day Samples.question 2 200 []
  = (inr [Samples.item_decision], [Samples.a_day; Samples.a_day - 1]).
Proof.
  split; [| split]; vm_compute; reflexivity.
Qed.

(* ===================================================================== *)
(** ** The submission boundary                                            *)
(* ===================================================================== *)

Section Boundary.
Context {R : PyRuntime}.
Variable remote : date -> exn + json.
Variable today : date.
Variable backend : Provider -> pystr -> pystr -> exn + LawmateAnswer.
Variable SYSTEM_BASE : pystr.
Variable make_user_prompt : pystr -> pystr -> pystr -> pystr.
Variable dumps_indent : list Source -> pystr.
Variable dumps : list SourceItem -> pystr.

(** [Worker.run] always emits, and an exception of the [try] block is
    emitted with the light "red" and the sources "[]". *)
Lemma run_emits_exception cfg category question e log :
  run_body remote today backend SYSTEM_BASE make_user_prompt dumps_indent dumps
    cfg category question [] = (inl e, log) ->
  run remote today backend SYSTEM_BASE make_user_prompt dumps_indent dumps
    cfg category question = ((inl e, utf8 "red", utf8 "[]"), log).
Proof.
  intros H. unfold run. rewrite H. reflexivity.
Qed.

(** The [try] block raises only where one of its three stages does. *)
Lemma run_body_raises_cases cfg category question e log :
  run_body remote today backend SYSTEM_BASE make_user_prompt dumps_indent dumps
    cfg category question [] = (inl e, log) ->
  let search :=
    fst (search_recent_decisions remote today question
           (justice_lookback_days cfg) (justice_max_items_per_day cfg) []) in
  search = inl e \/
  (exists ds, search = inr ds /\ make_provider cfg = inl e) \/
  (exists ds p,
      search = inr ds /\ make_provider cfg = inr p /\
      generate backend p SYSTEM_BASE
        (make_user_prompt category question
           match decisions_to_sources ds with
           | [] => utf8 "[]"
           | _ => dumps_indent (decisions_to_sources ds)
           end) = inl e).
Proof.
  unfold run_body. unfold bind at 1.
  destruct (search_recent_decisions remote today question _ _ []) as [[e0 | ds] log0];
    cbn [fst].
  - intros H. injection H as -> _. left; reflexivity.
  - unfold bind at 1.
    destruct (make_provider cfg) as [e1 | p]; cbn [lift raise ret].
    + intros H. injection H as -> _. right; left. exists ds. split; reflexivity.
    + unfold bind at 1.
      destruct (generate backend p SYSTEM_BASE _) as [e2 | ans] eqn:G;
        cbn [lift raise ret].
      * intros H. injection H as -> _. right; right. exists ds, p.
        repeat split; try reflexivity. exact G.
      * unfold ret. intros H. discriminate.
Qed.

(** While a chat is open as [on_done] runs: an exception raised by the
    retrieval, by the construction of the provider or by the generation
    is caught by [Worker.run] and emitted with the light "red" and the
    sources "[]"; [on_done] then appends to the open session one assistant
    message that carries the exception's type name, its message and the
    configuration hint, with traffic light "red" and sources "[]". *)
Theorem pipeline_errors_are_persisted :
  forall (cfg : AppConfig) (category question : pystr) (w : MainWindow)
         (sid : Z) (e : exn) (now1 now2 : pystr),
    let search :=
      fst (search_recent_decisions remote today question
             (justice_lookback_days cfg) (justice_max_items_per_day cfg) []) in
    let sources_block (ds : list JusticeDecision) :=
      match decisions_to_sources ds with
      | [] => utf8 "[]"
      | _ => dumps_indent (decisions_to_sources ds)
      end in
    search = inl e \/
    (exists ds, search = inr ds /\ make_provider cfg = inl e) \/
    (exists ds p,
        search = inr ds /\ make_provider cfg = inr p /\
        generate backend p SYSTEM_BASE
          (make_user_prompt category question (sources_block ds)) = inl e) ->
    current_session_id w = Some sid ->
    let row := {|
      m_id := last_message_id (db w) + 1;
      m_session_id := sid;
      m_role := utf8 "assistant";
      m_content := utf8 "Nastala chyba: <b>" ++ exc_type e ++ utf8 "</b><br>"
                     ++ exc_msg e
                     ++ utf8 "<br><br>Tip: zkontroluj `.env` a provider.";
      m_traffic_light := Some (utf8 "red");
      m_sources_json := Some (utf8 "[]");
      m_created_at := now1
    |} in
    let emitted :=
      fst (run remote today backend SYSTEM_BASE make_user_prompt dumps_indent
             dumps cfg category question) in
    emitted = (inl e, utf8 "red", utf8 "[]") /\
    exists w',
      on_done w emitted now1 now2 = inr w' /\
      current_session_id w' = Some sid /\
      messages (db w') = messages (db w) ++ [row] /\
      get_messages (db w') sid = get_messages (db w) sid ++ [row].
Proof.
  intros cfg category question w sid e now1 now2 search sources_block Hraised Hsid
         row emitted.
  assert (Hrun : emitted = (inl e, utf8 "red", utf8 "[]")).
  { subst emitted. unfold run, run_body. unfold bind at 1.
    subst search.
    destruct (search_recent_decisions remote today question _ _ []) as [[e0 | ds] log].
    - destruct Hraised as [H | [[ds [H _]] | [ds [p [H _]]]]];
        simpl in H; try discriminate.
      injection H as ->. reflexivity.
    - destruct Hraised as [H | [[ds' [H Hp]] | [ds' [p [H [Hp Hg]]]]]];
        simpl in H; try discriminate; injection H as <-.
      + unfold bind at 1. rewrite Hp. reflexivity.
      + unfold bind at 1. rewrite Hp. unfold lift at 1. unfold ret at 1.
        unfold bind at 1. subst sources_block. cbv beta in Hg. rewrite Hg.
        reflexivity. }
  split; [exact Hrun |].
  rewrite Hrun. unfold on_done, add_message. rewrite Hsid.
  eexists. split; [reflexivity |]. cbn [current_session_id db messages].
  split; [reflexivity |]. split; [reflexivity |].
  unfold get_messages. cbn [messages]. rewrite filter_app. simpl.
  rewrite Z.eqb_refl. reflexivity.
Qed.

End Boundary.

(** C9. The hosted provider is selected without an API key and the only
    chat is open.  The user sends "Mám dluh u souseda"; the question is
    stored and a worker is started.  While the worker scans the two days
    of the window, the user deletes the chat and confirms, which leaves no
    chat open.  The worker then emits LLMError with the light "red" and
    the sources "[]", and [on_done] stores under the current session id,
    which is [None]: the INSERT fails with IntegrityError, the exception
    leaves [on_done], and no message with the error is stored. *)
Theorem pipeline_error_lost_after_delete :
  exists (s : Sent) (w : MainWindow),
    on_send (R := Latin.runtime) Samples.window Samples.question OBCANSKE_PRAVO
      (utf8 "2026-11-03T10:00:01") (utf8 "2026-11-03T10:00:01") = inr s /\
    sent_worker s = Some (OBCANSKE_PRAVO, Samples.question) /\
    get_messages (db (sent_window s)) 1
    = [ {| m_id := 1;
           m_session_id := 1;
           m_role := utf8 "user";
           m_content := Samples.question;
           m_traffic_light := None;
           m_sources_json := None;
           m_created_at := utf8 "2026-11-03T10:00:01" |} ] /\
    delete_current_chat Worlds.newest_first (sent_window s) true = w /\
    current_session_id w = None /\
    run (R := Latin.runtime) Samples.all_good Samples.a_day Samples.no_backend []
      Samples.prompt (fun _ => []) (fun _ => []) (Samples.config "openai" 2)
      OBCANSKE_PRAVO Samples.question
    = ((inl (LLMError "OPENAI_API_KEY chybí v .env"), utf8 "red", utf8 "[]"),
       [Samples.a_day; Samples.a_day - 1]) /\
    on_done w (inl (LLMError "OPENAI_API_KEY chybí v .env"), utf8 "red", utf8 "[]")
      (utf8 "2026-11-03T10:00:05") (utf8 "2026-11-03T10:00:05")
    = inl (IntegrityError "NOT NULL constraint failed: messages.session_id") /\
    messages (db w) = [].
Proof.
  refine (ex_intro _ _ (ex_intro _ _ _)).
  split; [vm_compute; reflexivity |].
  split; [vm_compute; reflexivity |].
  split; [vm_compute; reflexivity |].
  split; [vm_compute; reflexivity |].
  split; [vm_compute; reflexivity |].
  split; [vm_compute; reflexivity |].
  split; [vm_compute; reflexivity | vm_compute; reflexivity].
Qed.

(* ===================================================================== *)
(** ** The theorems at the sample inputs                                  *)
(* ===================================================================== *)

Lemma absent_terms terms t :
  forallb (fun term => negb (str_in term t)) terms = true ->
  forall term, In term terms -> str_in term t = false.
Proof.
  intros H term Hin. rewrite forallb_forall in H.
  apply H in Hin. destruct (str_in term t); [discriminate | reflexivity].
Defined.

Lemma absent_terms_but terms t v :
  forallb (fun term => str_eqb term v || negb (str_in term t)) terms = true ->
  forall term, In term terms -> term <> v -> str_in term t = false.
Proof.
  intros H term Hin Hne. rewrite forallb_forall in H.
  apply H in Hin. apply orb_true_iff in Hin. destruct Hin as [E | E].
  - apply str_eqb_eq in E. contradiction.
  - destruct (str_in term t); [discriminate | reflexivity].
Defined.

Module Witness.

Import Samples.

#[local] Existing Instance Latin.runtime.

Example extract_keywords_sample :
  extract_keywords (utf8 "Mám dluh dluh u sousedy") 12
  = [utf8 "mám"; utf8 "dluh"; utf8 "sousedy"].
Proof. vm_compute. reflexivity. Qed.

Example normalize_text_sample :
  normalize_text (utf8 "  Mám   dluh
	u souseda ") = utf8 "Mám dluh u souseda".
Proof. vm_compute. reflexivity. Qed.

Example heuristic_risk_score_money_sample :
  heuristic_risk_score (utf8 "Dlužím 10 000 Kč do zítra") TRESTNI_PRAVO = 50.
Proof. vm_compute. reflexivity. Qed.

(** Model (green, 20) against the heuristic (red, 80) gives (red, 80);
    model (red, 90) against the heuristic (yellow, 40) stays (red, 90). *)
Lemma reconcile_takes_more_severe_witness :
  let low := set_assessment mock_answer green 20 in
  let high := set_assessment mock_answer red 90 in
  (more_severe
     (traffic_light_from_score
        (heuristic_risk_score (utf8 "policie soud") TRESTNI_PRAVO)) green /\
   traffic_light (reconcile (utf8 "policie soud") TRESTNI_PRAVO low) = red /\
   risk_score (reconcile (utf8 "policie soud") TRESTNI_PRAVO low) = 80) /\
  (~ more_severe
       (traffic_light_from_score
          (heuristic_risk_score (utf8 "policie") OBCANSKE_PRAVO)) red /\
   reconcile (utf8 "policie") OBCANSKE_PRAVO high = high).
Proof.
  intros low high.
  assert (H1 : more_severe
                 (traffic_light_from_score
                    (heuristic_risk_score (utf8 "policie soud") TRESTNI_PRAVO))
                 (traffic_light low)) by (vm_compute; constructor).
  assert (H2 : ~ more_severe
                   (traffic_light_from_score
                      (heuristic_risk_score (utf8 "policie") OBCANSKE_PRAVO))
                   (traffic_light high)).
  { vm_compute. intros H. inversion H. }
  split.
  - split; [exact H1 |].
    pose proof (proj1 (reconcile_takes_more_severe
                         (utf8 "policie soud") TRESTNI_PRAVO low) H1) as [A B].
    split; [rewrite A | rewrite B]; reflexivity.
  - split; [exact H2 |].
    exact (proj1 (proj2 (reconcile_takes_more_severe
                           (utf8 "policie") OBCANSKE_PRAVO high) H2)).
Defined.

(** A greeting scores 10; adding a red and a yellow term raises the
    score; the cap holds. *)
Lemma heuristic_risk_score_monotone_capped_witness :
  ((hits red_terms (str_lower (utf8 "Dobrý den")) <=
    hits red_terms (str_lower (utf8 "Policie a smlouva")))%nat /\
   (hits yellow_terms (str_lower (utf8 "Dobrý den")) <=
    hits yellow_terms (str_lower (utf8 "Policie a smlouva")))%nat /\
   has_money (utf8 "Dobrý den") = has_money (utf8 "Policie a smlouva") /\
   is_urgent (utf8 "Dobrý den") = is_urgent (utf8 "Policie a smlouva") /\
   is_criminal OBCANSKE_PRAVO = is_criminal OBCANSKE_PRAVO) /\
  heuristic_risk_score (utf8 "Dobrý den") OBCANSKE_PRAVO <=
  heuristic_risk_score (utf8 "Policie a smlouva") OBCANSKE_PRAVO /\
  heuristic_risk_score (utf8 "Policie a smlouva") OBCANSKE_PRAVO <= 100 /\
  heuristic_risk_score (utf8 "Dobrý den") OBCANSKE_PRAVO = 10.
Proof.
  assert (Hr : (hits red_terms (str_lower (utf8 "Dobrý den")) <=
                hits red_terms (str_lower (utf8 "Policie a smlouva")))%nat)
    by (vm_compute; lia).
  assert (Hy : (hits yellow_terms (str_lower (utf8 "Dobrý den")) <=
                hits yellow_terms (str_lower (utf8 "Policie a smlouva")))%nat)
    by (vm_compute; lia).
  assert (Hm : has_money (utf8 "Dobrý den") = has_money (utf8 "Policie a smlouva"))
    by (vm_compute; reflexivity).
  assert (Hu : is_urgent (utf8 "Dobrý den") = is_urgent (utf8 "Policie a smlouva"))
    by (vm_compute; reflexivity).
  assert (Hc : is_criminal OBCANSKE_PRAVO = is_criminal OBCANSKE_PRAVO)
    by reflexivity.
  destruct heuristic_risk_score_monotone_capped as [_ [Mono [Cap Base]]].
  split; [split; [exact Hr | split; [exact Hy | split; [exact Hm | split; [exact Hu | exact Hc]]]] |].
  split; [| split].
  - exact (Mono _ _ _ _ Hr Hy Hm Hu Hc).
  - apply Cap.
  - apply Base.
    + apply absent_terms; vm_compute; reflexivity.
    + apply absent_terms; vm_compute; reflexivity.
    + vm_compute; reflexivity.
    + vm_compute; reflexivity.
    + vm_compute; reflexivity.
Defined.

(** "Dostal jsem výpověď" under the civil category scores 55. *)
Lemma heuristic_risk_score_shared_term_witness :
  str_in (utf8 "výpověď") (str_lower (utf8 "Dostal jsem výpověď")) = true /\
  has_money (utf8 "Dostal jsem výpověď") = false /\
  is_urgent (utf8 "Dostal jsem výpověď") = false /\
  is_criminal OBCANSKE_PRAVO = false /\
  heuristic_risk_score (utf8 "Dostal jsem výpověď") OBCANSKE_PRAVO = 55.
Proof.
  assert (Hv : str_in (utf8 "výpověď") (str_lower (utf8 "Dostal jsem výpověď")) = true)
    by (vm_compute; reflexivity).
  assert (Hm : has_money (utf8 "Dostal jsem výpověď") = false)
    by (vm_compute; reflexivity).
  assert (Hu : is_urgent (utf8 "Dostal jsem výpověď") = false)
    by (vm_compute; reflexivity).
  assert (Hc : is_criminal OBCANSKE_PRAVO = false)
    by (vm_compute; reflexivity).
  split; [exact Hv | split; [exact Hm | split; [exact Hu | split; [exact Hc |]]]].
  apply (proj2 (proj2 heuristic_risk_score_shared_term) _ _ Hv); try assumption.
  - apply absent_terms_but; vm_compute; reflexivity.
  - apply absent_terms_but; vm_compute; reflexivity.
Defined.

(** A text with "trestní oznámení" is criminal; a greeting is general. *)
Lemma infer_category_picks_highest_witness :
  (0 < domain_score trest_terms (utf8 "Podal na mě trestní oznámení") /\
   domain_score obc_terms (utf8 "Podal na mě trestní oznámení") <=
   domain_score trest_terms (utf8 "Podal na mě trestní oznámení") /\
   domain_score legal_terms (utf8 "Podal na mě trestní oznámení") <=
   domain_score trest_terms (utf8 "Podal na mě trestní oznámení") /\
   infer_category (utf8 "Podal na mě trestní oznámení") = TRESTNI_PRAVO) /\
  (domain_score trest_terms (utf8 "Dobrý den") = 0 /\
   domain_score obc_terms (utf8 "Dobrý den") = 0 /\
   domain_score legal_terms (utf8 "Dobrý den") = 0 /\
   infer_category (utf8 "Dobrý den") = PRAVNI_RAD).
Proof.
  split.
  - assert (H1 : 0 < domain_score trest_terms (utf8 "Podal na mě trestní oznámení"))
      by (vm_compute; reflexivity).
    assert (H2 : domain_score obc_terms (utf8 "Podal na mě trestní oznámení") <=
                 domain_score trest_terms (utf8 "Podal na mě trestní oznámení"))
      by (vm_compute; discriminate).
    assert (H3 : domain_score legal_terms (utf8 "Podal na mě trestní oznámení") <=
                 domain_score trest_terms (utf8 "Podal na mě trestní oznámení"))
      by (vm_compute; discriminate).
    split; [exact H1 | split; [exact H2 | split; [exact H3 |]]].
    exact (proj1 (infer_category_picks_highest
                    (utf8 "Podal na mě trestní oznámení")) H1 H2 H3).
  - assert (H1 : domain_score trest_terms (utf8 "Dobrý den") = 0)
      by (vm_compute; reflexivity).
    assert (H2 : domain_score obc_terms (utf8 "Dobrý den") = 0)
      by (vm_compute; reflexivity).
    assert (H3 : domain_score legal_terms (utf8 "Dobrý den") = 0)
      by (vm_compute; reflexivity).
    split; [exact H1 | split; [exact H2 | split; [exact H3 |]]].
    exact (proj2 (proj2 (proj2 (infer_category_picks_highest (utf8 "Dobrý den"))))
             H1 H2 H3).
Defined.

(** A question of stopwords only, and a window of 0 days: the search
    returns the empty list and requests no day. *)
Lemma search_recent_decisions_short_circuit_witness :
  (extract_keywords (utf8 "a co") 12 = [] \/ 14 <= 0) /\
  search_recent_decisions all_good a_day (utf8 "a co") 14 200 [] = (inr [], []) /\
  (extract_keywords question 12 = [] \/ 0 <= 0) /\
  search_recent_decisions all_good a_day question 0 200 [] = (inr [], []).
Proof.
  assert (H1 : extract_keywords (utf8 "a co") 12 = [] \/ 14 <= 0)
    by (left; vm_compute; reflexivity).
  assert (H2 : extract_keywords question 12 = [] \/ 0 <= 0)
    by (right; lia).
  split; [exact H1 | split; [| split; [exact H2 |]]].
  - exact (search_recent_decisions_short_circuit all_good a_day
             (utf8 "a co") 14 200 [] H1).
  - exact (search_recent_decisions_short_circuit all_good a_day
             question 0 200 [] H2).
Defined.

Lemma good_page_well_formed :
  well_formed_day 200 (inr good_page).
Proof.
  vm_compute. repeat constructor; eexists; reflexivity.
Defined.

(** Two days, the first one down: the second day's matching item is the
    only candidate, scored 1/3, and it is the result. *)
Lemma search_recent_decisions_ranks_witness :
  2 <= a_day /\
  (forall i, 0 <= i < 2 -> well_formed_day 200 (one_day_down (a_day - i))) /\
  stable_sort_of [item_decision] [item_decision] /\
  fst (search_recent_decisions one_day_down a_day question 2 200 [])
  = inr (firstn 5 [item_decision]).
Proof.
  assert (H2 : 2 <= a_day) by (unfold a_day; lia).
  assert (H3 : forall i, 0 <= i < 2 -> well_formed_day 200 (one_day_down (a_day - i))).
  { intros i Hi. assert (E : i = 0 \/ i = 1) by lia.
    destruct E as [-> | ->]; [exact I | exact good_page_well_formed]. }
  split; [exact H2 | split; [exact H3 |]].
  assert (Hs : stable_sort_of [item_decision] [item_decision]).
  { split; [apply Permutation_refl | split].
    - repeat constructor.
    - intros v; reflexivity. }
  split; [exact Hs |].
  pose proof (proj2 (proj2 (search_recent_decisions_ranks one_day_down a_day
                              question 2 200 [] H2 H3))) as Hres.
  match type of Hres with
  | forall ranked, stable_sort_of ranked ?c -> _ =>
      assert (E : c = [item_decision]) by (vm_compute; reflexivity);
      rewrite E in Hres
  end.
  exact (Hres [item_decision] Hs).
Defined.

(** The hosted provider without an API key: the construction raises
    LLMError, and the open session gets the error message. *)
Lemma pipeline_errors_are_persisted_witness :
  let cfg := config "openai" 0 in
  let e := LLMError "OPENAI_API_KEY chybí v .env" in
  let emitted :=
    fst (run all_good a_day no_backend [] prompt (fun _ => []) (fun _ => [])
           cfg OBCANSKE_PRAVO question) in
  (exists ds,
      fst (search_recent_decisions all_good a_day question
             (justice_lookback_days cfg) (justice_max_items_per_day cfg) [])
      = inr ds /\
      make_provider cfg = inl e) /\
  current_session_id window = Some 1 /\
  emitted = (inl e, utf8 "red", utf8 "[]") /\
  exists w',
    on_done window emitted (utf8 "2026-11-03T10:00:05") (utf8 "2026-11-03T10:00:05")
    = inr w' /\
    get_messages (db w') 1 =
    [ {| m_id := 1;
         m_session_id := 1;
         m_role := utf8 "assistant";
         m_content := utf8 "Nastala chyba: <b>LLMError</b><br>OPENAI_API_KEY chybí v .env<br><br>Tip: zkontroluj `.env` a provider.";
         m_traffic_light := Some (utf8 "red");
         m_sources_json := Some (utf8 "[]");
         m_created_at := utf8 "2026-11-03T10:00:05" |} ].
Proof.
  intros cfg e emitted.
  assert (H1 : exists ds,
             fst (search_recent_decisions all_good a_day question
                    (justice_lookback_days cfg) (justice_max_items_per_day cfg) [])
             = inr ds /\
             make_provider cfg = inl e)
    by (exists []; split; vm_compute; reflexivity).
  assert (H2 : current_session_id window = Some 1) by reflexivity.
  destruct (pipeline_errors_are_persisted all_good a_day no_backend [] prompt
              (fun _ => []) (fun _ => []) cfg OBCANSKE_PRAVO question window 1 e
              (utf8 "2026-11-03T10:00:05") (utf8 "2026-11-03T10:00:05")
              (or_intror (or_introl H1)) H2)
    as [Hrun [w' [Hdone [_ [_ Hget]]]]].
  split; [exact H1 | split; [exact H2 | split; [exact Hrun |]]].
  exists w'. split; [exact Hdone |].
  rewrite Hget. vm_compute. reflexivity.
Defined.

End Witness.

(* ===================================================================== *)
(** ** Whitespace normalization                                           *)
(* ===================================================================== *)

Lemma lstrip_app_cons a c r :
  is_space c = false -> lstrip (a ++ c :: r) = lstrip a ++ c :: r.
Proof.
  intros Hc. induction a as [| x a IH]; simpl.
  - rewrite Hc. reflexivity.
  - destruct (is_space x); [exact IH | reflexivity].
Qed.

Lemma lstrip_all_space a : forallb is_space a = true -> lstrip a = [].
Proof.
  induction a as [| x a IH]; simpl; [reflexivity |].
  intros H. apply andb_true_iff in H. destruct H as [Hx Ha].
  rewrite Hx. apply IH, Ha.
Qed.

Lemma lstrip_nil_iff a : lstrip a = [] <-> forallb is_space a = true.
Proof.
  split; [| apply lstrip_all_space].
  induction a as [| x a IH]; simpl; [reflexivity |].
  destruct (is_space x); [exact IH | discriminate].
Qed.

(** [rstrip] read from the left: a code point stays unless it is
    whitespace and everything after it is stripped. *)
Lemma rstrip_cons c l :
  rstrip (c :: l) =
  match rstrip l with
  | [] => if is_space c then [] else [c]
  | _ => c :: rstrip l
  end.
Proof.
  unfold rstrip. simpl rev.
  assert (E : forall a, lstrip (a ++ [c]) =
                        match lstrip a with
                        | [] => lstrip [c]
                        | _ => lstrip a ++ [c]
                        end).
  { induction a as [| x a IH]; simpl; [reflexivity |].
    destruct (is_space x); [exact IH | reflexivity]. }
  rewrite E. destruct (lstrip (rev l)) as [| y t] eqn:El; simpl.
  - destruct (is_space c); reflexivity.
  - rewrite rev_app_distr. simpl.
    destruct (rev t ++ [y]) eqn:Er; [destruct (rev t); discriminate |].
    reflexivity.
Qed.

Lemma rstrip_nil_iff l : rstrip l = [] <-> forallb is_space l = true.
Proof.
  induction l as [| c l IH]; [split; reflexivity |].
  rewrite rstrip_cons. simpl. destruct (rstrip l) as [| y t].
  - destruct (is_space c); simpl.
    + apply IH.
    + split; discriminate.
  - split; [discriminate |]. intros H. apply andb_true_iff in H.
    destruct H as [_ H]. apply IH in H. discriminate.
Qed.


Lemma closed_cons c r : r <> [] -> closed (c :: r) = closed r.
Proof. destruct r; [congruence | reflexivity]. Qed.

Lemma rstrip_closed l : closed (rstrip l) = true.
Proof.
  induction l as [| c l IH]; [reflexivity |].
  rewrite rstrip_cons. destruct (rstrip l) as [| y t] eqn:E.
  - destruct (is_space c) eqn:Ec; simpl; [reflexivity | rewrite Ec; reflexivity].
  - rewrite closed_cons by discriminate. exact IH.
Qed.

Lemma rstrip_head c l : is_space c = false -> exists t, rstrip (c :: l) = c :: t.
Proof.
  intros Hc. rewrite rstrip_cons. destruct (rstrip l).
  - rewrite Hc. eexists; reflexivity.
  - eexists; reflexivity.
Qed.

(** [strip] leaves nothing or a text that starts and ends with a
    non-space. *)
Lemma strip_shape s :
  strip s = [] \/
  exists c t, strip s = c :: t /\ is_space c = false /\ closed (c :: t) = true.
Proof.
  unfold strip. destruct (lstrip s) as [| c r] eqn:E; [left; reflexivity |].
  right. assert (Hc : is_space c = false).
  { clear - E. induction s as [| x s IH]; simpl in E; [discriminate |].
    destruct (is_space x) eqn:Ex; [apply IH, E |].
    injection E as -> _. exact Ex. }
  destruct (rstrip_head c r Hc) as [t Ht]. exists c, t.
  split; [exact Ht | split; [exact Hc |]].
  rewrite <- Ht. apply rstrip_closed.
Qed.

Lemma split_go_lstrip s : split_go [] (lstrip s) = split_go [] s.
Proof.
  induction s as [| c s IH]; simpl; [reflexivity |].
  destruct (is_space c) eqn:Ec; [exact IH |].
  simpl. rewrite Ec. reflexivity.
Qed.

Lemma split_go_spaces cur ws :
  forallb is_space ws = true ->
  split_go cur ws = match cur with [] => [] | _ => [rev cur] end.
Proof.
  revert cur. induction ws as [| c ws IH]; intros cur H; simpl; [reflexivity |].
  simpl in H. apply andb_true_iff in H. destruct H as [Hc Hws].
  rewrite Hc, (IH [] Hws). simpl. rewrite app_nil_r. reflexivity.
Qed.

Lemma split_go_rstrip cur l : split_go cur (rstrip l) = split_go cur l.
Proof.
  revert cur. induction l as [| c l IH]; intros cur; [reflexivity |].
  rewrite rstrip_cons. destruct (rstrip l) as [| y t] eqn:E.
  - apply rstrip_nil_iff in E.
    destruct (is_space c) eqn:Ec; simpl; rewrite Ec.
    + rewrite (split_go_spaces [] l E). rewrite app_nil_r. reflexivity.
    + rewrite (split_go_spaces (c :: cur) l E). reflexivity.
  - change (split_go cur (c :: y :: t)) with
      (if is_space c
       then match cur with [] => [] | _ => [rev cur] end ++ split_go [] (y :: t)
       else split_go (c :: cur) (y :: t)).
    rewrite !IH. reflexivity.
Qed.

Lemma str_split_strip s : str_split (strip s) = str_split s.
Proof.
  unfold str_split, strip. rewrite split_go_rstrip. apply split_go_lstrip.
Qed.

Lemma split_go_nonempty cur s :
  s <> [] -> closed s = true -> split_go cur s <> [].
Proof.
  revert cur. induction s as [| c s IH]; intros cur Hne Hcl; [congruence |].
  destruct s as [| d s'].
  - simpl in *. destruct (is_space c); [discriminate |]. discriminate.
  - rewrite closed_cons in Hcl by discriminate.
    change (split_go cur (c :: d :: s')) with
      (if is_space c
       then match cur with [] => [] | _ => [rev cur] end ++ split_go [] (d :: s')
       else split_go (c :: cur) (d :: s')).
    destruct (is_space c).
    + intros H. apply app_eq_nil in H. destruct H as [_ H].
      revert H. apply IH; [discriminate | exact Hcl].
    + apply IH; [discriminate | exact Hcl].
Qed.

Lemma join_cons sep w ws :
  ws <> [] -> join sep (w :: ws) = w ++ sep ++ join sep ws.
Proof. destruct ws; [congruence | reflexivity]. Qed.

Lemma sub_ws_cons f c s :
  sub_ws f (c :: s) =
  if is_space c then (if f then sub_ws true s else 32%N :: sub_ws true s)
  else c :: sub_ws false s.
Proof. reflexivity. Qed.

Lemma split_go_cons cur c s :
  split_go cur (c :: s) =
  if is_space c
  then match cur with [] => [] | _ => [rev cur] end ++ split_go [] s
  else split_go (c :: cur) s.
Proof. reflexivity. Qed.

(** [re.sub] against [split]: inside a word ([sub_ws false], the word
    read so far in [cur]) and inside a whitespace run ([sub_ws true]). *)
Lemma sub_ws_join s :
  closed s = true ->
  (forall cur, (cur = [] -> match s with c :: _ => is_space c = false | [] => True end) ->
     rev cur ++ sub_ws false s = join [32%N] (split_go cur s)) /\
  (s <> [] -> sub_ws true s = join [32%N] (split_go [] s)).
Proof.
  induction s as [| c s IH]; intros Hcl.
  - split; [| congruence]. intros cur _. simpl.
    destruct cur; simpl; [reflexivity | rewrite app_nil_r; reflexivity].
  - assert (Hs' : closed s = true).
    { destruct s; [reflexivity |]. rewrite closed_cons in Hcl by discriminate.
      exact Hcl. }
    destruct (IH Hs') as [IHword IHrun].
    assert (Hlast : is_space c = true -> s <> []).
    { intros Hc ->. simpl in Hcl. rewrite Hc in Hcl. discriminate. }
    split.
    + intros cur Hcur. rewrite sub_ws_cons, split_go_cons.
      destruct (is_space c) eqn:Ec.
      * destruct cur as [| x cur']; [specialize (Hcur eq_refl); congruence |].
        rewrite (IHrun (Hlast eq_refl)).
        change ([rev (x :: cur')] ++ split_go [] s)
          with (rev (x :: cur') :: split_go [] s).
        rewrite join_cons by (apply split_go_nonempty; auto).
        reflexivity.
      * rewrite <- IHword by discriminate.
        simpl. rewrite <- app_assoc. reflexivity.
    + intros _. rewrite sub_ws_cons, split_go_cons.
      destruct (is_space c) eqn:Ec.
      * simpl. apply IHrun, Hlast; reflexivity.
      * rewrite <- (IHword [c]) by discriminate. reflexivity.
Qed.

Lemma split_go_sub_ws s :
  (forall cur, split_go cur (sub_ws false s) = split_go cur s) /\
  split_go [] (sub_ws true s) = split_go [] s.
Proof.
  assert (Sp : is_space 32%N = true) by reflexivity.
  induction s as [| c s [IH1 IH2]]; [split; reflexivity |].
  split.
  - intros cur. rewrite sub_ws_cons, (split_go_cons cur c s).
    destruct (is_space c) eqn:Ec.
    + rewrite split_go_cons, Sp, IH2. reflexivity.
    + rewrite split_go_cons, Ec. apply IH1.
  - rewrite sub_ws_cons, (split_go_cons [] c s).
    destruct (is_space c) eqn:Ec.
    + rewrite IH2. reflexivity.
    + rewrite split_go_cons, Ec. apply IH1.
Qed.

(** X1. [normalize_text] returns the words of the text joined by single
    spaces, the same as [" ".join(text.split())], and applying it twice
    changes nothing more. *)
Theorem normalize_text_words :
  forall text : pystr,
    normalize_text text = join [32%N] (str_split text) /\
    normalize_text (normalize_text text) = normalize_text text.
Proof.
  assert (W : forall text, normalize_text text = join [32%N] (str_split text)).
  { intros text. unfold normalize_text.
    rewrite <- (str_split_strip text). unfold str_split.
    destruct (strip_shape text) as [E | [c [t [E [Hc Hcl]]]]]; rewrite E.
    - reflexivity.
    - destruct (sub_ws_join (c :: t) Hcl) as [H _].
      rewrite <- (H []); [reflexivity | intros _; exact Hc]. }
  intros text. split; [apply W |].
  transitivity (join [32%N] (str_split text)); [| symmetry; apply W].
  rewrite (W (normalize_text text)).
  f_equal. unfold normalize_text, str_split.
  rewrite (proj1 (split_go_sub_ws (strip text))).
  apply str_split_strip.
Qed.

Lemma normalize_text_nil_iff s :
  normalize_text s = [] <-> forallb is_space s = true.
Proof.
  unfold normalize_text. split.
  - intros H. assert (E : strip s = []).
    { destruct (strip s) as [| c t]; [reflexivity |].
      rewrite sub_ws_cons in H. destruct (is_space c); discriminate. }
    unfold strip in E. apply rstrip_nil_iff in E.
    destruct (lstrip s) as [| c t] eqn:El.
    + apply lstrip_nil_iff; exact El.
    + exfalso. assert (Hc : is_space c = false).
      { clear - El. induction s as [| x s IH]; simpl in El; [discriminate |].
        destruct (is_space x) eqn:Ex; [apply IH, El |].
        injection El as -> _. exact Ex. }
      simpl in E. rewrite Hc in E. discriminate.
  - intros H. unfold strip. rewrite (lstrip_all_space s H). reflexivity.
Qed.

(* ===================================================================== *)
(** ** Keyword extraction: what the result looks like                     *)
(* ===================================================================== *)

Lemma findall_runs_nil cls cur :
  findall_runs cls cur [] = if (3 <=? length cur)%nat then [rev cur] else [].
Proof. reflexivity. Qed.

Lemma findall_runs_cons cls cur c s :
  findall_runs cls cur (c :: s) =
  if cls c then findall_runs cls (c :: cur) s
  else (if (3 <=? length cur)%nat then [rev cur] else [])
         ++ findall_runs cls [] s.
Proof. reflexivity. Qed.

Lemma findall_runs_shape cls cur s w :
  forallb cls cur = true ->
  In w (findall_runs cls cur s) ->
  (3 <= length w)%nat /\ forallb cls w = true /\
  exists pre post, rev cur ++ s = pre ++ w ++ post.
Proof.
  revert cur.
  assert (Emit : forall cur rest,
             forallb cls cur = true ->
             In w (if (3 <=? length cur)%nat then [rev cur] else []) ->
             (3 <= length w)%nat /\ forallb cls w = true /\
             exists pre post, rev cur ++ rest = pre ++ w ++ post).
  { intros cur rest Hcur Hin.
    destruct (Nat.leb_spec 3 (length cur)) as [Hlen | Hlen]; [| destruct Hin].
    destruct Hin as [<- | []]. rewrite length_rev. split; [exact Hlen |].
    split.
    - rewrite forallb_forall in *. intros x Hx. apply Hcur, in_rev, Hx.
    - exists [], rest. reflexivity. }
  induction s as [| c s IH]; intros cur Hcur Hin.
  - rewrite findall_runs_nil in Hin. apply Emit; assumption.
  - rewrite findall_runs_cons in Hin. destruct (cls c) eqn:Ec.
    + destruct (IH (c :: cur)) as [H1 [H2 [pre [post H3]]]]; auto.
      { simpl. rewrite Ec, Hcur. reflexivity. }
      split; [exact H1 | split; [exact H2 |]].
      exists pre, post. rewrite <- H3. simpl. rewrite <- app_assoc. reflexivity.
    + apply in_app_or in Hin. destruct Hin as [Hin | Hin].
      * apply Emit; assumption.
      * destruct (IH [] eq_refl Hin) as [H1 [H2 [pre [post H3]]]].
        split; [exact H1 | split; [exact H2 |]].
        exists (rev cur ++ c :: pre), post. simpl in H3. rewrite H3.
        rewrite <- app_assoc. reflexivity.
Qed.

Lemma startswith_app w post : startswith (w ++ post) w = true.
Proof.
  induction w as [| x w IH]; simpl.
  - destruct post; reflexivity.
  - rewrite N.eqb_refl. exact IH.
Qed.

Lemma str_in_unfold needle hay :
  str_in needle hay =
  startswith hay needle ||
  match hay with
  | [] => false
  | _ :: hay' => str_in needle hay'
  end.
Proof. destruct hay; reflexivity. Qed.

Lemma str_in_app pre w post : str_in w (pre ++ w ++ post) = true.
Proof.
  induction pre as [| x pre IH].
  - rewrite str_in_unfold. simpl app. rewrite startswith_app. reflexivity.
  - change ((x :: pre) ++ w ++ post) with (x :: (pre ++ w ++ post)).
    rewrite str_in_unfold, IH. apply orb_true_r.
Qed.

Lemma kw_loop_prefix words seen out cap :
  exists t, kw_loop words seen out cap = out ++ t.
Proof.
  revert seen out. induction words as [| w rest IH]; intros seen out; simpl.
  - exists []. rewrite app_nil_r. reflexivity.
  - destruct (mem w seen); [apply IH |].
    destruct (Z.of_nat (length (out ++ [w])) >=? cap).
    + exists [w]. reflexivity.
    + destruct (IH (w :: seen) (out ++ [w])) as [t Ht].
      exists (w :: t). rewrite Ht, <- app_assoc. reflexivity.
Qed.

Lemma kw_loop_cap words seen out m n :
  Z.of_nat (length out) < m -> m <= n ->
  kw_loop words seen out m = firstn (Z.to_nat m) (kw_loop words seen out n).
Proof.
  revert seen out. induction words as [| w rest IH]; intros seen out Hlen Hmn; simpl.
  - rewrite firstn_all2 by lia. reflexivity.
  - destruct (mem w seen); [apply IH; assumption |].
    assert (E : Z.of_nat (length (out ++ [w])) = Z.of_nat (length out) + 1)
      by (rewrite length_app; simpl; lia).
    destruct (Z.geb_spec (Z.of_nat (length (out ++ [w]))) m) as [Hm | Hm].
    + assert (Hexact : Z.to_nat m = length (out ++ [w])) by lia.
      destruct (Z.geb_spec (Z.of_nat (length (out ++ [w]))) n).
      * rewrite firstn_all2 by lia. reflexivity.
      * destruct (kw_loop_prefix rest (w :: seen) (out ++ [w]) n) as [t ->].
        rewrite Hexact, firstn_app, Nat.sub_diag, firstn_all. simpl.
        rewrite app_nil_r. reflexivity.
    + destruct (Z.geb_spec (Z.of_nat (length (out ++ [w]))) n); [lia |].
      apply IH; lia.
Qed.

Section KeywordShape.
Context {R : PyRuntime}.

(** X2. Under a cap of at least 1, the keywords are pairwise distinct
    and at most [max_keywords] many; each one is not a stopword, is at
    least three code points long, consists of members of the keyword
    class, and occurs in the lowercased normalized text. *)
Theorem extract_keywords_invariant :
  forall (text : pystr) (max_keywords : Z),
    1 <= max_keywords ->
    NoDup (extract_keywords text max_keywords) /\
    Z.of_nat (length (extract_keywords text max_keywords)) <= max_keywords /\
    forall w, In w (extract_keywords text max_keywords) ->
      ~ In w _CZ_STOPWORDS /\
      (3 <= length w)%nat /\
      forallb (re_ignorecase kw_class) w = true /\
      str_in w (str_lower (normalize_text text)) = true.
Proof.
  intros text max_keywords Hcap. split; [| split].
  - unfold extract_keywords. apply kw_loop_NoDup; [constructor | intros w []].
  - pose proof (extract_keywords_length text max_keywords). lia.
  - intros w Hw. unfold extract_keywords in Hw.
    apply kw_loop_incl in Hw. destruct Hw as [[] | Hw].
    apply filter_In in Hw. destruct Hw as [Hrun Hstop].
    split.
    + intros Hin. apply mem_In in Hin. rewrite Hin in Hstop. discriminate.
    + destruct (findall_runs_shape (re_ignorecase kw_class) [] _ w eq_refl Hrun)
        as [H3 [Hcls [pre [post Hsub]]]].
      split; [exact H3 | split; [exact Hcls |]].
      simpl in Hsub. rewrite Hsub. apply str_in_app.
Qed.

(** X3. The cap only cuts: for caps 1 <= m <= n, the keywords under [m]
    are the first [m] of the keywords under [n]. *)
Theorem extract_keywords_cap_prefix :
  forall (text : pystr) (m n : Z),
    1 <= m -> m <= n ->
    extract_keywords text m = firstn (Z.to_nat m) (extract_keywords text n).
Proof.
  intros text m n Hm Hmn. unfold extract_keywords.
  apply kw_loop_cap; [simpl; lia | exact Hmn].
Qed.

End KeywordShape.

(* ===================================================================== *)
(** ** Category, score and light: ranges                                  *)
(* ===================================================================== *)

Lemma str_neq a b : str_eqb a b = false -> a <> b.
Proof.
  intros H E. apply str_eqb_eq in E. congruence.
Qed.

Section Ranges.
Context {R : PyRuntime}.

(** The outcome of [infer_category], with what each outcome implies for
    the three scores. *)
Lemma infer_category_cases text :
  let st := domain_score trest_terms text in
  let so := domain_score obc_terms text in
  let sl := domain_score legal_terms text in
  (infer_category text = TRESTNI_PRAVO /\ 0 < st /\ so <= st /\ sl <= st) \/
  (infer_category text = OBCANSKE_PRAVO /\ 0 < so /\ st < so /\ sl <= so) \/
  (infer_category text = PRAVNI_RAD /\
   ((st = 0 /\ so = 0 /\ sl = 0) \/ (st < sl /\ so < sl))).
Proof.
  intros st so sl.
  pose proof (infer_category_choice text) as E. cbv zeta in E.
  fold st so sl in E. rewrite E. clear E.
  assert (0 <= st) by (unfold st, domain_score; lia).
  assert (0 <= so) by (unfold so, domain_score; lia).
  assert (0 <= sl) by (unfold sl, domain_score; lia).
  clearbody st so sl.
  destruct (Z.gtb_spec so st); cbn [snd fst];
    match goal with
    | |- context [if sl >? ?y then _ else _] =>
        destruct (Z.gtb_spec sl y); cbn [snd fst]
    end;
    match goal with
    | |- context [if ?x =? 0 then _ else _] => destruct (Z.eqb_spec x 0)
    end;
    match goal with
    | |- (?c = ?c /\ _) \/ _ => left; split; [reflexivity | lia]
    | |- _ \/ (?c = ?c /\ _) \/ _ => right; left; split; [reflexivity | lia]
    | |- _ \/ _ \/ (?c = ?c /\ _) => right; right; split; [reflexivity | lia]
    end.
Qed.

(** X4. [infer_category] returns one of the three official names, never
    the Auto entry of the category box; it returns the criminal or the
    civil name only when that domain matched a term and no earlier
    domain scored as much. *)
Theorem infer_category_official :
  forall text : pystr,
    let st := domain_score trest_terms text in
    let so := domain_score obc_terms text in
    let sl := domain_score legal_terms text in
    In (infer_category text) [TRESTNI_PRAVO; OBCANSKE_PRAVO; PRAVNI_RAD] /\
    infer_category text <> AUTO_CATEGORY /\
    (infer_category text = TRESTNI_PRAVO -> 0 < st /\ so <= st /\ sl <= st) /\
    (infer_category text = OBCANSKE_PRAVO -> 0 < so /\ st < so /\ sl <= so).
Proof.
  intros text st so sl.
  assert (NTO : TRESTNI_PRAVO <> OBCANSKE_PRAVO) by (apply str_neq; reflexivity).
  assert (NTP : TRESTNI_PRAVO <> PRAVNI_RAD) by (apply str_neq; reflexivity).
  assert (NOP : OBCANSKE_PRAVO <> PRAVNI_RAD) by (apply str_neq; reflexivity).
  assert (NTA : TRESTNI_PRAVO <> AUTO_CATEGORY) by (apply str_neq; reflexivity).
  assert (NOA : OBCANSKE_PRAVO <> AUTO_CATEGORY) by (apply str_neq; reflexivity).
  assert (NPA : PRAVNI_RAD <> AUTO_CATEGORY) by (apply str_neq; reflexivity).
  destruct (infer_category_cases text) as [[E H] | [[E H] | [E H]]];
    fold st so sl in H; rewrite E.
  - split; [left; reflexivity |]. split; [exact NTA |].
    split; [intros _; exact H |].
    intros Heq. exfalso. exact (NTO Heq).
  - split; [right; left; reflexivity |]. split; [exact NOA |].
    split; [| intros _; exact H].
    intros Heq. exfalso. exact (NTO (eq_sym Heq)).
  - split; [right; right; left; reflexivity |]. split; [exact NPA |].
    split; intros Heq; exfalso.
    + exact (NTP (eq_sym Heq)).
    + exact (NOP (eq_sym Heq)).
Qed.

(** X5. The heuristic score lies between 10 and 100; a criminal category
    lifts it to 20 at least; two matched red terms make the light red,
    and one red term or two yellow terms keep it off green. *)
Theorem heuristic_risk_score_floor :
  forall text category : pystr,
    let score := heuristic_risk_score text category in
    let reds := hits red_terms (str_lower text) in
    let yellows := hits yellow_terms (str_lower text) in
    10 <= score <= 100 /\
    (is_criminal category = true -> 20 <= score) /\
    ((2 <= reds)%nat -> traffic_light_from_score score = red) /\
    ((1 <= reds)%nat \/ (2 <= yellows)%nat ->
       traffic_light_from_score score <> green).
Proof.
  intros text category score reds yellows.
  subst score. rewrite heuristic_risk_score_sum. fold reds yellows.
  set (m := if has_money text then 15 else 0).
  set (u := if is_urgent text then 15 else 0).
  assert (Hm : 0 <= m) by (unfold m; destruct (has_money text); lia).
  assert (Hu : 0 <= u) by (unfold u; destruct (is_urgent text); lia).
  clearbody m u reds yellows.
  unfold traffic_light_from_score.
  split; [destruct (is_criminal category); lia |].
  split; [intros ->; lia |].
  split.
  - intros Hr.
    destruct (Z.geb_spec
                (Z.min (10 + 30 * Z.of_nat reds + 15 * Z.of_nat yellows + m + u
                        + (if is_criminal category then 10 else 0)) 100) 70);
      [reflexivity |].
    destruct (is_criminal category); lia.
  - intros Hry.
    destruct (Z.geb_spec
                (Z.min (10 + 30 * Z.of_nat reds + 15 * Z.of_nat yellows + m + u
                        + (if is_criminal category then 10 else 0)) 100) 70);
      [discriminate |].
    destruct (Z.geb_spec
                (Z.min (10 + 30 * Z.of_nat reds + 15 * Z.of_nat yellows + m + u
                        + (if is_criminal category then 10 else 0)) 100) 35);
      [discriminate |].
    destruct (is_criminal category); lia.
Qed.

(** X6. The merged light is the more severe of the model's and the
    heuristic's; the merged score is never below the model's and never
    above the larger of the model's and 100; every other field of the
    answer is kept; and merging a second time changes nothing. *)
Theorem reconcile_is_max :
  forall (question category : pystr) (ans : LawmateAnswer),
    let heur_light :=
      traffic_light_from_score (heuristic_risk_score question category) in
    let merged := reconcile question category ans in
    order (traffic_light merged) = Z.max (order (traffic_light ans)) (order heur_light) /\
    risk_score ans <= risk_score merged <= Z.max (risk_score ans) 100 /\
    (summary merged = summary ans /\
     what_to_do_now merged = what_to_do_now ans /\
     what_to_prepare merged = what_to_prepare ans /\
     relevant_laws merged = relevant_laws ans /\
     important_deadlines merged = important_deadlines ans /\
     when_to_contact_lawyer merged = when_to_contact_lawyer ans /\
     notes merged = notes ans /\
     Models.sources merged = Models.sources ans) /\
    reconcile question category merged = merged.
Proof.
  intros question category ans heur_light merged.
  subst merged. unfold reconcile. fold heur_light.
  pose proof (Z.le_min_r
                (10 + 30 * Z.of_nat (hits red_terms (str_lower question))
                 + 15 * Z.of_nat (hits yellow_terms (str_lower question))
                 + (if has_money question then 15 else 0)
                 + (if is_urgent question then 15 else 0)
                 + (if is_criminal category then 10 else 0)) 100) as Hcap.
  rewrite <- heuristic_risk_score_sum in Hcap.
  destruct (Z.gtb_spec (order heur_light) (order (traffic_light ans))) as [Hgt | Hle].
  - cbn [traffic_light risk_score set_assessment summary what_to_do_now
           what_to_prepare relevant_laws important_deadlines
           when_to_contact_lawyer notes Models.sources].
    split; [lia |]. split; [lia |].
    split; [repeat (split; [reflexivity |]); reflexivity |].
    destruct (Z.gtb_spec (order heur_light) (order heur_light)); [lia | reflexivity].
  - split; [lia |]. split; [lia |].
    split; [repeat (split; [reflexivity |]); reflexivity |].
    destruct (Z.gtb_spec (order heur_light) (order (traffic_light ans)));
      [lia | reflexivity].
Qed.

End Ranges.

(** X7. A higher score never gives a less severe light. *)
Theorem traffic_light_from_score_monotone :
  forall a b : Z,
    a <= b ->
    order (traffic_light_from_score a) <= order (traffic_light_from_score b).
Proof.
  intros a b Hab. unfold traffic_light_from_score.
  destruct (Z.geb_spec a 70), (Z.geb_spec b 70); simpl; try lia;
    destruct (Z.geb_spec a 35), (Z.geb_spec b 35); simpl; lia.
Qed.

(* ===================================================================== *)
(** ** The scan: requests, caps, and where it stops                       *)
(* ===================================================================== *)

Lemma for_each_app {A S} (xs ys : list A) (body : A -> S -> eff S) s log :
  for_each (xs ++ ys) body s log =
  match for_each xs body s log with
  | (inl e, log') => (inl e, log')
  | (inr s', log') => for_each ys body s' log'
  end.
Proof.
  revert s log. induction xs as [| x xs IH]; intros s log.
  - reflexivity.
  - cbn [app for_each]. unfold bind.
    destruct (body x s log) as [[e | s'] log']; [reflexivity | apply IH].
Qed.

Lemma range_split n k :
  0 <= k < n -> exists rest, range n = range k ++ k :: rest.
Proof.
  intros H. unfold range.
  replace (Z.to_nat n) with (Z.to_nat k + S (Z.to_nat (n - k - 1)))%nat by lia.
  rewrite seq_app, map_app. cbn [seq map]. rewrite Nat.add_0_l, Z2Nat.id by lia.
  eexists. reflexivity.
Qed.

Lemma firstn_incl_In {A} (n : nat) (l : list A) x : In x (firstn n l) -> In x l.
Proof.
  intros H. rewrite <- (firstn_skipn n l). apply in_or_app. left; exact H.
Qed.

Lemma firstn_length_le {A} (n : nat) (l : list A) : (length (firstn n l) <= n)%nat.
Proof. rewrite length_firstn. apply Nat.le_min_l. Qed.

Section ScanFacts.
Context {R : PyRuntime}.
Variable remote : date -> exn + json.
Variable today : date.

(** X8. On a readable window that does not reach before the first
    calendar day, asked with at least one keyword: page 0 of every day
    of the window is requested exactly once, newest day first. *)
Theorem search_recent_decisions_requests :
  forall (question : pystr) (lookback_days max_items_per_day : Z) (log : list date),
    extract_keywords question 12 <> [] ->
    0 < lookback_days <= today ->
    (forall i, 0 <= i < lookback_days ->
               well_formed_day max_items_per_day (remote (today - i))) ->
    let requested :=
      snd (search_recent_decisions remote today question lookback_days
             max_items_per_day log) in
    requested = log ++ map (fun i => today - i) (range lookback_days) /\
    Z.of_nat (length requested) = Z.of_nat (length log) + lookback_days /\
    NoDup (map (fun i => today - i) (range lookback_days)).
Proof.
  intros question lookback_days max_items_per_day log Hkw Hlb Hwf requested.
  subst requested.
  rewrite (search_recent_decisions_well_formed remote today _ _ _ _ Hkw Hlb Hwf).
  cbn [snd]. split; [reflexivity |]. split.
  - rewrite length_app, length_map. unfold range.
    rewrite length_map, length_seq. lia.
  - unfold range. rewrite map_map.
    apply Finite.Injective_map_NoDup; [| apply seq_NoDup].
    intros a b Hab. lia.
Qed.

(** X9. On such a window the result holds at most five decisions, and
    each decision at most ten keywords and at most ten cited
    provisions. *)
Theorem search_recent_decisions_caps :
  forall (question : pystr) (lookback_days max_items_per_day : Z) (log : list date),
    lookback_days <= today ->
    (forall i, 0 <= i < lookback_days ->
               well_formed_day max_items_per_day (remote (today - i))) ->
    exists result,
      fst (search_recent_decisions remote today question lookback_days
             max_items_per_day log) = inr result /\
      (length result <= 5)%nat /\
      (length (decisions_to_sources result) <= 5)%nat /\
      forall d, In d result ->
        (length (klicova_slova d) <= 10)%nat /\
        (length (zminena_ustanoveni d) <= 10)%nat.
Proof.
  intros question lookback_days max_items_per_day log Hlb Hwf.
  rewrite (search_recent_decisions_result remote today _ _ _ _ Hlb Hwf).
  eexists. split; [reflexivity |].
  split; [apply firstn_length_le |].
  split; [unfold decisions_to_sources; rewrite length_map; apply firstn_length_le |].
  intros d Hd. apply firstn_incl_In in Hd.
  apply (Permutation_in _ (sort_desc_perm _)) in Hd.
  apply in_flat_map in Hd. destruct Hd as [i [_ Hd]].
  unfold day_candidates in Hd. apply in_map_iff in Hd.
  destruct Hd as [it [<- _]]. cbn [klicova_slova zminena_ustanoveni decision_of].
  split; apply firstn_length_le.
Qed.

(** X10. The first day of the window that answers with something other
    than an object stops the scan there: AttributeError leaves
    [search_recent_decisions], the candidates of the earlier days are
    lost with it, and no later day is requested. *)
Theorem search_recent_decisions_stops_at_non_object :
  forall (question : pystr) (lookback_days max_items_per_day : Z) (log : list date)
         (k : Z) (data : json),
    extract_keywords question 12 <> [] ->
    0 <= k < lookback_days ->
    k < today ->
    (forall i, 0 <= i < k ->
               well_formed_day max_items_per_day (remote (today - i))) ->
    remote (today - k) = inr data ->
    (forall kv, data <> JDict kv) ->
    search_recent_decisions remote today question lookback_days max_items_per_day log
    = (inl (AttributeError data "get"),
       log ++ map (fun i => today - i) (range (k + 1))).
Proof.
  intros question lookback_days max_items_per_day log k data
         Hkw Hk Htoday Hwf Hdata Hshape.
  unfold search_recent_decisions.
  destruct (extract_keywords question 12) as [| kw kws]; [contradiction |].
  destruct (Z.leb_spec lookback_days 0); [lia |].
  cbn [orb]. unfold bind at 1.
  destruct (range_split lookback_days k Hk) as [rest ->]. rewrite for_each_app.
  rewrite scan_days_well_formed
    by (intros i Hi; apply In_range in Hi; split; [lia | apply Hwf; exact Hi]).
  cbn [for_each]. unfold bind at 1.
  assert (Hday : forall cands log0,
             scan_day remote today (kw :: kws) max_items_per_day k cands log0
             = (inl (AttributeError data "get"), log0 ++ [today - k])).
  { intros cands log0. unfold scan_day.
    destruct (Z.ltb_spec (today - k) 1); [lia |].
    unfold bind at 1. unfold ret at 1.
    unfold bind at 1. unfold attempt, fetch_day. rewrite Hdata.
    unfold bind at 1.
    destruct data; try reflexivity.
    exfalso. eapply Hshape. reflexivity. }
  rewrite Hday. f_equal.
  rewrite <- app_assoc. f_equal.
  unfold range. replace (Z.to_nat (k + 1)) with (Z.to_nat k + 1)%nat by lia.
  rewrite seq_app, !map_app. cbn [seq map]. rewrite Nat.add_0_l, Z2Nat.id by lia.
  reflexivity.
Qed.

(** X11. A window that reaches before the first calendar day: with
    [lookback_days] above the ordinal of today and every representable
    day readable, the scan requests every day back to ordinal 1 and then
    raises OverflowError; nothing is returned. *)
Theorem search_recent_decisions_overflow :
  forall (question : pystr) (lookback_days max_items_per_day : Z) (log : list date),
    extract_keywords question 12 <> [] ->
    1 <= today < lookback_days ->
    (forall i, 0 <= i < today ->
               well_formed_day max_items_per_day (remote (today - i))) ->
    search_recent_decisions remote today question lookback_days max_items_per_day log
    = (inl OverflowError, log ++ map (fun i => today - i) (range today)).
Proof.
  intros question lookback_days max_items_per_day log Hkw Hlb Hwf.
  unfold search_recent_decisions.
  destruct (extract_keywords question 12) as [| kw kws]; [contradiction |].
  destruct (Z.leb_spec lookback_days 0); [lia |].
  cbn [orb]. unfold bind at 1.
  destruct (range_split lookback_days today) as [rest ->]; [lia |].
  rewrite for_each_app.
  rewrite scan_days_well_formed
    by (intros i Hi; apply In_range in Hi; split; [lia | apply Hwf; exact Hi]).
  cbn [for_each]. unfold bind at 1. unfold scan_day.
  destruct (Z.ltb_spec (today - today) 1); [| lia].
  unfold bind at 1. reflexivity.
Qed.

End ScanFacts.

(* ===================================================================== *)
(** ** The store                                                          *)
(* ===================================================================== *)

Lemma filter_app_other {A} (p : A -> bool) (l : list A) (x : A) :
  p x = false -> filter p (l ++ [x]) = filter p l.
Proof.
  intros H. rewrite filter_app. simpl. rewrite H. apply app_nil_r.
Qed.

Lemma sorted_map_filter {A} (f : A -> Z) (p : A -> bool) (l : list A) :
  StronglySorted Z.lt (map f l) -> StronglySorted Z.lt (map f (filter p l)).
Proof.
  induction l as [| x l IH]; simpl; intros H; [constructor |].
  inversion H as [| ? ? Hs Hall]; subst.
  destruct (p x); [| apply IH; exact Hs].
  simpl. constructor; [apply IH; exact Hs |].
  rewrite Forall_forall in *. intros y Hy.
  apply Hall. apply in_map_iff in Hy. destruct Hy as [a [<- Ha]].
  apply in_map. apply filter_In in Ha. tauto.
Qed.

Lemma forall_map_filter {A} (f : A -> Z) (p : A -> bool) (P : Z -> Prop) (l : list A) :
  Forall P (map f l) -> Forall P (map f (filter p l)).
Proof.
  rewrite !Forall_forall. intros H y Hy.
  apply H. apply in_map_iff in Hy. destruct Hy as [a [<- Ha]].
  apply in_map. apply filter_In in Ha. tauto.
Qed.

Lemma ids_ok_filter {A} (f : A -> Z) (p : A -> bool) (l : list A) last :
  ids_ok (map f l) last -> ids_ok (map f (filter p l)) last.
Proof.
  intros [Hs [Hb H0]].
  split; [apply sorted_map_filter | split; [apply forall_map_filter |]];
    assumption.
Qed.

Lemma ids_ok_snoc ids last :
  ids_ok ids last -> ids_ok (ids ++ [last + 1]) (last + 1).
Proof.
  intros [Hs [Hb Hlast]]. split; [| split; [| lia]].
  - clear Hlast. induction ids as [| x ids IH]; simpl.
    + constructor; constructor.
    + inversion Hs as [| ? ? Hs' Hall]; subst.
      inversion Hb as [| ? ? Hx Hb']; subst.
      constructor; [apply IH; assumption |].
      apply Forall_app. split; [exact Hall |].
      constructor; [lia | constructor].
  - apply Forall_app. split.
    + eapply Forall_impl; [| exact Hb]. cbv beta. intros a Ha. lia.
    + constructor; [lia | constructor].
Qed.

Lemma ids_ok_below ids last x : ids_ok ids last -> In x ids -> x < last + 1.
Proof.
  intros [_ [Hb _]] Hin. rewrite Forall_forall in Hb.
  specialize (Hb x Hin). cbv beta in Hb. lia.
Qed.

(** X12. [add_message] on a session id: the new row gets the next id,
    it is the last message of that session with the fields as given,
    the messages of every other session are untouched, and the session
    rows keep their ids, titles, categories and creation times, only the
    [updated_at] of the addressed session being set. Without a session
    id nothing is stored. *)
Theorem add_message_round_trip :
  forall (d : Database) (sid : Z) (role content : pystr)
         (light sources_json : option pystr) (now1 now2 : pystr),
    let row := {| m_id := last_message_id d + 1;
                  m_session_id := sid;
                  m_role := role;
                  m_content := content;
                  m_traffic_light := light;
                  m_sources_json := sources_json;
                  m_created_at := now1 |} in
    (exists d',
        add_message d (Some sid) role content light sources_json now1 now2
        = inr (last_message_id d + 1, d') /\
        get_messages d' sid = get_messages d sid ++ [row] /\
        (forall other, other <> sid -> get_messages d' other = get_messages d other) /\
        map s_id (sessions d') = map s_id (sessions d) /\
        map s_title (sessions d') = map s_title (sessions d) /\
        map s_category (sessions d') = map s_category (sessions d) /\
        map s_created_at (sessions d') = map s_created_at (sessions d) /\
        map s_updated_at (sessions d') =
        map (fun s => if s_id s =? sid then now2 else s_updated_at s) (sessions d)) /\
    (exists e,
        add_message d None role content light sources_json now1 now2 = inl e).
Proof.
  intros d sid role content light sources_json now1 now2 row.
  split; [| eexists; reflexivity].
  eexists. split; [reflexivity |].
  unfold get_messages. cbn [messages sessions].
  split.
  { rewrite filter_app. cbn [filter m_session_id]. rewrite Z.eqb_refl. reflexivity. }
  split.
  { intros other Hne. cbn [messages]. apply filter_app_other.
    cbn [m_session_id]. apply Z.eqb_neq. congruence. }
  rewrite !map_map.
  repeat (split; [apply map_ext; intros s; destruct (s_id s =? sid); reflexivity |]).
  apply map_ext; intros s; destruct (s_id s =? sid); reflexivity.
Qed.

(** X13. [delete_session] removes the session row and all its messages,
    leaves every other session and its messages as they were, and keeps
    both id counters, so a deleted id is not handed out again. *)
Theorem delete_session_cascades :
  forall (d : Database) (sid : Z),
    let d' := delete_session d sid in
    get_messages d' sid = [] /\
    (forall s, In s (sessions d') -> s_id s <> sid) /\
    (forall other, other <> sid -> get_messages d' other = get_messages d other) /\
    (forall s, s_id s <> sid -> (In s (sessions d') <-> In s (sessions d))) /\
    last_session_id d' = last_session_id d /\
    last_message_id d' = last_message_id d /\
    (forall title category now,
       fst (create_session d' title category now) = last_session_id d + 1).
Proof.
  intros d sid d'. subst d'. unfold delete_session, get_messages.
  cbn [messages sessions last_session_id last_message_id].
  split.
  { induction (messages d) as [| m l IH]; simpl; [reflexivity |].
    destruct (Z.eqb_spec (m_session_id m) sid) as [E | E]; simpl; [exact IH |].
    destruct (Z.eqb_spec (m_session_id m) sid); [contradiction | exact IH]. }
  split.
  { intros s Hs. apply filter_In in Hs. destruct Hs as [_ Hs].
    destruct (Z.eqb_spec (s_id s) sid); [discriminate | assumption]. }
  split.
  { intros other Hne. induction (messages d) as [| m l IH]; simpl; [reflexivity |].
    destruct (Z.eqb_spec (m_session_id m) sid) as [E | E]; simpl.
    - destruct (Z.eqb_spec (m_session_id m) other); [congruence | exact IH].
    - destruct (m_session_id m =? other); [f_equal |]; exact IH. }
  split.
  { intros s Hne. rewrite filter_In.
    destruct (Z.eqb_spec (s_id s) sid); [contradiction |]. simpl. tauto. }
  split; [reflexivity |]. split; [reflexivity |].
  intros title category now. reflexivity.
Qed.

(** [db_ok] is kept by the three writing operations. *)
Lemma create_session_ok d title category now :
  db_ok d -> db_ok (snd (create_session d title category now)).
Proof.
  intros [Hs Hm]. unfold create_session. cbn [snd]. split.
  - cbn [sessions last_session_id]. rewrite map_app. cbn [map s_id].
    apply ids_ok_snoc; assumption.
  - exact Hm.
Qed.

Lemma add_message_ok d sid role content light sj now1 now2 id d' :
  db_ok d ->
  add_message d (Some sid) role content light sj now1 now2 = inr (id, d') ->
  db_ok d'.
Proof.
  intros [Hs Hm] E. unfold add_message in E. injection E as <- <-. split.
  - cbn [sessions last_session_id]. rewrite map_map.
    erewrite map_ext; [exact Hs |].
    intros s. cbv beta. destruct (s_id s =? sid); reflexivity.
  - cbn [messages last_message_id]. rewrite map_app. cbn [map m_id].
    apply ids_ok_snoc; assumption.
Qed.

Lemma delete_session_ok d sid : db_ok d -> db_ok (delete_session d sid).
Proof.
  intros [Hs Hm]. split; apply ids_ok_filter; assumption.
Qed.

(** X14. From the empty store on, [create_session], [add_message] and
    [delete_session] keep the ids of each table strictly growing in
    insertion order and within the table's counter.  Hence the id a
    create or an add returns is larger than every id in its table, the
    deleted ones included, and [get_messages] returns its rows ascending
    by id. *)
Theorem db_ids_grow :
  db_ok empty_db /\
  (forall d, db_ok d ->
     (forall title category now,
        db_ok (snd (create_session d title category now)) /\
        Forall (fun s => s_id s < fst (create_session d title category now))
               (sessions d)) /\
     (forall sid role content light sj now1 now2 id d',
        add_message d (Some sid) role content light sj now1 now2 = inr (id, d') ->
        db_ok d' /\ Forall (fun m => m_id m < id) (messages d)) /\
     (forall sid, db_ok (delete_session d sid)) /\
     (forall sid, StronglySorted Z.lt (map m_id (get_messages d sid)))).
Proof.
  split.
  { split; (split; [constructor | split; [constructor | simpl; lia]]). }
  intros d Hok. split; [| split; [| split]].
  - intros title category now.
    split; [apply create_session_ok; assumption |].
    unfold create_session; cbn [fst].
    destruct Hok as [Hs _]. apply Forall_forall. intros s Hin.
    apply (ids_ok_below _ _ _ Hs). apply in_map. exact Hin.
  - intros sid role content light sj now1 now2 id d' E.
    split; [eapply add_message_ok; eassumption |].
    unfold add_message in E. injection E as <- <-.
    destruct Hok as [_ Hm]. apply Forall_forall. intros m Hin.
    apply (ids_ok_below _ _ _ Hm). apply in_map. exact Hin.
  - intros sid. apply delete_session_ok; exact Hok.
  - intros sid. unfold get_messages. apply sorted_map_filter.
    destruct Hok as [_ [Hsorted _]]. exact Hsorted.
Qed.

(* ===================================================================== *)
(** ** Around a submission                                                *)
(* ===================================================================== *)

Lemma on_done_appends w s now1 now2 sid :
  current_session_id w = Some sid ->
  exists content light sources_json,
    on_done w s now1 now2 =
    inr {| current_session_id := Some sid;
           db := {| sessions :=
                      map (fun r : SessionRow =>
                             if s_id r =? sid
                             then {| s_id := s_id r; s_title := s_title r;
                                     s_category := s_category r;
                                     s_created_at := s_created_at r;
                                     s_updated_at := now2 |}
                             else r) (sessions (db w));
                    messages := messages (db w) ++
                      [ {| m_id := last_message_id (db w) + 1;
                           m_session_id := sid;
                           m_role := utf8 "assistant";
                           m_content := content;
                           m_traffic_light := Some light;
                           m_sources_json := Some sources_json;
                           m_created_at := now1 |} ];
                    last_session_id := last_session_id (db w);
                    last_message_id := last_message_id (db w) + 1 |} |} /\
    ((exists e, fst (fst s) = inl e) -> light = utf8 "red" /\ sources_json = utf8 "[]") /\
    ((exists ans, fst (fst s) = inr ans) -> light = snd (fst s) /\ sources_json = snd s).
Proof.
  intros Hsid. destruct s as [[[e | ans] light] sj]; unfold on_done, add_message;
    rewrite Hsid; do 3 eexists; (split; [reflexivity |]); split;
    intros [x Hx]; simpl in Hx; try discriminate; split; reflexivity.
Qed.

Section SendFacts.
Context {R : PyRuntime}.

(** [on_send] with a chat open and some non-space in the input. *)
Lemma on_send_result w sid input selected now1 now2 :
  current_session_id w = Some sid ->
  sid <> 0 ->
  forallb is_space input = false ->
  let question := normalize_text input in
  let category :=
    if str_eqb selected AUTO_CATEGORY then infer_category question else selected in
  on_send w input selected now1 now2 =
  inr {| sent_window :=
           {| current_session_id := Some sid;
              db := {| sessions :=
                         map (fun r : SessionRow =>
                                if s_id r =? sid
                                then {| s_id := s_id r; s_title := s_title r;
                                        s_category := s_category r;
                                        s_created_at := s_created_at r;
                                        s_updated_at := now2 |}
                                else r) (sessions (db w));
                       messages := messages (db w) ++
                         [ {| m_id := last_message_id (db w) + 1;
                              m_session_id := sid;
                              m_role := utf8 "user";
                              m_content := question;
                              m_traffic_light := None;
                              m_sources_json := None;
                              m_created_at := now1 |} ];
                       last_session_id := last_session_id (db w);
                       last_message_id := last_message_id (db w) + 1 |} |};
         sent_selected :=
           if str_eqb selected AUTO_CATEGORY && mem category CATEGORIES
           then category else selected;
         sent_worker := Some (category, question) |}.
Proof.
  intros Hsid Hne Hinput question category.
  assert (Hq : question <> []).
  { intros E. apply normalize_text_nil_iff in E. congruence. }
  unfold on_send. rewrite Hsid.
  destruct (Z.eqb_spec sid 0) as [E | _]; [contradiction |].
  fold question. destruct question as [| c q] eqn:Eq; [contradiction |].
  reflexivity.
Qed.

Lemma infer_category_in_box text :
  In (infer_category text) [TRESTNI_PRAVO; OBCANSKE_PRAVO; PRAVNI_RAD].
Proof.
  destruct (infer_category_cases text) as [[E _] | [[E _] | [E _]]]; rewrite E;
    [left | right; left | right; right; left]; reflexivity.
Qed.

End SendFacts.

Section Submission.
Context {R : PyRuntime}.
Variable remote : date -> exn + json.
Variable today : date.
Variable backend : Provider -> pystr -> pystr -> exn + LawmateAnswer.
Variable SYSTEM_BASE : pystr.
Variable make_user_prompt : pystr -> pystr -> pystr -> pystr.
Variable dumps_indent : list Source -> pystr.
Variable dumps : list SourceItem -> pystr.

(** What [Worker.run] emits: an exception with "red" and "[]", or the
    reconciled answer with its own light and sources. *)
Lemma run_emits cfg category question :
  (exists e,
      fst (run remote today backend SYSTEM_BASE make_user_prompt dumps_indent
             dumps cfg category question)
      = (inl e, utf8 "red", utf8 "[]")) \/
  (exists ans,
      fst (run remote today backend SYSTEM_BASE make_user_prompt dumps_indent
             dumps cfg category question)
      = (inr (reconcile question category ans),
         light_name (traffic_light (reconcile question category ans)),
         dumps (Models.sources (reconcile question category ans)))).
Proof.
  assert (H : forall x,
             x = fst (run remote today backend SYSTEM_BASE make_user_prompt
                        dumps_indent dumps cfg category question) ->
             (exists e, x = (inl e, utf8 "red", utf8 "[]")) \/
             (exists ans,
                 x = (inr (reconcile question category ans),
                      light_name (traffic_light (reconcile question category ans)),
                      dumps (Models.sources (reconcile question category ans))))).
  { intros x Hx. unfold run, run_body in Hx. unfold bind at 1 in Hx.
    destruct (search_recent_decisions remote today question _ _ [])
      as [[e | ds] log].
    - left. exists e. exact Hx.
    - unfold bind at 1 in Hx.
      destruct (make_provider cfg) as [e | p]; cbn [lift raise ret] in Hx.
      + left. exists e. exact Hx.
      + unfold bind at 1 in Hx.
        destruct (generate backend p SYSTEM_BASE _) as [e | ans];
          cbn [lift raise ret] in Hx.
        * left. exists e. exact Hx.
        * right. exists ans. exact Hx. }
  apply H. reflexivity.
Qed.

Lemma reconcile_not_below question category ans :
  order (traffic_light_from_score (heuristic_risk_score question category))
  <= order (traffic_light (reconcile question category ans)).
Proof.
  unfold reconcile.
  destruct (Z.gtb_spec
              (order (traffic_light_from_score
                        (heuristic_risk_score question category)))
              (order (traffic_light ans))); cbn [traffic_light set_assessment]; lia.
Qed.

(** X15. [on_send] does nothing, stores nothing and starts no worker
    when no chat is open or when the input is empty or all
    whitespace. *)
Theorem on_send_idle :
  forall (w : MainWindow) (input selected now1 now2 : pystr),
    current_session_id w = None \/ current_session_id w = Some 0 \/
    forallb is_space input = true ->
    on_send w input selected now1 now2
    = inr {| sent_window := w; sent_selected := selected; sent_worker := None |}.
Proof.
  intros w input selected now1 now2 H. unfold on_send.
  destruct (current_session_id w) as [sid |]; [| reflexivity].
  destruct (Z.eqb_spec sid 0) as [E | E]; [reflexivity |].
  destruct H as [H | [H | H]]; [discriminate | congruence |].
  apply normalize_text_nil_iff in H. rewrite H. reflexivity.
Qed.

(** X16. With a chat open and some non-space in the input, [on_send]
    stores the normalized input as a user message without light or
    sources at the end of the open chat and starts one worker on that
    text.  The worker's category is the box's text, or the inferred
    category when the box shows the Auto entry; for a box showing one of
    its four entries it is an official name, never the Auto entry, and
    the box shows it afterwards. *)
Theorem on_send_stores_question :
  forall (w : MainWindow) (sid : Z) (input selected now1 now2 : pystr),
    current_session_id w = Some sid ->
    sid <> 0 ->
    forallb is_space input = false ->
    let question := normalize_text input in
    let category :=
      if str_eqb selected AUTO_CATEGORY then infer_category question else selected in
    exists s,
      on_send w input selected now1 now2 = inr s /\
      current_session_id (sent_window s) = Some sid /\
      get_messages (db (sent_window s)) sid =
      get_messages (db w) sid ++
        [ {| m_id := last_message_id (db w) + 1;
             m_session_id := sid;
             m_role := utf8 "user";
             m_content := question;
             m_traffic_light := None;
             m_sources_json := None;
             m_created_at := now1 |} ] /\
      sent_worker s = Some (category, question) /\
      (In selected CATEGORIES ->
         In category [TRESTNI_PRAVO; OBCANSKE_PRAVO; PRAVNI_RAD] /\
         sent_selected s = category).
Proof.
  intros w sid input selected now1 now2 Hsid Hne Hinput question category.
  rewrite (on_send_result w sid input selected now1 now2 Hsid Hne Hinput).
  fold question. fold category.
  eexists. split; [reflexivity |].
  cbn [sent_window sent_worker sent_selected current_session_id db].
  split; [reflexivity |]. split.
  { unfold get_messages. cbn [messages]. rewrite filter_app.
    cbn [filter m_session_id]. rewrite Z.eqb_refl. reflexivity. }
  split; [reflexivity |].
  intros Hsel.
  destruct (str_eqb selected AUTO_CATEGORY) eqn:Eauto.
  - assert (Hcat : In category [TRESTNI_PRAVO; OBCANSKE_PRAVO; PRAVNI_RAD])
      by (subst category; apply infer_category_in_box).
    split; [exact Hcat |].
    assert (Hmem : mem category CATEGORIES = true).
    { apply mem_In. right. exact Hcat. }
    rewrite Hmem. reflexivity.
  - split; [| reflexivity]. subst category.
    destruct Hsel as [E | Hsel]; [| exact Hsel].
    exfalso. symmetry in E. apply str_eqb_eq in E. congruence.
Qed.

(** X17. A whole submission in one chat: after [on_send], [Worker.run]
    and [on_done], the chat has gained the user's question and then one
    assistant message, whatever the pipeline did; the stored light is
    one of the three lights and never less severe than the heuristic
    light of the question. *)
Theorem submission_appends_question_and_reply :
  forall (cfg : AppConfig) (w : MainWindow) (sid : Z)
         (input selected now1 now2 now3 now4 : pystr),
    current_session_id w = Some sid ->
    sid <> 0 ->
    forallb is_space input = false ->
    exists s category question emitted w' user reply light,
      on_send w input selected now1 now2 = inr s /\
      sent_worker s = Some (category, question) /\
      emitted = fst (run remote today backend SYSTEM_BASE make_user_prompt
                       dumps_indent dumps cfg category question) /\
      on_done (sent_window s) emitted now3 now4 = inr w' /\
      get_messages (db w') sid = get_messages (db w) sid ++ [user; reply] /\
      m_role user = utf8 "user" /\
      m_content user = normalize_text input /\
      m_role reply = utf8 "assistant" /\
      m_id user < m_id reply /\
      m_traffic_light reply = Some (light_name light) /\
      order (traffic_light_from_score (heuristic_risk_score question category))
      <= order light.
Proof.
  intros cfg w sid input selected now1 now2 now3 now4 Hsid Hne Hinput.
  pose proof (on_send_result w sid input selected now1 now2 Hsid Hne Hinput) as Hsend.
  cbv zeta in Hsend.
  set (question := normalize_text input) in *.
  set (category := if str_eqb selected AUTO_CATEGORY then infer_category question
                   else selected) in *.
  set (emitted := fst (run remote today backend SYSTEM_BASE make_user_prompt
                         dumps_indent dumps cfg category question)).
  match type of Hsend with _ = inr ?r => set (s := r) in * end.
  assert (Hcur : current_session_id (sent_window s) = Some sid) by reflexivity.
  destruct (on_done_appends (sent_window s) emitted now3 now4 sid Hcur)
    as [content [light [sj [Hdone [Herr Hok]]]]].
  assert (Hlight : exists l, light = light_name l /\
            order (traffic_light_from_score (heuristic_risk_score question category))
            <= order l).
  { destruct (run_emits cfg category question) as [[e He] | [ans Ha]].
    - fold emitted in He.
      destruct Herr as [-> _]; [exists e; rewrite He; reflexivity |].
      exists red. split; [reflexivity |].
      destruct (traffic_light_from_score _); simpl; lia.
    - fold emitted in Ha.
      destruct Hok as [-> _]; [eexists; rewrite Ha; reflexivity |].
      rewrite Ha. cbn [fst snd]. eexists. split; [reflexivity |].
      apply reconcile_not_below. }
  destruct Hlight as [l [-> Hl]].
  exists s, category, question, emitted. do 2 eexists.
  eexists. exists l.
  split; [exact Hsend |]. split; [reflexivity |]. split; [reflexivity |].
  split; [exact Hdone |].
  split.
  { unfold get_messages. subst s. cbn [db messages sent_window].
    rewrite !filter_app. cbn [filter m_session_id]. rewrite Z.eqb_refl.
    rewrite <- app_assoc. reflexivity. }
  cbn [m_role m_content m_id m_traffic_light].
  split; [reflexivity |]. split; [reflexivity |]. split; [reflexivity |].
  split; [subst s; cbn [db sent_window last_message_id]; lia |].
  split; [reflexivity | exact Hl].
Qed.

End Submission.

Section Switching.
Context {R : PyRuntime}.

(** X18. The reply goes to the chat that is open when the worker ends,
    not to the chat the question was asked in: after [on_send] in chat
    [asked], a [load_session] of another chat and then [on_done], the
    chat [asked] ends with the user's question and the other chat has
    gained the assistant message. *)
Theorem reply_follows_current_session :
  forall (w : MainWindow) (asked other : Z) (input selected : pystr)
         (emitted : signal) (now1 now2 now3 now4 : pystr),
    current_session_id w = Some asked ->
    asked <> 0 ->
    other <> asked ->
    forallb is_space input = false ->
    exists s w' user reply,
      on_send w input selected now1 now2 = inr s /\
      on_done (load_session (sent_window s) other) emitted now3 now4 = inr w' /\
      get_messages (db w') asked = get_messages (db w) asked ++ [user] /\
      get_messages (db w') other = get_messages (db w) other ++ [reply] /\
      m_role user = utf8 "user" /\
      m_content user = normalize_text input /\
      m_role reply = utf8 "assistant" /\
      current_session_id w' = Some other.
Proof.
  intros w asked other input selected emitted now1 now2 now3 now4
         Hsid Hne Hother Hinput.
  pose proof (on_send_result w asked input selected now1 now2 Hsid Hne Hinput) as Hsend.
  cbv zeta in Hsend.
  match type of Hsend with _ = inr ?r => set (s := r) in * end.
  assert (Hcur : current_session_id (load_session (sent_window s) other) = Some other)
    by reflexivity.
  destruct (on_done_appends _ emitted now3 now4 other Hcur)
    as [content [light [sj [Hdone _]]]].
  exists s. do 3 eexists.
  split; [exact Hsend |]. split; [exact Hdone |].
  unfold get_messages. subst s.
  cbn [db messages sent_window load_session current_session_id m_role m_content].
  rewrite !filter_app. cbn [filter m_session_id].
  rewrite !Z.eqb_refl.
  destruct (Z.eqb_spec other asked) as [E | _]; [contradiction |].
  destruct (Z.eqb_spec asked other) as [E | _]; [congruence |].
  rewrite !app_nil_r.
  repeat (split; [reflexivity |]). reflexivity.
Qed.

(** X19. A chat keeps the category it was created with.  [new_chat]
    stores the text of the category box, the Auto entry included, and
    neither [on_send], which resolves the category only for the worker,
    nor [on_done] changes the title or the category of any session. *)
Theorem session_category_is_fixed :
  forall (w : MainWindow) (box title now input selected : pystr)
         (emitted : signal) (now1 now2 now3 now4 : pystr)
         (s : Sent) (w' : MainWindow),
    let opened := new_chat w box title now in
    on_send opened input selected now1 now2 = inr s ->
    on_done (sent_window s) emitted now3 now4 = inr w' ->
    current_session_id opened = Some (last_session_id (db w) + 1) /\
    map s_category (sessions (db opened)) =
      map s_category (sessions (db w)) ++ [box] /\
    map s_category (sessions (db w')) = map s_category (sessions (db opened)) /\
    map s_title (sessions (db w')) = map s_title (sessions (db opened)).
Proof.
  intros w box title now input selected emitted now1 now2 now3 now4 s w' opened
         Hsend Hdone.
  assert (Hopen : current_session_id opened = Some (last_session_id (db w) + 1))
    by reflexivity.
  split; [exact Hopen |].
  split.
  { subst opened. unfold new_chat, create_session, load_session.
    cbn [db sessions]. rewrite map_app. reflexivity. }
  assert (Keep : forall (f : SessionRow -> pystr) sid now l,
             (forall r, f {| s_id := s_id r; s_title := s_title r;
                             s_category := s_category r;
                             s_created_at := s_created_at r;
                             s_updated_at := now |} = f r) ->
             map f (map (fun r : SessionRow =>
                           if s_id r =? sid
                           then {| s_id := s_id r; s_title := s_title r;
                                   s_category := s_category r;
                                   s_created_at := s_created_at r;
                                   s_updated_at := now |}
                           else r) l) = map f l).
  { intros f sid now0 l Hf. rewrite map_map. apply map_ext. intros r.
    destruct (s_id r =? sid); [apply Hf | reflexivity]. }
  assert (Hs : map s_category (sessions (db (sent_window s))) =
               map s_category (sessions (db opened)) /\
               map s_title (sessions (db (sent_window s))) =
               map s_title (sessions (db opened)) /\
               current_session_id (sent_window s) = current_session_id opened).
  { clear Hdone. subst opened.
    unfold new_chat, create_session, load_session in *. cbn [db] in *.
    unfold on_send in Hsend. cbn [current_session_id] in Hsend.
    destruct (last_session_id (db w) + 1 =? 0);
      [injection Hsend as <-; repeat split; reflexivity |].
    destruct (normalize_text input);
      [injection Hsend as <-; repeat split; reflexivity |].
    unfold add_message in Hsend.
    injection Hsend as <-. cbn [sent_window db sessions current_session_id].
    split; [apply Keep; reflexivity |].
    split; [apply Keep; reflexivity | reflexivity]. }
  destruct Hs as [Hc [Ht Hcur]]. rewrite Hopen in Hcur.
  destruct (on_done_appends (sent_window s) emitted now3 now4 _ Hcur)
    as [content [light [sj [Hdone' _]]]].
  rewrite Hdone' in Hdone. injection Hdone as <-.
  cbn [db sessions]. rewrite <- Hc, <- Ht.
  split; apply Keep; reflexivity.
Qed.

End Switching.

Section MockFallback.
Context {R : PyRuntime}.
Variable remote : date -> exn + json.
Variable today : date.
Variable backend : Provider -> pystr -> pystr -> exn + LawmateAnswer.
Variable SYSTEM_BASE : pystr.
Variable make_user_prompt : pystr -> pystr -> pystr -> pystr.
Variable dumps_indent : list Source -> pystr.
Variable dumps : list SourceItem -> pystr.

(** X20. Any provider name other than "openai" and "ollama" selects the
    mock provider.  When the retrieval returns, [Worker.run] then emits
    the canned answer reconciled with the heuristic, without consulting
    a backend; its light is yellow or red, never green, and its score
    is at least 45. *)
Theorem unknown_provider_falls_back_to_mock :
  forall (cfg : AppConfig) (category question : pystr)
         (decisions : list JusticeDecision) (log : list date),
    llm_provider cfg <> utf8 "openai" ->
    llm_provider cfg <> utf8 "ollama" ->
    search_recent_decisions remote today question
      (justice_lookback_days cfg) (justice_max_items_per_day cfg) []
    = (inr decisions, log) ->
    let answer := reconcile question category mock_answer in
    run remote today backend SYSTEM_BASE make_user_prompt dumps_indent dumps
      cfg category question
    = ((inr answer, light_name (traffic_light answer), dumps []), log) /\
    traffic_light answer <> green /\
    45 <= risk_score answer.
Proof.
  intros cfg category question decisions log Hopenai Hollama Hsearch answer.
  assert (Hp : make_provider cfg = inr MockProvider).
  { unfold make_provider.
    destruct (str_eqb (llm_provider cfg) (utf8 "openai")) eqn:E1;
      [apply str_eqb_eq in E1; contradiction |].
    destruct (str_eqb (llm_provider cfg) (utf8 "ollama")) eqn:E2;
      [apply str_eqb_eq in E2; contradiction |].
    reflexivity. }
  split; [| split].
  - unfold run, run_body. unfold bind at 1. rewrite Hsearch.
    unfold bind at 1. rewrite Hp. cbn [lift ret]. unfold bind at 1.
    cbn [generate lift ret]. fold answer.
    assert (Hsrc : Models.sources answer = []).
    { subst answer. unfold reconcile.
      destruct (_ >? _); reflexivity. }
    rewrite Hsrc. reflexivity.
  - subst answer. unfold reconcile.
    destruct (Z.gtb_spec
                (order (traffic_light_from_score
                          (heuristic_risk_score question category)))
                (order (traffic_light mock_answer))) as [Hgt | Hle].
    + cbn [traffic_light set_assessment]. cbn [traffic_light mock_answer order] in Hgt.
      destruct (traffic_light_from_score _); simpl in Hgt; try lia; discriminate.
    + discriminate.
  - subst answer. unfold reconcile.
    destruct (_ >? _); cbn [risk_score set_assessment mock_answer]; lia.
Qed.

End MockFallback.

(* ===================================================================== *)
(** ** Provider helpers: the API URL and the JSON text of a reply         *)
(* ===================================================================== *)

Lemma startswith_split s p : startswith s p = true -> exists r, s = p ++ r.
Proof.
  revert s. induction p as [| x p IH]; intros s H.
  - exists s. reflexivity.
  - destruct s as [| y s]; [discriminate |]. simpl in H.
    apply andb_true_iff in H. destruct H as [Hxy H].
    apply N.eqb_eq in Hxy. subst y.
    destruct (IH s H) as [r ->]. exists r. reflexivity.
Qed.

Lemma endswith_app x y : endswith (x ++ y) y = true.
Proof.
  unfold endswith. rewrite rev_app_distr. apply startswith_app.
Qed.

Lemma endswith_split s suffix :
  endswith s suffix = true -> exists p, s = p ++ suffix.
Proof.
  unfold endswith. intros H. apply startswith_split in H. destruct H as [r Hr].
  exists (rev r). rewrite <- (rev_involutive s), Hr, rev_app_distr, rev_involutive.
  reflexivity.
Qed.

Lemma rstrip_char_other ch l c :
  c <> ch -> rstrip_char ch (l ++ [c]) = l ++ [c].
Proof.
  intros Hne. unfold rstrip_char. rewrite rev_app_distr. simpl.
  destruct (N.eqb_spec c ch); [contradiction |].
  simpl. rewrite rev_involutive. reflexivity.
Qed.

Lemma rstrip_char_repeat ch l n :
  rstrip_char ch (l ++ repeat ch n) = rstrip_char ch l.
Proof.
  induction n as [| n IH]; [rewrite app_nil_r; reflexivity |].
  change (repeat ch (S n)) with (ch :: repeat ch n).
  rewrite repeat_cons, app_assoc. unfold rstrip_char in *.
  rewrite rev_app_distr. simpl. rewrite N.eqb_refl. exact IH.
Qed.

(** X21. The URL built by [_ollama_api_url] always ends in "/api"
    followed by the endpoint; trailing slashes of the base URL make no
    difference; and a base URL that already ends in "/api" does not get
    a second "/api". *)
Theorem ollama_api_url_shape :
  forall base_url endpoint : pystr,
    endswith (_ollama_api_url base_url endpoint) (utf8 "/api" ++ endpoint) = true /\
    (forall n,
        _ollama_api_url (base_url ++ repeat slash n) endpoint
        = _ollama_api_url base_url endpoint) /\
    (forall n,
        _ollama_api_url (base_url ++ utf8 "/api" ++ repeat slash n) endpoint
        = base_url ++ utf8 "/api" ++ endpoint).
Proof.
  intros base_url endpoint. split; [| split].
  - unfold _ollama_api_url.
    destruct (endswith (rstrip_char slash base_url) (utf8 "/api")) eqn:E.
    + apply endswith_split in E. destruct E as [p ->].
      rewrite <- app_assoc. apply endswith_app.
    + apply endswith_app.
  - intros n. unfold _ollama_api_url. rewrite rstrip_char_repeat. reflexivity.
  - intros n. unfold _ollama_api_url.
    rewrite app_assoc, rstrip_char_repeat.
    assert (E : rstrip_char slash (base_url ++ utf8 "/api") = base_url ++ utf8 "/api").
    { change (utf8 "/api") with ([47; 97; 112]%N ++ [105%N]).
      rewrite app_assoc. apply rstrip_char_other. discriminate. }
    rewrite E, endswith_app, <- app_assoc. reflexivity.
Qed.

Lemma find_from_spec ch s i :
  (find_from ch s i = -1 /\ ~ In ch s) \/
  (exists pre rest,
      s = pre ++ ch :: rest /\ ~ In ch pre /\
      find_from ch s i = i + Z.of_nat (length pre)).
Proof.
  revert i. induction s as [| c s IH]; intros i.
  - left. split; [reflexivity | intros []].
  - simpl. destruct (N.eqb_spec c ch) as [-> | Hne].
    + right. exists [], s. split; [reflexivity |]. split; [intros [] |].
      simpl. lia.
    + destruct (IH (i + 1)) as [[E Hin] | [pre [rest [-> [Hin E]]]]].
      * left. split; [exact E |]. intros [H | H]; [contradiction | exact (Hin H)].
      * right. exists (c :: pre), rest. split; [reflexivity |].
        split; [intros [H | H]; [contradiction | exact (Hin H)] |].
        rewrite E. simpl length. lia.
Qed.

Lemma rfind_from_spec ch s i last :
  (rfind_from ch s i last = last /\ ~ In ch s) \/
  (exists pre post,
      s = pre ++ ch :: post /\ ~ In ch post /\
      rfind_from ch s i last = i + Z.of_nat (length pre)).
Proof.
  revert i last. induction s as [| c s IH]; intros i last.
  - left. split; [reflexivity | intros []].
  - simpl. destruct (IH (i + 1) (if (c =? ch)%N then i else last))
      as [[E Hin] | [pre [post [-> [Hin E]]]]].
    + destruct (N.eqb_spec c ch) as [-> | Hne].
      * right. exists [], s. split; [reflexivity |]. split; [exact Hin |].
        rewrite E. simpl. lia.
      * left. split; [exact E |]. intros [H | H]; [contradiction | exact (Hin H)].
    + right. exists (c :: pre), post. split; [reflexivity |].
      split; [exact Hin |]. rewrite E. simpl length. lia.
Qed.

Lemma find_bound ch a rest : 0 <= find (a ++ ch :: rest) ch <= Z.of_nat (length a).
Proof.
  unfold find.
  destruct (find_from_spec ch (a ++ ch :: rest) 0)
    as [[_ Hin] | [pre [r [E [Hin ->]]]]].
  - exfalso. apply Hin, in_or_app. right; left; reflexivity.
  - split; [lia |].
    destruct (Nat.le_gt_cases (length pre) (length a)) as [H | H]; [lia |].
    exfalso. apply Hin.
    assert (Ha : pre = firstn (length pre) (a ++ ch :: rest)).
    { rewrite E, firstn_app, Nat.sub_diag, firstn_all. simpl.
      rewrite app_nil_r. reflexivity. }
    rewrite Ha. rewrite firstn_app.
    replace (length pre - length a)%nat with (S (length pre - length a - 1)) by lia.
    apply in_or_app. right. left. reflexivity.
Qed.

Lemma rfind_bound ch x post :
  Z.of_nat (length x) <= rfind (x ++ ch :: post) ch.
Proof.
  unfold rfind.
  destruct (rfind_from_spec ch (x ++ ch :: post) 0 (-1))
    as [[_ Hin] | [pre [p [E [Hin ->]]]]].
  - exfalso. apply Hin, in_or_app. right; left; reflexivity.
  - destruct (Nat.le_gt_cases (length x) (length pre)) as [H | H]; [lia |].
    exfalso. apply Hin.
    assert (Hp : p = skipn (S (length pre)) (x ++ ch :: post)).
    { rewrite E. rewrite skipn_app.
      replace (S (length pre) - length pre)%nat with 1%nat by lia.
      rewrite skipn_all2 by lia. reflexivity. }
    rewrite Hp. rewrite skipn_app.
    replace (S (length pre) - length x)%nat with 0%nat by lia.
    apply in_or_app. right. left. reflexivity.
Qed.

Lemma slice_middle {A} (pre mid post : list A) :
  slice (pre ++ mid ++ post) (Z.of_nat (length pre))
        (Z.of_nat (length pre + length mid)) = mid.
Proof.
  unfold slice. rewrite !length_app.
  destruct (Z.ltb_spec (Z.of_nat (length pre)) 0); [lia |].
  destruct (Z.ltb_spec (Z.of_nat (length pre + length mid)) 0); [lia |].
  rewrite !Z.min_l by lia.
  replace (Z.to_nat (Z.of_nat (length pre + length mid) - Z.of_nat (length pre)))
    with (length mid) by lia.
  rewrite Nat2Z.id, skipn_app, Nat.sub_diag, skipn_all. cbn [skipn app].
  rewrite firstn_app, Nat.sub_diag, firstn_all. cbn [firstn].
  apply app_nil_r.
Qed.

(** X22. [ollama_json_text] succeeds exactly on replies that hold a "{"
    somewhere before a "}".  It then returns the text from the first
    "{" to the last "}", both included, whatever stands between or
    around them; otherwise it raises LLMError. *)
Theorem ollama_json_text_span :
  (forall content r,
      ollama_json_text content = inr r ->
      exists pre mid post,
        content = pre ++ open_brace :: mid ++ close_brace :: post /\
        ~ In open_brace pre /\ ~ In close_brace post /\
        r = open_brace :: mid ++ [close_brace]) /\
  (forall a b c,
      exists r, ollama_json_text (a ++ open_brace :: b ++ close_brace :: c) = inr r) /\
  (forall content e,
      ollama_json_text content = inl e ->
      e = LLMError "Ollama nevrátil JSON. Zkus jiný model.").
Proof.
  split; [| split].
  - intros content r H. unfold ollama_json_text in H.
    unfold find, rfind in H.
    destruct (find_from_spec open_brace content 0)
      as [[E1 _] | [pre [rest [Epre [Hpre E1]]]]];
      rewrite E1 in H; [discriminate |].
    destruct (rfind_from_spec close_brace content 0 (-1))
      as [[E2 _] | [x [post [Ex [Hpost E2]]]]];
      rewrite E2 in H; [rewrite orb_true_r in H; discriminate |].
    destruct (Z.eqb_spec (0 + Z.of_nat (length pre)) (-1)); [lia |].
    destruct (Z.eqb_spec (0 + Z.of_nat (length x)) (-1)); [lia |].
    destruct (Z.leb_spec (0 + Z.of_nat (length x)) (0 + Z.of_nat (length pre)))
      as [Hle | Hlt]; [discriminate |].
    cbn [orb] in H.
    assert (Hr : r = slice content (0 + Z.of_nat (length pre))
                       (0 + Z.of_nat (length x) + 1)) by congruence.
    clear H.
    assert (Hx : exists mid, x = pre ++ open_brace :: mid).
    { rewrite Epre in Ex. apply app_eq_app in Ex.
      destruct Ex as [l [[E _] | [E E']]].
      - exfalso. apply (f_equal (@length _)) in E. rewrite length_app in E. lia.
      - destruct l as [| o mid].
        + exfalso. apply (f_equal (@length _)) in E. rewrite length_app in E.
          simpl in E. lia.
        + injection E' as <- _. exists mid. exact E. }
    destruct Hx as [mid ->].
    exists pre, mid, post.
    split; [rewrite Ex, <- app_assoc; reflexivity |].
    split; [exact Hpre | split; [exact Hpost |]].
    rewrite Hr.
    assert (Ec : content = pre ++ (open_brace :: mid ++ [close_brace]) ++ post).
    { rewrite Ex, <- !app_assoc. cbn [app]. rewrite <- app_assoc. reflexivity. }
    rewrite Ec at 1.
    replace (0 + Z.of_nat (length pre)) with (Z.of_nat (length pre)) by lia.
    replace (0 + Z.of_nat (length (pre ++ open_brace :: mid)) + 1)
      with (Z.of_nat (length pre + length (open_brace :: mid ++ [close_brace]))).
    + apply slice_middle.
    + rewrite length_app. cbn [length]. rewrite length_app. cbn [length]. lia.
  - intros a b c. unfold ollama_json_text.
    pose proof (find_bound open_brace a (b ++ close_brace :: c)) as Hf.
    pose proof (rfind_bound close_brace (a ++ open_brace :: b) c) as Hr.
    rewrite <- app_assoc in Hr. cbn [app] in Hr.
    rewrite length_app in Hr. cbn [length] in Hr.
    destruct (Z.eqb_spec (find (a ++ open_brace :: b ++ close_brace :: c) open_brace) (-1));
      [lia |].
    destruct (Z.eqb_spec (rfind (a ++ open_brace :: b ++ close_brace :: c) close_brace) (-1));
      [lia |].
    destruct (Z.leb_spec (rfind (a ++ open_brace :: b ++ close_brace :: c) close_brace)
                         (find (a ++ open_brace :: b ++ close_brace :: c) open_brace));
      [lia |].
    eexists. reflexivity.
  - intros content e H. unfold ollama_json_text in H.
    destruct (_ || _); [injection H as <-; reflexivity | discriminate].
Qed.

(* ===================================================================== *)
(** ** Ollama setup                                                       *)
(* ===================================================================== *)

Section SetupFacts.
Import OllamaSetup.
Context {R : PyRuntime}.
Variable world : World.

Lemma str_in_list_In model models :
  str_in_list model models = true <-> In (JStr model) models.
Proof.
  unfold str_in_list. rewrite existsb_exists. split.
  - intros [j [Hin Hj]]. destruct j; try discriminate.
    apply str_eqb_eq in Hj. subst. exact Hin.
  - intros Hin. exists (JStr model). split; [exact Hin |].
    apply str_eqb_eq. reflexivity.
Qed.

Lemma model_names_dicts (ms : list (list (pystr * json))) (log : list date) :
  model_names (map JDict ms) log
  = (inr (map (fun kv => dict_get kv (utf8 "name") (JStr [])) ms), log).
Proof.
  induction ms as [| kv ms IH]; [reflexivity |].
  cbn [map model_names]. unfold bind at 1. cbn [get ret].
  unfold bind at 1. rewrite IH. reflexivity.
Qed.

Ltac run_io :=
  cbv beta iota zeta delta [ensure_ollama_ready io_bind io_ret io_attempt
                            io_raise io_lift get_url check_call];
  cbn [filter is_get is_pull app length fst snd negb].

(** X23. Cloud mode (the base URL mentions "ollama.com"):
    [ensure_ollama_ready] never raises and never pulls a model.  Without
    an API key it makes no request; with one it makes exactly one, to
    the tags endpoint with the key as bearer token, and the result is
    [ok] exactly when that request was answered with status 200. *)
Theorem ensure_ollama_ready_cloud :
  forall (cfg : AppConfig) (progress_cb : bool),
    let base_url := strip (ollama_base_url cfg) in
    let api_key := strip (ollama_api_key cfg) in
    let url := _ollama_api_url base_url (utf8 "/tags") in
    let authorization := Some (utf8 "Bearer " ++ api_key) in
    str_in (utf8 "ollama.com") (str_lower base_url) = true ->
    exists res tr,
      ensure_ollama_ready world cfg progress_cb [] = (inr res, tr) /\
      filter is_get tr
      = match api_key with
        | [] => []
        | _ => [Get url authorization 30]
        end /\
      filter is_pull tr = [] /\
      (ok res = true <->
         api_key <> [] /\
         exists resp,
           requests_get world 0 url authorization = inr resp /\
           status_code resp = 200).
Proof.
  intros cfg progress_cb base_url api_key url authorization Hcloud.
  run_io. fold base_url. rewrite Hcloud. fold api_key.
  destruct api_key as [| c key] eqn:Ekey.
  - eexists. eexists. split; [reflexivity |].
    split; [reflexivity | split; [reflexivity |]].
    cbn [ok]. split; [discriminate | intros [H _]; congruence].
  - assert (Hkey : c :: key <> []) by discriminate.
    subst url authorization.
    destruct progress_cb; cbn [filter is_get is_pull app length];
      destruct (requests_get world 0 _ _) as [e | resp] eqn:Eget.
    all: try (destruct (Z.eqb_spec (status_code resp) 200) as [E200 | E200];
              cbn [negb]).
    all: refine (ex_intro _ _ (ex_intro _ _
                  (conj eq_refl (conj eq_refl (conj eq_refl _))))); cbn [ok].
    all: split;
      [ intros H;
        first [ discriminate H
              | split; [exact Hkey |];
                exists resp; split; [reflexivity | exact E200] ]
      | intros [_ [resp' [E1 E2]]];
        first [ reflexivity | discriminate E1
              | injection E1 as <-; contradiction ] ].
Qed.

Ltac case_io :=
  match goal with
  | |- context [match ?x with _ => _ end] =>
      lazymatch x with
      | context [match _ with _ => _ end] => fail
      | _ => destruct x eqn:?
      end
  end.

Lemma ensure_ollama_ready_outcome (cfg : AppConfig) (progress_cb : bool) :
  let url := _ollama_api_url (strip (ollama_base_url cfg)) (utf8 "/tags") in
  (probe_fails world cfg /\
   exists tr,
     ensure_ollama_ready world cfg progress_cb []
     = (inl (NameError "_start_ollama_server"), tr) /\
     filter is_get tr = [Get url None 5] /\
     filter is_pull tr = []) \/
  (~ probe_fails world cfg /\
   exists res tr,
     ensure_ollama_ready world cfg progress_cb [] = (inr res, tr)).
Proof.
  intros url. unfold probe_fails. subst url. run_io.
  destruct (str_in (utf8 "ollama.com") (str_lower (strip (ollama_base_url cfg))))
    eqn:Ecloud.
  { right. split; [intros [H _]; discriminate H |].
    repeat (case_io; cbv beta iota; cbn [negb]); eexists; eexists; reflexivity. }
  destruct (find_ollama_cli world) as [[| c cli] |] eqn:Ecli.
  1, 3: right; (split; [intros [_ [[cli' [H1 H2]] _]]; congruence |]);
        eexists; eexists; reflexivity.
  assert (Hcli : exists cli0 : pystr, Some (c :: cli) = Some cli0 /\ cli0 <> [])
    by (exists (c :: cli); split; [reflexivity | discriminate]).
  destruct progress_cb; cbn [filter is_get is_pull app length];
    destruct (requests_get world 0 _ None) as [e | probe] eqn:Eprobe.
  all: try (destruct (Z.eqb_spec (status_code probe) 200) as [E200 | E200]).
  all: cbv beta iota; cbn [filter is_get is_pull app length].
  all: first
    [ (* the probe answered 200 *)
      assert (Hup : status_code probe = 200) by exact E200;
      right; split;
      [ intros [_ [_ H]]; exact (H probe eq_refl Hup) |];
      repeat (case_io; cbv beta iota; cbn [negb]); eexists; eexists; reflexivity
    | (* it raised, or answered something else *)
      left; split;
      [ split; [reflexivity |]; split; [exact Hcli |];
        intros probe' Hp; first [discriminate Hp | injection Hp as <-; exact E200]
      | eexists; split; [reflexivity |]; split; reflexivity ] ].
Qed.

(** X24. [OllamaSetupWorker.run] ends without a closing signal exactly
    when, in local mode with the CLI found, the first probe of the server
    raises or is answered with a status other than 200: the handler then
    calls [_start_ollama_server], a name the module does not define, and
    NameError leaves [ensure_ollama_ready] after that one request. *)
Theorem setup_run_silent_iff :
  forall cfg : AppConfig,
    (fst (setup_run world cfg) = None <-> probe_fails world cfg) /\
    (probe_fails world cfg ->
     forall progress_cb,
       let out := ensure_ollama_ready world cfg progress_cb [] in
       fst out = inl (NameError "_start_ollama_server") /\
       filter is_get (snd out)
       = [Get (_ollama_api_url (strip (ollama_base_url cfg)) (utf8 "/tags")) None 5] /\
       filter is_pull (snd out) = []).
Proof.
  intros cfg. split.
  - unfold setup_run.
    destruct (ensure_ollama_ready_outcome cfg true)
      as [[Hdead [tr [E _]]] | [Halive [res [tr E]]]]; rewrite E; cbn [fst].
    + split; [intros _; exact Hdead | reflexivity].
    + split; [discriminate | intros H; contradiction].
  - intros Hdead progress_cb out. subst out.
    destruct (ensure_ollama_ready_outcome cfg progress_cb)
      as [[_ [tr [E [G P]]]] | [Halive _]]; [| contradiction].
    rewrite E. cbn [fst snd]. split; [reflexivity | split; [exact G | exact P]].
Qed.

(** X25. Local mode with the CLI found and the server answering the
    probe with 200: [ensure_ollama_ready] returns a result after exactly
    two requests to the tags endpoint.  It pulls, once and the configured
    model, exactly when the second answer decodes to a listing that does
    not hold the model's name as written; and the result is [ok] exactly
    when the listing could be read and the model is listed or the pull
    succeeded.  The status of the second answer is not looked at. *)
Theorem ensure_ollama_ready_local :
  forall (cfg : AppConfig) (progress_cb : bool) (cli : pystr) (probe : Response),
    let base_url := strip (ollama_base_url cfg) in
    let model := strip (ollama_model cfg) in
    let url := _ollama_api_url base_url (utf8 "/tags") in
    let listing :=
      match requests_get world 1 url None with
      | inl e => inl e
      | inr resp =>
          match resp_json resp with
          | inl e => inl e
          | inr data => listed_models data
          end
      end in
    str_in (utf8 "ollama.com") (str_lower base_url) = false ->
    find_ollama_cli world = Some cli ->
    cli <> [] ->
    requests_get world 0 url None = inr probe ->
    status_code probe = 200 ->
    exists res tr,
      ensure_ollama_ready world cfg progress_cb [] = (inr res, tr) /\
      filter is_get tr = [Get url None 5; Get url None 10] /\
      filter is_pull tr
      = match listing with
        | inr models =>
            if str_in_list model models then [] else [Pull cli model]
        | inl _ => []
        end /\
      (ok res = true <->
         exists models,
           listing = inr models /\
           (In (JStr model) models \/ check_call_pull world cli model = None)).
Proof.
  intros cfg progress_cb cli probe base_url model url listing
         Hlocal Hcli Hne Hprobe H200.
  subst listing url model base_url. run_io.
  rewrite Hlocal, Hcli. destruct cli as [| c cli]; [congruence |].
  destruct progress_cb; cbn [filter is_get is_pull app length];
    rewrite Hprobe; apply Z.eqb_eq in H200; rewrite H200;
    cbv beta iota; cbn [filter is_get is_pull app length].
  all: destruct (requests_get world 1 _ None) as [e1 | resp];
    [| destruct (resp_json resp) as [e2 | data];
       [| destruct (listed_models data) as [e3 | models];
          [| destruct (str_in_list (strip (ollama_model cfg)) models) eqn:Ein;
             [| destruct (check_call_pull world (c :: cli)
                            (strip (ollama_model cfg))) as [e4 |] eqn:Epull ] ] ] ].
  all: cbv beta iota; cbn [negb filter is_get is_pull app length].
  all: refine (ex_intro _ _ (ex_intro _ _
                 (conj eq_refl (conj eq_refl (conj eq_refl _))))); cbn [ok].
  all: split;
    [ intros H;
      first [ discriminate H
            | exists models; split; [reflexivity |];
              first [ left; apply str_in_list_In; exact Ein
                    | right; reflexivity ] ]
    | intros [models' [E [Hin | Hp]]];
      first [ reflexivity | discriminate E | discriminate Hp
            | injection E as <-; apply str_in_list_In in Hin; congruence ] ].
Qed.

End SetupFacts.

(* ===================================================================== *)
(** ** Deleting the open chat                                             *)
(* ===================================================================== *)

Section DeletionFacts.

Variable list_sessions : Database -> list SessionRow.
Hypothesis list_sessions_all :
  forall d, Permutation (list_sessions d) (sessions d).

(** X26. A confirmed [delete_current_chat] on a store with positive ids
    deletes the open chat and its messages and never leaves it open:
    afterwards no chat is open exactly when no session is left, and
    otherwise the open chat is one of the remaining sessions.  A declined
    one changes nothing. *)
Theorem delete_current_chat_moves_on :
  forall (w : MainWindow) (sid : Z),
    db_ok (db w) ->
    current_session_id w = Some sid ->
    sid <> 0 ->
    let w' := delete_current_chat list_sessions w true in
    delete_current_chat list_sessions w false = w /\
    db w' = delete_session (db w) sid /\
    get_messages (db w') sid = [] /\
    current_session_id w' <> Some sid /\
    (current_session_id w' = None <-> sessions (db w') = []) /\
    (forall other,
        current_session_id w' = Some other ->
        exists s, In s (sessions (db w)) /\ s_id s = other /\ other <> sid).
Proof.
  intros w sid Hok Hcur Hsid w'.
  assert (Hz : (sid =? 0) = false) by (apply Z.eqb_neq; exact Hsid).
  split.
  { unfold delete_current_chat. rewrite Hcur, Hz. reflexivity. }
  assert (Hrem : forall s, In s (sessions (delete_session (db w) sid)) ->
                           In s (sessions (db w)) /\ s_id s <> sid /\ s_id s <> 0).
  { intros s Hin. unfold delete_session in Hin. cbn [sessions] in Hin.
    apply filter_In in Hin. destruct Hin as [Hin Hne].
    apply negb_true_iff, Z.eqb_neq in Hne.
    split; [exact Hin | split; [exact Hne |]].
    destruct Hok as [[_ [Hpos _]] _]. rewrite Forall_forall in Hpos.
    specialize (Hpos (s_id s) (in_map s_id _ _ Hin)). lia. }
  pose proof (list_sessions_all (delete_session (db w) sid)) as Hperm.
  subst w'. unfold delete_current_chat. rewrite Hcur, Hz. cbn [negb].
  cbv zeta.
  destruct (list_sessions (delete_session (db w) sid)) as [| item rest] eqn:El.
  - apply Permutation_nil in Hperm. cbn [db current_session_id].
    split; [reflexivity |]. split.
    { unfold get_messages, delete_session. cbn [messages].
      induction (messages (db w)) as [| m ms IH]; [reflexivity |].
      cbn [filter]. destruct (m_session_id m =? sid) eqn:E; cbn [negb filter].
      - exact IH.
      - rewrite E. exact IH. }
    split; [discriminate |]. split.
    + split; [intros _; exact Hperm | reflexivity].
    + intros other H. discriminate H.
  - assert (Hitem : In item (sessions (delete_session (db w) sid))).
    { apply (Permutation_in item Hperm). left. reflexivity. }
    destruct (Hrem item Hitem) as [Hin [Hne Hnz]].
    apply Z.eqb_neq in Hnz. rewrite Hnz.
    unfold load_session. cbn [db current_session_id].
    split; [reflexivity |]. split.
    { unfold get_messages, delete_session. cbn [messages].
      induction (messages (db w)) as [| m ms IH]; [reflexivity |].
      cbn [filter]. destruct (m_session_id m =? sid) eqn:E; cbn [negb filter].
      - exact IH.
      - rewrite E. exact IH. }
    split; [intros H; injection H as H; contradiction |]. split.
    + split; [discriminate |].
      intros H. rewrite H in Hitem. destruct Hitem.
    + intros other H. injection H as <-.
      exists item. split; [exact Hin | split; [reflexivity | exact Hne]].
Qed.

End DeletionFacts.

(* ===================================================================== *)
(** ** Further worked cases                                               *)
(* ===================================================================== *)

Module Cases.

Import Samples.

#[local] Existing Instance Latin.runtime.

Lemma question_has_keywords : extract_keywords question 12 <> [].
Proof.
  assert (E : extract_keywords question 12 = [utf8 "mám"; utf8 "dluh"; utf8 "souseda"])
    by (vm_compute; reflexivity).
  rewrite E. discriminate.
Defined.

Lemma window_db_ok : db_ok (db window).
Proof.
  split; split.
  - repeat constructor.
  - split; [repeat constructor; cbn; lia | cbn; lia].
  - constructor.
  - split; [constructor | cbn; lia].
Defined.

(** "Mám dluh u souseda" under the cap 12. *)
Lemma extract_keywords_invariant_witness :
  1 <= 12 /\
  NoDup (extract_keywords question 12) /\
  Z.of_nat (length (extract_keywords question 12)) <= 12.
Proof.
  assert (H : 1 <= 12) by lia.
  destruct (extract_keywords_invariant question 12 H) as [A [B _]].
  split; [exact H | split; [exact A | exact B]].
Defined.

(** The caps 2 and 12 on the same question. *)
Lemma extract_keywords_cap_prefix_witness :
  1 <= 2 /\ 2 <= 12 /\
  extract_keywords question 2 = firstn (Z.to_nat 2) (extract_keywords question 12).
Proof.
  assert (H1 : 1 <= 2) by lia.
  assert (H2 : 2 <= 12) by lia.
  split; [exact H1 | split; [exact H2 |]].
  exact (extract_keywords_cap_prefix question 2 12 H1 H2).
Defined.

(** A text the function files under criminal law. *)
Lemma infer_category_official_witness :
  infer_category (utf8 "Podal na mě trestní oznámení") = TRESTNI_PRAVO /\
  0 < domain_score trest_terms (utf8 "Podal na mě trestní oznámení").
Proof.
  assert (H : infer_category (utf8 "Podal na mě trestní oznámení") = TRESTNI_PRAVO)
    by (vm_compute; reflexivity).
  pose proof (infer_category_official (utf8 "Podal na mě trestní oznámení")) as P.
  cbv zeta in P. destruct P as [_ [_ [A _]]].
  split; [exact H | exact (proj1 (A H))].
Defined.

(** Two red terms under the criminal category. *)
Lemma heuristic_risk_score_floor_witness :
  is_criminal TRESTNI_PRAVO = true /\
  (2 <= hits red_terms (str_lower (utf8 "policie soud")))%nat /\
  20 <= heuristic_risk_score (utf8 "policie soud") TRESTNI_PRAVO /\
  traffic_light_from_score (heuristic_risk_score (utf8 "policie soud") TRESTNI_PRAVO)
  = red.
Proof.
  assert (H1 : is_criminal TRESTNI_PRAVO = true) by (vm_compute; reflexivity).
  assert (H2 : (2 <= hits red_terms (str_lower (utf8 "policie soud")))%nat)
    by (vm_compute; lia).
  pose proof (heuristic_risk_score_floor (utf8 "policie soud") TRESTNI_PRAVO) as P.
  cbv zeta in P. destruct P as [_ [A [B _]]].
  split; [exact H1 | split; [exact H2 | split; [exact (A H1) | exact (B H2)]]].
Defined.

Lemma traffic_light_from_score_monotone_witness :
  20 <= 80 /\
  order (traffic_light_from_score 20) <= order (traffic_light_from_score 80).
Proof.
  assert (H : 20 <= 80) by lia.
  split; [exact H | exact (traffic_light_from_score_monotone 20 80 H)].
Defined.

(** Three readable days: three requests, newest day first. *)
Lemma search_recent_decisions_requests_witness :
  0 < 3 <= a_day /\
  (forall i, 0 <= i < 3 -> well_formed_day 200 (all_good (a_day - i))) /\
  snd (search_recent_decisions all_good a_day question 3 200 [])
  = [] ++ map (fun i => a_day - i) (range 3).
Proof.
  assert (H1 : 0 < 3 <= a_day) by (unfold a_day; lia).
  assert (H2 : forall i, 0 <= i < 3 -> well_formed_day 200 (all_good (a_day - i)))
    by (intros i _; exact Witness.good_page_well_formed).
  split; [exact H1 | split; [exact H2 |]].
  exact (proj1 (search_recent_decisions_requests all_good a_day question 3 200 []
                  question_has_keywords H1 H2)).
Defined.

Lemma search_recent_decisions_caps_witness :
  3 <= a_day /\
  (forall i, 0 <= i < 3 -> well_formed_day 200 (all_good (a_day - i))) /\
  exists result,
    fst (search_recent_decisions all_good a_day question 3 200 []) = inr result /\
    (length result <= 5)%nat.
Proof.
  assert (H1 : 3 <= a_day) by (unfold a_day; lia).
  assert (H2 : forall i, 0 <= i < 3 -> well_formed_day 200 (all_good (a_day - i)))
    by (intros i _; exact Witness.good_page_well_formed).
  split; [exact H1 | split; [exact H2 |]].
  destruct (search_recent_decisions_caps all_good a_day question 3 200 [] H1 H2)
    as [result [A [B _]]].
  exists result. split; [exact A | exact B].
Defined.

(** The newest day answers with a JSON array: the scan ends there. *)
Lemma search_recent_decisions_stops_at_non_object_witness :
  one_day_array (a_day - 0) = inr (JList []) /\
  search_recent_decisions one_day_array a_day question 2 200 []
  = (inl (AttributeError (JList []) "get"),
     [] ++ map (fun i => a_day - i) (range (0 + 1))).
Proof.
  assert (H1 : 0 <= 0 < 2) by lia.
  assert (H2 : 0 < a_day) by (unfold a_day; lia).
  assert (H3 : forall i, 0 <= i < 0 -> well_formed_day 200 (one_day_array (a_day - i)))
    by (intros i Hi; exfalso; lia).
  assert (H4 : one_day_array (a_day - 0) = inr (JList []))
    by (vm_compute; reflexivity).
  assert (H5 : forall kv, JList [] <> JDict kv) by (intros kv; discriminate).
  split; [exact H4 |].
  exact (search_recent_decisions_stops_at_non_object one_day_array a_day question
           2 200 [] 0 (JList []) question_has_keywords H1 H2 H3 H4 H5).
Defined.

(** On 2 January of the year 1, a window of three days. *)
Lemma search_recent_decisions_overflow_witness :
  1 <= 2 < 3 /\
  search_recent_decisions all_good 2 question 3 200 []
  = (inl OverflowError, [] ++ map (fun i => 2 - i) (range 2)).
Proof.
  assert (H1 : 1 <= 2 < 3) by lia.
  assert (H2 : forall i, 0 <= i < 2 -> well_formed_day 200 (all_good (2 - i)))
    by (intros i _; exact Witness.good_page_well_formed).
  split; [exact H1 |].
  exact (search_recent_decisions_overflow all_good 2 question 3 200 []
           question_has_keywords H1 H2).
Defined.

(** A message for session 1 leaves the messages of session 2 alone. *)
Lemma add_message_round_trip_witness :
  2 <> 1 /\
  exists d',
    add_message (db window) (Some 1) (utf8 "user") question None None
      (utf8 "2026-11-03T10:00:01") (utf8 "2026-11-03T10:00:01")
    = inr (last_message_id (db window) + 1, d') /\
    get_messages d' 2 = get_messages (db window) 2.
Proof.
  assert (H : 2 <> 1) by lia.
  split; [exact H |].
  destruct (add_message_round_trip (db window) 1 (utf8 "user") question None None
              (utf8 "2026-11-03T10:00:01") (utf8 "2026-11-03T10:00:01"))
    as [[d' [A [_ [B _]]]] _].
  exists d'. split; [exact A | exact (B 2 H)].
Defined.

Lemma delete_session_cascades_witness :
  2 <> 1 /\
  get_messages (delete_session (db window) 1) 2 = get_messages (db window) 2.
Proof.
  assert (H : 2 <> 1) by lia.
  split; [exact H |].
  pose proof (delete_session_cascades (db window) 1) as P.
  cbv zeta in P. destruct P as [_ [_ [A _]]].
  exact (A 2 H).
Defined.

Lemma db_ids_grow_witness :
  db_ok (db window) /\
  db_ok (delete_session (db window) 1) /\
  StronglySorted Z.lt (map m_id (get_messages (db window) 1)).
Proof.
  destruct db_ids_grow as [_ G].
  destruct (G (db window) window_db_ok) as [_ [_ [A B]]].
  split; [exact window_db_ok | split; [exact (A 1) | exact (B 1)]].
Defined.

(** An input of blanks only. *)
Lemma on_send_idle_witness :
  forallb is_space (utf8 "   ") = true /\
  on_send window (utf8 "   ") AUTO_CATEGORY [] []
  = inr {| sent_window := window; sent_selected := AUTO_CATEGORY;
           sent_worker := None |}.
Proof.
  assert (H : forallb is_space (utf8 "   ") = true) by (vm_compute; reflexivity).
  split; [exact H |].
  exact (on_send_idle window (utf8 "   ") AUTO_CATEGORY [] []
           (or_intror (or_intror H))).
Defined.

Lemma on_send_stores_question_witness :
  current_session_id window = Some 1 /\
  1 <> 0 /\
  forallb is_space (utf8 " Mám dluh  u souseda ") = false /\
  exists s,
    on_send window (utf8 " Mám dluh  u souseda ") AUTO_CATEGORY
      (utf8 "2026-11-03T10:00:01") (utf8 "2026-11-03T10:00:01") = inr s /\
    current_session_id (sent_window s) = Some 1.
Proof.
  assert (H1 : current_session_id window = Some 1) by reflexivity.
  assert (H2 : 1 <> 0) by lia.
  assert (H3 : forallb is_space (utf8 " Mám dluh  u souseda ") = false)
    by (vm_compute; reflexivity).
  split; [exact H1 | split; [exact H2 | split; [exact H3 |]]].
  destruct (on_send_stores_question window 1 (utf8 " Mám dluh  u souseda ")
              AUTO_CATEGORY (utf8 "2026-11-03T10:00:01")
              (utf8 "2026-11-03T10:00:01") H1 H2 H3)
    as [s [A [B _]]].
  exists s. split; [exact A | exact B].
Defined.

(** The chat of [window], the hosted provider without a key. *)
Lemma submission_appends_question_and_reply_witness :
  current_session_id window = Some 1 /\
  1 <> 0 /\
  forallb is_space question = false /\
  exists s category q w' user reply,
    on_send window question OBCANSKE_PRAVO [] [] = inr s /\
    sent_worker s = Some (category, q) /\
    on_done (sent_window s)
      (fst (run all_good a_day no_backend [] prompt (fun _ => []) (fun _ => [])
              (config "openai" 0) category q))
      [] [] = inr w' /\
    get_messages (db w') 1 = get_messages (db window) 1 ++ [user; reply] /\
    m_role reply = utf8 "assistant".
Proof.
  assert (H1 : current_session_id window = Some 1) by reflexivity.
  assert (H2 : 1 <> 0) by lia.
  assert (H3 : forallb is_space question = false) by (vm_compute; reflexivity).
  split; [exact H1 | split; [exact H2 | split; [exact H3 |]]].
  destruct (submission_appends_question_and_reply all_good a_day no_backend []
              prompt (fun _ => []) (fun _ => []) (config "openai" 0) window 1
              question OBCANSKE_PRAVO [] [] [] [] H1 H2 H3)
    as [s [category [q [emitted [w' [user [reply [light
         [A [B [C [D [E [_ [_ [F _]]]]]]]]]]]]]]]].
  exists s, category, q, w', user, reply.
  rewrite C in D.
  split; [exact A | split; [exact B | split; [exact D | split; [exact E | exact F]]]].
Defined.

(** Asked in chat 1, answered after a switch to chat 2. *)
Lemma reply_follows_current_session_witness :
  current_session_id window = Some 1 /\
  1 <> 0 /\ 2 <> 1 /\
  forallb is_space question = false /\
  exists s w' reply,
    on_send window question OBCANSKE_PRAVO [] [] = inr s /\
    on_done (load_session (sent_window s) 2)
      (inr mock_answer, utf8 "yellow", utf8 "[]") [] [] = inr w' /\
    get_messages (db w') 2 = get_messages (db window) 2 ++ [reply].
Proof.
  assert (H1 : current_session_id window = Some 1) by reflexivity.
  assert (H2 : 1 <> 0) by lia.
  assert (H3 : 2 <> 1) by lia.
  assert (H4 : forallb is_space question = false) by (vm_compute; reflexivity).
  split; [exact H1 | split; [exact H2 | split; [exact H3 | split; [exact H4 |]]]].
  destruct (reply_follows_current_session window 1 2 question OBCANSKE_PRAVO
              (inr mock_answer, utf8 "yellow", utf8 "[]") [] [] [] []
              H1 H2 H3 H4)
    as [s [w' [user [reply [A [B [_ [C _]]]]]]]].
  exists s, w', reply.
  split; [exact A | split; [exact B | exact C]].
Defined.

(** A new chat under the Auto entry, one question, one reply. *)
Lemma session_category_is_fixed_witness :
  let opened := new_chat window AUTO_CATEGORY (utf8 "10:05") (utf8 "2026-11-03T10:05:00") in
  exists s w',
    on_send opened question AUTO_CATEGORY [] [] = inr s /\
    on_done (sent_window s) (inr mock_answer, utf8 "yellow", utf8 "[]") [] []
    = inr w' /\
    map s_category (sessions (db w')) = map s_category (sessions (db opened)).
Proof.
  intros opened.
  refine (ex_intro _ _ (ex_intro _ _ _)).
  match goal with
  | |- ?A /\ ?B /\ _ =>
      assert (Hs : A) by (vm_compute; reflexivity);
      assert (Hd : B) by (vm_compute; reflexivity)
  end.
  split; [exact Hs | split; [exact Hd |]].
  exact (proj1 (proj2 (proj2
           (session_category_is_fixed window AUTO_CATEGORY (utf8 "10:05")
              (utf8 "2026-11-03T10:05:00") question AUTO_CATEGORY
              (inr mock_answer, utf8 "yellow", utf8 "[]") [] [] [] [] _ _ Hs Hd)))).
Defined.

(** The default provider name, "mock", over an empty window of days. *)
Lemma unknown_provider_falls_back_to_mock_witness :
  llm_provider (config "mock" 0) <> utf8 "openai" /\
  llm_provider (config "mock" 0) <> utf8 "ollama" /\
  run all_good a_day no_backend [] prompt (fun _ => []) (fun _ => [])
    (config "mock" 0) OBCANSKE_PRAVO question
  = ((inr (reconcile question OBCANSKE_PRAVO mock_answer),
      light_name (traffic_light (reconcile question OBCANSKE_PRAVO mock_answer)),
      []), []).
Proof.
  assert (H1 : llm_provider (config "mock" 0) <> utf8 "openai")
    by (apply str_neq; vm_compute; reflexivity).
  assert (H2 : llm_provider (config "mock" 0) <> utf8 "ollama")
    by (apply str_neq; vm_compute; reflexivity).
  assert (H3 : search_recent_decisions all_good a_day question
                 (justice_lookback_days (config "mock" 0))
                 (justice_max_items_per_day (config "mock" 0)) []
               = (inr [], []))
    by (vm_compute; reflexivity).
  split; [exact H1 | split; [exact H2 |]].
  exact (proj1 (unknown_provider_falls_back_to_mock all_good a_day no_backend []
                  prompt (fun _ => []) (fun _ => []) (config "mock" 0)
                  OBCANSKE_PRAVO question [] [] H1 H2 H3)).
Defined.

(** A reply with prose around the object. *)
Lemma ollama_json_text_span_witness :
  ollama_json_text (utf8 "Jistě: {a} hotovo") = inr (utf8 "{a}") /\
  exists pre mid post,
    utf8 "Jistě: {a} hotovo" = pre ++ open_brace :: mid ++ close_brace :: post /\
    ~ In open_brace pre /\ ~ In close_brace post /\
    utf8 "{a}" = open_brace :: mid ++ [close_brace].
Proof.
  assert (H : ollama_json_text (utf8 "Jistě: {a} hotovo") = inr (utf8 "{a}"))
    by (vm_compute; reflexivity).
  split; [exact H |].
  exact (proj1 ollama_json_text_span _ _ H).
Defined.

Import OllamaSetup Worlds.

(** The hosted service with a key: one request, no pull, ready. *)
Lemma ensure_ollama_ready_cloud_witness :
  str_in (utf8 "ollama.com") (str_lower (strip (ollama_base_url cloud_config))) = true /\
  exists res tr,
    ensure_ollama_ready hosted cloud_config true [] = (inr res, tr) /\
    filter is_pull tr = [] /\
    ok res = true.
Proof.
  assert (H : str_in (utf8 "ollama.com")
                (str_lower (strip (ollama_base_url cloud_config))) = true)
    by (vm_compute; reflexivity).
  split; [exact H |].
  pose proof (ensure_ollama_ready_cloud hosted cloud_config true) as T.
  cbv zeta in T. destruct (T H) as [res [tr [E [_ [P Hok]]]]].
  exists res, tr. split; [exact E | split; [exact P |]].
  apply Hok. split.
  - apply str_neq. vm_compute. reflexivity.
  - exists (answer 200 tags). split; reflexivity.
Defined.

(** Nothing listens on the port: the setup thread ends without a closing
    signal. *)
Lemma setup_run_silent_iff_witness :
  probe_fails no_server (config "ollama" 14) /\
  fst (setup_run no_server (config "ollama" 14)) = None.
Proof.
  assert (H : probe_fails no_server (config "ollama" 14)).
  { split; [vm_compute; reflexivity | split].
    - exists (utf8 "/usr/local/bin/ollama").
      split; [reflexivity | apply str_neq; vm_compute; reflexivity].
    - intros probe Hp. unfold no_server in Hp. cbn [requests_get] in Hp.
      discriminate Hp. }
  split; [exact H |].
  exact (proj2 (proj1 (setup_run_silent_iff no_server (config "ollama" 14))) H).
Defined.

(** The server runs and lists the configured model: nothing is pulled. *)
Lemma ensure_ollama_ready_local_witness :
  str_in (utf8 "ollama.com")
    (str_lower (strip (ollama_base_url (config "ollama" 14)))) = false /\
  find_ollama_cli ready = Some (utf8 "/usr/local/bin/ollama") /\
  utf8 "/usr/local/bin/ollama" <> [] /\
  exists res tr,
    ensure_ollama_ready ready (config "ollama" 14) true [] = (inr res, tr) /\
    ok res = true.
Proof.
  assert (H1 : str_in (utf8 "ollama.com")
                 (str_lower (strip (ollama_base_url (config "ollama" 14)))) = false)
    by (vm_compute; reflexivity).
  assert (H2 : find_ollama_cli ready = Some (utf8 "/usr/local/bin/ollama"))
    by reflexivity.
  assert (H3 : utf8 "/usr/local/bin/ollama" <> [])
    by (apply str_neq; vm_compute; reflexivity).
  split; [exact H1 | split; [exact H2 | split; [exact H3 |]]].
  pose proof (ensure_ollama_ready_local ready (config "ollama" 14) true
                (utf8 "/usr/local/bin/ollama") (answer 200 tags)) as T.
  cbv zeta in T.
  destruct (T H1 H2 H3 eq_refl eq_refl) as [res [tr [E [_ [_ Hok]]]]].
  exists res, tr. split; [exact E |].
  apply Hok. exists [JStr (utf8 "llama3.1:8b")]. split.
  - vm_compute. reflexivity.
  - left. left. vm_compute. reflexivity.
Defined.

(** Deleting the only chat leaves no chat open. *)
Lemma delete_current_chat_moves_on_witness :
  (forall d, Permutation (newest_first d) (sessions d)) /\
  db_ok (db window) /\
  current_session_id window = Some 1 /\
  1 <> 0 /\
  current_session_id (delete_current_chat newest_first window true) <> Some 1.
Proof.
  assert (H0 : forall d, Permutation (newest_first d) (sessions d))
    by (intros d; apply Permutation_sym, Permutation_rev).
  assert (H2 : current_session_id window = Some 1) by reflexivity.
  assert (H3 : 1 <> 0) by lia.
  split; [exact H0 | split; [exact window_db_ok | split; [exact H2 | split; [exact H3 |]]]].
  pose proof (delete_current_chat_moves_on newest_first H0 window 1
                window_db_ok H2 H3) as T.
  cbv zeta in T. exact (proj1 (proj2 (proj2 (proj2 T)))).
Defined.

End Cases.
